(** * ReDyne: disassembly engine, Objective-C runtime scanner, type reconstruction

    A shallow embedding of the C sources under [ReDyne/Models]:
    - [DisassemblyEngine.c]: the AArch64 and x86-64 single-instruction
      decoders and the prologue/epilogue heuristics;
    - [ClassDumpC.c]: the byte-level scanner for Objective-C runtime symbols
      and bracketed method signatures;
    - [TypeAnalyzerC.c]: the symbol-driven type reconstruction loop.

    Machine integers are integers of [Z] with the wrap-around of their C type
    written out; C strings are [string]; the mapped binary is a [list byte].
    Allocation ([malloc], [realloc], [strdup]) is taken to succeed. *)

From Stdlib Require Import ZArith String Ascii List Bool Lia.
From Stdlib Require Import DecimalString HexadecimalString.
From Stdlib.Strings Require Import Byte.
From Stdlib Require Import QArith.
Import ListNotations.

Open Scope string_scope.
Open Scope list_scope.
Open Scope Z_scope.

Infix ">>" := Z.shiftr (at level 30, no associativity) : Z_scope.
Infix "<<" := Z.shiftl (at level 30, no associativity) : Z_scope.
Infix ".&" := Z.land (at level 40, left associativity) : Z_scope.
Infix ".|" := Z.lor (at level 45, left associativity) : Z_scope.
Infix "+++" := String.append (at level 60, right associativity).

(** ** Machine integers *)

Module MachInt.

(** Conversion to [uint64_t], [uint32_t]: reduction modulo the width. *)
Definition to_uint64 (z : Z) : Z := z mod 2 ^ 64.
Definition to_uint32 (z : Z) : Z := z mod 2 ^ 32.

(** Conversion of a bit pattern to a signed type of [w] bits. *)
Definition to_signed (w : Z) (z : Z) : Z :=
  let u := z mod 2 ^ w in
  if u <? 2 ^ (w - 1) then u else u - 2 ^ w.

Definition to_int8 : Z -> Z := to_signed 8.
Definition to_int16 : Z -> Z := to_signed 16.
Definition to_int32 : Z -> Z := to_signed 32.

End MachInt.
Export MachInt.

(** ** C strings and [printf] conversions *)

Module CStr.

(** [strstr hay needle != NULL]. *)
Definition strstr (hay needle : string) : bool :=
  match String.index 0 needle hay with
  | Some _ => true
  | None => false
  end.

(** [strcmp a b == 0]. *)
Definition streq (a b : string) : bool := String.eqb a b.

(** [strchr s c], as the offset of the first occurrence. *)
Fixpoint strchr (s : string) (c : ascii) : option nat :=
  match s with
  | EmptyString => None
  | String a rest =>
      if Ascii.eqb a c then Some O
      else match strchr rest c with
           | Some n => Some (S n)
           | None => None
           end
  end.

(** The tail of [s] from offset [n] on (pointer arithmetic [s + n]). *)
Definition str_from (n : nat) (s : string) : string :=
  String.substring n (String.length s - n) s.

(** [snprintf(buf, size, ...)] stores at most [size - 1] characters of the
    formatted text. *)
Definition snprintf (size : nat) (text : string) : string :=
  String.substring 0 (size - 1) text.

Definition to_upper (c : ascii) : ascii :=
  let n := nat_of_ascii c in
  if (andb (Nat.leb 97 n) (Nat.leb n 122)) then ascii_of_nat (n - 32) else c.

Fixpoint map_string (f : ascii -> ascii) (s : string) : string :=
  match s with
  | EmptyString => EmptyString
  | String a rest => String (f a) (map_string f rest)
  end.

(** ["%llx"], ["%x"]: lower-case hexadecimal of an unsigned value. *)
Definition fmt_x (z : Z) : string :=
  HexadecimalString.NilZero.string_of_uint (N.to_hex_uint (Z.to_N z)).

(** ["%X"]. *)
Definition fmt_X (z : Z) : string := map_string to_upper (fmt_x z).

(** ["%08X"], ["%02X"] on a value of an unsigned type with at most [width]
    hexadecimal digits ([uint32_t] for 8, [uint8_t] for 2): the digits
    from the most significant one down, zeros included. *)
Definition hex_digit_upper (n : Z) : ascii :=
  nth (Z.to_nat n) (list_ascii_of_string "0123456789ABCDEF") "0"%char.

Fixpoint fmt_0X (width : nat) (z : Z) : string :=
  match width with
  | O => EmptyString
  | S w => String (hex_digit_upper ((z >> (4 * Z.of_nat w)) .& 0xF)) (fmt_0X w z)
  end.

(** ["%u"] on an unsigned value, ["%d"] on a signed one. *)
Definition fmt_u (z : Z) : string :=
  DecimalString.NilZero.string_of_uint (N.to_uint (Z.to_N z)).
Definition fmt_d (z : Z) : string :=
  DecimalString.NilZero.string_of_int (Z.to_int z).

End CStr.
Export CStr.

(** ** DisassemblyEngine.c: the instruction record *)

Module Disasm.

Inductive InstructionCategory : Type :=
| INST_CATEGORY_DATA_PROCESSING
| INST_CATEGORY_LOAD_STORE
| INST_CATEGORY_BRANCH
| INST_CATEGORY_SYSTEM
| INST_CATEGORY_SIMD
| INST_CATEGORY_UNKNOWN.

Inductive BranchType : Type :=
| BRANCH_NONE
| BRANCH_CALL
| BRANCH_UNCONDITIONAL
| BRANCH_CONDITIONAL
| BRANCH_RETURN.

(** [DisassembledInstruction]: the fields the decoders assign.  [address],
    [branch_target], [regs_read], [regs_written] are [uint64_t];
    [raw_bytes], [inst_length] (the C field [length]) are [uint32_t];
    [branch_offset] is [int64_t]. *)
Record DisassembledInstruction : Type := mkInst {
  address : Z;
  raw_bytes : Z;
  inst_length : Z;
  mnemonic : string;
  operands : string;
  full_disasm : string;
  category : InstructionCategory;
  has_branch : bool;
  branch_type : BranchType;
  has_branch_target : bool;
  branch_target : Z;
  branch_offset : Z;
  updates_pc : bool;
  regs_read : Z;
  regs_written : Z;
  flags_written : Z;
  is_function_start : bool;
  is_function_end : bool;
  is_valid : bool
}.

(** Field assignments [inst->f = v]. *)
Definition set_address v i := mkInst v (raw_bytes i) (inst_length i) (mnemonic i) (operands i) (full_disasm i) (category i) (has_branch i) (branch_type i) (has_branch_target i) (branch_target i) (branch_offset i) (updates_pc i) (regs_read i) (regs_written i) (flags_written i) (is_function_start i) (is_function_end i) (is_valid i).
Definition set_raw_bytes v i := mkInst (address i) v (inst_length i) (mnemonic i) (operands i) (full_disasm i) (category i) (has_branch i) (branch_type i) (has_branch_target i) (branch_target i) (branch_offset i) (updates_pc i) (regs_read i) (regs_written i) (flags_written i) (is_function_start i) (is_function_end i) (is_valid i).
Definition set_length v i := mkInst (address i) (raw_bytes i) v (mnemonic i) (operands i) (full_disasm i) (category i) (has_branch i) (branch_type i) (has_branch_target i) (branch_target i) (branch_offset i) (updates_pc i) (regs_read i) (regs_written i) (flags_written i) (is_function_start i) (is_function_end i) (is_valid i).
Definition set_mnemonic v i := mkInst (address i) (raw_bytes i) (inst_length i) v (operands i) (full_disasm i) (category i) (has_branch i) (branch_type i) (has_branch_target i) (branch_target i) (branch_offset i) (updates_pc i) (regs_read i) (regs_written i) (flags_written i) (is_function_start i) (is_function_end i) (is_valid i).
Definition set_operands v i := mkInst (address i) (raw_bytes i) (inst_length i) (mnemonic i) v (full_disasm i) (category i) (has_branch i) (branch_type i) (has_branch_target i) (branch_target i) (branch_offset i) (updates_pc i) (regs_read i) (regs_written i) (flags_written i) (is_function_start i) (is_function_end i) (is_valid i).
Definition set_full_disasm v i := mkInst (address i) (raw_bytes i) (inst_length i) (mnemonic i) (operands i) v (category i) (has_branch i) (branch_type i) (has_branch_target i) (branch_target i) (branch_offset i) (updates_pc i) (regs_read i) (regs_written i) (flags_written i) (is_function_start i) (is_function_end i) (is_valid i).
Definition set_category v i := mkInst (address i) (raw_bytes i) (inst_length i) (mnemonic i) (operands i) (full_disasm i) v (has_branch i) (branch_type i) (has_branch_target i) (branch_target i) (branch_offset i) (updates_pc i) (regs_read i) (regs_written i) (flags_written i) (is_function_start i) (is_function_end i) (is_valid i).
Definition set_has_branch v i := mkInst (address i) (raw_bytes i) (inst_length i) (mnemonic i) (operands i) (full_disasm i) (category i) v (branch_type i) (has_branch_target i) (branch_target i) (branch_offset i) (updates_pc i) (regs_read i) (regs_written i) (flags_written i) (is_function_start i) (is_function_end i) (is_valid i).
Definition set_branch_type v i := mkInst (address i) (raw_bytes i) (inst_length i) (mnemonic i) (operands i) (full_disasm i) (category i) (has_branch i) v (has_branch_target i) (branch_target i) (branch_offset i) (updates_pc i) (regs_read i) (regs_written i) (flags_written i) (is_function_start i) (is_function_end i) (is_valid i).
Definition set_has_branch_target v i := mkInst (address i) (raw_bytes i) (inst_length i) (mnemonic i) (operands i) (full_disasm i) (category i) (has_branch i) (branch_type i) v (branch_target i) (branch_offset i) (updates_pc i) (regs_read i) (regs_written i) (flags_written i) (is_function_start i) (is_function_end i) (is_valid i).
Definition set_branch_target v i := mkInst (address i) (raw_bytes i) (inst_length i) (mnemonic i) (operands i) (full_disasm i) (category i) (has_branch i) (branch_type i) (has_branch_target i) v (branch_offset i) (updates_pc i) (regs_read i) (regs_written i) (flags_written i) (is_function_start i) (is_function_end i) (is_valid i).
Definition set_branch_offset v i := mkInst (address i) (raw_bytes i) (inst_length i) (mnemonic i) (operands i) (full_disasm i) (category i) (has_branch i) (branch_type i) (has_branch_target i) (branch_target i) v (updates_pc i) (regs_read i) (regs_written i) (flags_written i) (is_function_start i) (is_function_end i) (is_valid i).
Definition set_updates_pc v i := mkInst (address i) (raw_bytes i) (inst_length i) (mnemonic i) (operands i) (full_disasm i) (category i) (has_branch i) (branch_type i) (has_branch_target i) (branch_target i) (branch_offset i) v (regs_read i) (regs_written i) (flags_written i) (is_function_start i) (is_function_end i) (is_valid i).
Definition set_regs_read v i := mkInst (address i) (raw_bytes i) (inst_length i) (mnemonic i) (operands i) (full_disasm i) (category i) (has_branch i) (branch_type i) (has_branch_target i) (branch_target i) (branch_offset i) (updates_pc i) v (regs_written i) (flags_written i) (is_function_start i) (is_function_end i) (is_valid i).
Definition set_regs_written v i := mkInst (address i) (raw_bytes i) (inst_length i) (mnemonic i) (operands i) (full_disasm i) (category i) (has_branch i) (branch_type i) (has_branch_target i) (branch_target i) (branch_offset i) (updates_pc i) (regs_read i) v (flags_written i) (is_function_start i) (is_function_end i) (is_valid i).
Definition set_flags_written v i := mkInst (address i) (raw_bytes i) (inst_length i) (mnemonic i) (operands i) (full_disasm i) (category i) (has_branch i) (branch_type i) (has_branch_target i) (branch_target i) (branch_offset i) (updates_pc i) (regs_read i) (regs_written i) v (is_function_start i) (is_function_end i) (is_valid i).
Definition set_is_function_start v i := mkInst (address i) (raw_bytes i) (inst_length i) (mnemonic i) (operands i) (full_disasm i) (category i) (has_branch i) (branch_type i) (has_branch_target i) (branch_target i) (branch_offset i) (updates_pc i) (regs_read i) (regs_written i) (flags_written i) v (is_function_end i) (is_valid i).
Definition set_is_function_end v i := mkInst (address i) (raw_bytes i) (inst_length i) (mnemonic i) (operands i) (full_disasm i) (category i) (has_branch i) (branch_type i) (has_branch_target i) (branch_target i) (branch_offset i) (updates_pc i) (regs_read i) (regs_written i) (flags_written i) (is_function_start i) v (is_valid i).
Definition set_is_valid v i := mkInst (address i) (raw_bytes i) (inst_length i) (mnemonic i) (operands i) (full_disasm i) (category i) (has_branch i) (branch_type i) (has_branch_target i) (branch_target i) (branch_offset i) (updates_pc i) (regs_read i) (regs_written i) (flags_written i) (is_function_start i) (is_function_end i) v.

(** [inst->regs_read |= m], [inst->regs_written |= m]. *)
Definition or_regs_read (m : Z) i := set_regs_read (regs_read i .| m) i.
Definition or_regs_written (m : Z) i := set_regs_written (regs_written i .| m) i.

(** [DisassemblyContext]: the decoders read only the heuristics word. *)
Record DisassemblyContext : Type := mkCtx { flags : Z }.

Definition x_regs : list string :=
  ["X0"; "X1"; "X2"; "X3"; "X4"; "X5"; "X6"; "X7";
   "X8"; "X9"; "X10"; "X11"; "X12"; "X13"; "X14"; "X15";
   "X16"; "X17"; "X18"; "X19"; "X20"; "X21"; "X22"; "X23";
   "X24"; "X25"; "X26"; "X27"; "X28"; "X29"; "X30"; "SP"].

Definition w_regs : list string :=
  ["W0"; "W1"; "W2"; "W3"; "W4"; "W5"; "W6"; "W7";
   "W8"; "W9"; "W10"; "W11"; "W12"; "W13"; "W14"; "W15";
   "W16"; "W17"; "W18"; "W19"; "W20"; "W21"; "W22"; "W23";
   "W24"; "W25"; "W26"; "W27"; "W28"; "W29"; "W30"; "WSP"].

Definition arm64_register_name (reg : Z) (is_64bit : bool) : string :=
  if 31 <? reg then "???"
  else nth (Z.to_nat reg) (if is_64bit then x_regs else w_regs) "???".

Definition conditions : list string :=
  ["EQ"; "NE"; "CS"; "CC"; "MI"; "PL"; "VS"; "VC";
   "HI"; "LS"; "GE"; "LT"; "GT"; "LE"; "AL"; "NV"].

Definition arm64_condition_string (cond : Z) : string :=
  if cond <? 16 then nth (Z.to_nat cond) conditions "??" else "??".

(** [disasm_enable_flag], [disasm_disable_flag] ([flags] is [uint32_t]). *)
Definition disasm_enable_flag (ctx : DisassemblyContext) (flag : Z) : DisassemblyContext :=
  mkCtx (flags ctx .| flag).
Definition disasm_disable_flag (ctx : DisassemblyContext) (flag : Z) : DisassemblyContext :=
  mkCtx (flags ctx .& to_uint32 (Z.lnot flag)).

(** ** DisassemblyEngine.c: the AArch64 decoder *)

Section Decoders.

(** Declared in [DisassemblyEngine.h], which is not part of the sources
    at hand: the heuristics flag bit, the sizes of the three character
    arrays of the record, and the enumerators whose value is zero (what
    [memset] leaves in [category] and [branch_type]). *)
Variable DISASM_FLAG_PROLOGUE_EPILOGUE_HEURISTICS : Z.
Variables MNEMONIC_SIZE OPERANDS_SIZE FULL_DISASM_SIZE : nat.
Variable category_zero : InstructionCategory.
Variable branch_type_zero : BranchType.

(** [memset(inst, 0, sizeof(DisassembledInstruction))]. *)
Definition zeroed : DisassembledInstruction :=
  mkInst 0 0 0 "" "" "" category_zero false branch_type_zero false 0 0
         false 0 0 0 false false false.

(** The context [disasm_create] returns, as far as the decoders read
    it: the heuristics are enabled by default. *)
Definition disasm_create : DisassemblyContext :=
  mkCtx DISASM_FLAG_PROLOGUE_EPILOGUE_HEURISTICS.

(** [ctx && (ctx->flags & DISASM_FLAG_PROLOGUE_EPILOGUE_HEURISTICS)]. *)
Definition heuristics_enabled (ctx : option DisassemblyContext) : bool :=
  match ctx with
  | None => false
  | Some c => negb (flags c .& DISASM_FLAG_PROLOGUE_EPILOGUE_HEURISTICS =? 0)
  end.

Definition arm64_is_prologue (ctx : option DisassemblyContext)
           (inst : DisassembledInstruction) : bool :=
  if negb (heuristics_enabled ctx) then false
  else if strstr (mnemonic inst) "STP" &&
          strstr (operands inst) "X29" &&
          strstr (operands inst) "X30" &&
          strstr (operands inst) "#-" then true
  else false.

Definition arm64_is_epilogue (ctx : option DisassemblyContext)
           (inst : DisassembledInstruction) : bool :=
  if streq (mnemonic inst) "RET" then true
  else if negb (heuristics_enabled ctx) then false
  else if strstr (mnemonic inst) "LDP" &&
          strstr (operands inst) "X29" &&
          strstr (operands inst) "X30" then true
  else false.

Definition fmt_operands (text : string) (inst : DisassembledInstruction) :=
  set_operands (snprintf OPERANDS_SIZE text) inst.

(** B / BL. *)
Definition arm64_b_bl (bytes address : Z) (inst : DisassembledInstruction) :=
  let is_link := ((bytes >> 31) .& 0x1) =? 1 in
  let imm26 := bytes .& 0x3FFFFFF in
  let imm26 := if negb (imm26 .& 0x2000000 =? 0)
               then to_int32 (imm26 .| 0xFC000000) else imm26 in
  let offset := imm26 * 4 in
  let inst := set_mnemonic (if is_link then "BL" else "B") inst in
  let inst := set_branch_target (to_uint64 (address + offset)) inst in
  let inst := set_branch_offset offset inst in
  let inst := set_has_branch_target true inst in
  let inst := set_has_branch true inst in
  let inst := set_branch_type (if is_link then BRANCH_CALL else BRANCH_UNCONDITIONAL) inst in
  let inst := fmt_operands ("0x" +++ fmt_x (branch_target inst)) inst in
  let inst := set_category INST_CATEGORY_BRANCH inst in
  let inst := set_is_valid true inst in
  let inst := set_updates_pc true inst in
  if is_link then or_regs_written (1 << 30) inst else inst.

(** ADR / ADRP.  [imm] is a [uint32_t]: the cast [(int64_t)imm] extends
    it with zeros. *)
Definition arm64_adr_adrp (bytes address : Z) (inst : DisassembledInstruction) :=
  let is_adrp := negb (bytes .& 0x80000000 =? 0) in
  let immlo := (bytes >> 29) .& 0x3 in
  let immhi := (bytes >> 5) .& 0x7FFFF in
  let imm := to_uint32 (immhi << 2) .| immlo in
  let imm := if negb (imm .& (1 << 20) =? 0) then imm .| 0xFFF00000 else imm in
  let offset := if is_adrp then imm << 12 else imm in
  let target := if is_adrp
                then to_uint64 (address .& 0xFFFFFFFFFFFFF000 + offset)
                else to_uint64 (address + offset) in
  let inst := set_mnemonic (if is_adrp then "ADRP" else "ADR") inst in
  let rd := bytes .& 0x1F in
  let inst := fmt_operands (arm64_register_name rd true +++ ", 0x" +++ fmt_x target) inst in
  let inst := set_category INST_CATEGORY_DATA_PROCESSING inst in
  let inst := set_is_valid true inst in
  let inst := or_regs_written (1 << rd) inst in
  let inst := set_has_branch false inst in
  let inst := set_has_branch_target true inst in
  let inst := set_branch_target target inst in
  set_branch_offset offset inst.

(** BR / BLR / RET / BRAA. *)
Definition arm64_branch_reg (bytes : Z) (inst : DisassembledInstruction) :=
  let rn := (bytes >> 5) .& 0x1F in
  let opc := (bytes >> 21) .& 0x3 in
  let inst := set_mnemonic (if opc =? 0 then "BR"
                            else if opc =? 1 then "BLR"
                            else if opc =? 2 then "RET"
                            else "BRAA") inst in
  let inst := fmt_operands (arm64_register_name rn true) inst in
  let inst := set_has_branch true inst in
  let inst := set_branch_type (if opc =? 2 then BRANCH_RETURN
                               else if opc =? 1 then BRANCH_CALL
                               else BRANCH_UNCONDITIONAL) inst in
  let inst := set_category INST_CATEGORY_BRANCH inst in
  let inst := set_is_valid true inst in
  let inst := set_updates_pc true inst in
  let inst := or_regs_read (1 << rn) inst in
  if opc =? 1 then or_regs_written (1 << 30) inst
  else if opc =? 2 then
    let inst := set_is_function_end true inst in
    let inst := set_has_branch true inst in
    let inst := set_branch_type BRANCH_RETURN inst in
    set_updates_pc true inst
  else inst.

(** LDP / STP. *)
Definition arm64_ldp_stp (bytes : Z) (inst : DisassembledInstruction) :=
  let is_load := ((bytes >> 22) .& 0x1) =? 1 in
  let is_64bit := ((bytes >> 31) .& 0x1) =? 1 in
  let rt := bytes .& 0x1F in
  let rt2 := (bytes >> 10) .& 0x1F in
  let rn := (bytes >> 5) .& 0x1F in
  let imm7 := (bytes >> 15) .& 0x7F in
  let imm7 := if negb (imm7 .& 0x40 =? 0) then to_int16 (imm7 .| 0xFF80) else imm7 in
  let offset := to_int32 (imm7 * (if is_64bit then 8 else 4)) in
  let inst := set_mnemonic (if is_load then "LDP" else "STP") inst in
  let idx := (bytes >> 23) .& 0x3 in
  let regs := arm64_register_name rt is_64bit +++ ", " +++
              arm64_register_name rt2 is_64bit +++ ", [" +++
              arm64_register_name rn true in
  let inst :=
    if idx =? 0x3 then fmt_operands (regs +++ ", #" +++ fmt_d offset +++ "]!") inst
    else if idx =? 0x1 then fmt_operands (regs +++ "], #" +++ fmt_d offset) inst
    else fmt_operands (regs +++ ", #" +++ fmt_d offset +++ "]") inst in
  let inst := set_category INST_CATEGORY_LOAD_STORE inst in
  let inst := set_is_valid true inst in
  if is_load then
    let inst := or_regs_written ((1 << rt) .| (1 << rt2)) inst in
    or_regs_read (1 << rn) inst
  else
    or_regs_read ((1 << rt) .| (1 << rt2) .| (1 << rn)) inst.

(** The group entered on [(op0 & 0x8) == 0x8]: ADD/SUB immediate and the
    wide moves; any other word leaves the record as it is. *)
Definition arm64_add_sub_imm (bytes : Z) (inst : DisassembledInstruction) :=
  let is_sub := ((bytes >> 30) .& 0x1) =? 1 in
  let is_64bit := ((bytes >> 31) .& 0x1) =? 1 in
  let rd := bytes .& 0x1F in
  let rn := (bytes >> 5) .& 0x1F in
  let imm12 := (bytes >> 10) .& 0xFFF in
  let shift := (bytes >> 22) .& 0x3 in
  let imm := to_uint32 (imm12 << (shift * 12)) in
  let inst := set_mnemonic (if is_sub then "SUB" else "ADD") inst in
  let inst := fmt_operands (arm64_register_name rd is_64bit +++ ", " +++
                            arm64_register_name rn is_64bit +++ ", #" +++
                            fmt_u imm) inst in
  let inst := set_category INST_CATEGORY_DATA_PROCESSING inst in
  let inst := set_is_valid true inst in
  let inst := or_regs_read (1 << rn) inst in
  let inst := or_regs_written (1 << rd) inst in
  if ((bytes >> 20) .& 0x1) =? 1 then set_flags_written 0xF inst else inst.

Definition arm64_mov_wide (bytes : Z) (inst : DisassembledInstruction) :=
  let opc := (bytes >> 29) .& 0x3 in
  let is_64bit := ((bytes >> 31) .& 0x1) =? 1 in
  let rd := bytes .& 0x1F in
  let imm16 := (bytes >> 5) .& 0xFFFF in
  let inst := set_mnemonic (if opc =? 0x2 then "MOVZ"
                            else if opc =? 0x0 then "MOVN"
                            else if opc =? 0x3 then "MOVK"
                            else "MOV") inst in
  let inst := fmt_operands (arm64_register_name rd is_64bit +++ ", #0x" +++
                            fmt_X imm16) inst in
  let inst := set_category INST_CATEGORY_DATA_PROCESSING inst in
  let inst := set_is_valid true inst in
  if opc =? 0x3 then
    let inst := or_regs_read (1 << rd) inst in
    or_regs_written (1 << rd) inst
  else
    let inst := set_regs_read 0 inst in
    or_regs_written (1 << rd) inst.

Definition arm64_dp_imm_group (bytes : Z) (inst : DisassembledInstruction) :=
  if (((bytes >> 23) .& 0x3F) =? 0x22) || (((bytes >> 23) .& 0x3F) =? 0x32)
  then arm64_add_sub_imm bytes inst
  else if (((bytes >> 23) .& 0x3F) =? 0x25) || (((bytes >> 23) .& 0x3F) =? 0x05)
          || (((bytes >> 23) .& 0x3F) =? 0x35)
  then arm64_mov_wide bytes inst
  else inst.

(** The group entered on [(op0 & 0xE) == 0xA]: B.cond, CBZ/CBNZ,
    TBZ/TBNZ. *)
Definition arm64_b_cond (bytes address : Z) (inst : DisassembledInstruction) :=
  let cond := bytes .& 0xF in
  let imm19 := (bytes >> 5) .& 0x7FFFF in
  let imm19 := if negb (imm19 .& 0x40000 =? 0)
               then to_int32 (imm19 .| 0xFFF80000) else imm19 in
  let offset := imm19 * 4 in
  let inst := set_mnemonic (snprintf MNEMONIC_SIZE ("B." +++ arm64_condition_string cond)) inst in
  let inst := set_branch_target (to_uint64 (address + offset)) inst in
  let inst := set_branch_offset offset inst in
  let inst := set_has_branch_target true inst in
  let inst := set_has_branch true inst in
  let inst := set_branch_type BRANCH_CONDITIONAL inst in
  let inst := fmt_operands ("0x" +++ fmt_x (branch_target inst)) inst in
  let inst := set_category INST_CATEGORY_BRANCH inst in
  let inst := set_is_valid true inst in
  set_updates_pc true inst.

Definition arm64_cbz (bytes address : Z) (inst : DisassembledInstruction) :=
  let is_cbnz := ((bytes >> 24) .& 0x1) =? 1 in
  let is_64bit := ((bytes >> 31) .& 0x1) =? 1 in
  let rt := bytes .& 0x1F in
  let imm19 := (bytes >> 5) .& 0x7FFFF in
  let imm19 := if negb (imm19 .& 0x40000 =? 0)
               then to_int32 (imm19 .| 0xFFF80000) else imm19 in
  let offset := imm19 * 4 in
  let inst := set_mnemonic (if is_cbnz then "CBNZ" else "CBZ") inst in
  let inst := set_branch_target (to_uint64 (address + offset)) inst in
  let inst := set_branch_offset offset inst in
  let inst := set_has_branch_target true inst in
  let inst := set_has_branch true inst in
  let inst := set_branch_type BRANCH_CONDITIONAL inst in
  let inst := fmt_operands (arm64_register_name rt is_64bit +++ ", 0x" +++
                            fmt_x (branch_target inst)) inst in
  let inst := set_category INST_CATEGORY_BRANCH inst in
  let inst := set_is_valid true inst in
  let inst := set_updates_pc true inst in
  or_regs_read (1 << rt) inst.

Definition arm64_tbz (bytes address : Z) (inst : DisassembledInstruction) :=
  let is_tbnz := ((bytes >> 24) .& 0x1) =? 1 in
  let is_64bit_op := ((bytes >> 31) .& 0x1) =? 1 in
  let rt := bytes .& 0x1F in
  let bit_pos := ((bytes >> 19) .& 0x1F) .| (((bytes >> 31) .& 0x1) << 5) in
  let imm14 := (bytes >> 5) .& 0x3FFF in
  let imm14 := if negb (imm14 .& 0x2000 =? 0)
               then to_int16 (imm14 .| 0xC000) else imm14 in
  let offset := imm14 * 4 in
  let inst := set_mnemonic (if is_tbnz then "TBNZ" else "TBZ") inst in
  let inst := set_branch_target (to_uint64 (address + offset)) inst in
  let inst := set_branch_offset offset inst in
  let inst := set_has_branch_target true inst in
  let inst := set_has_branch true inst in
  let inst := set_branch_type BRANCH_CONDITIONAL inst in
  let inst := fmt_operands (arm64_register_name rt is_64bit_op +++ ", #" +++
                            fmt_u bit_pos +++ ", 0x" +++
                            fmt_x (branch_target inst)) inst in
  let inst := set_category INST_CATEGORY_BRANCH inst in
  let inst := set_is_valid true inst in
  set_updates_pc true inst.

Definition arm64_branch_group (bytes address : Z) (inst : DisassembledInstruction) :=
  if ((bytes >> 24) .& 0xFF) =? 0x54 then arm64_b_cond bytes address inst
  else if (((bytes >> 24) .& 0x7F) =? 0x34) || (((bytes >> 24) .& 0x7F) =? 0x35)
  then arm64_cbz bytes address inst
  else if (((bytes >> 24) .& 0x7F) =? 0x36) || (((bytes >> 24) .& 0x7F) =? 0x37)
  then arm64_tbz bytes address inst
  else inst.

(** The group entered on [(op0 & 0xB) == 0x8]: LDR/STR unsigned offset,
    LDUR/STUR, LDR literal. *)
Definition arm64_load_store_group (bytes address : Z) (inst : DisassembledInstruction) :=
  let size := (bytes >> 30) .& 0x3 in
  if ((bytes >> 24) =? 0xB9) || ((bytes >> 24) =? 0xF9) ||
     ((bytes >> 24) =? 0x39) || ((bytes >> 24) =? 0x79) then
    let is_load := ((bytes >> 22) .& 0x1) =? 1 in
    let is_64bit := size =? 0x3 in
    let rt := bytes .& 0x1F in
    let rn := (bytes >> 5) .& 0x1F in
    let imm12 := (bytes >> 10) .& 0xFFF in
    let offset := to_uint32 (imm12 << size) in
    let inst := set_mnemonic (if is_load then "LDR" else "STR") inst in
    let inst := fmt_operands (arm64_register_name rt is_64bit +++ ", [" +++
                              arm64_register_name rn true +++ ", #" +++
                              fmt_u offset +++ "]") inst in
    let inst := set_category INST_CATEGORY_LOAD_STORE inst in
    set_is_valid true inst
  else if (((bytes >> 21) .& 0x7FF) =? 0x1C0) || (((bytes >> 21) .& 0x7FF) =? 0x1C1) ||
          (((bytes >> 21) .& 0x7FF) =? 0x3C0) || (((bytes >> 21) .& 0x7FF) =? 0x3C1) then
    let is_load := ((bytes >> 22) .& 0x1) =? 1 in
    let is_64bit := 0x2 <=? size in
    let rt := bytes .& 0x1F in
    let rn := (bytes >> 5) .& 0x1F in
    let imm9 := (bytes >> 12) .& 0x1FF in
    let imm9 := if negb (imm9 .& 0x100 =? 0) then to_int16 (imm9 .| 0xFE00) else imm9 in
    let inst := set_mnemonic (if is_load then "LDUR" else "STUR") inst in
    let inst := fmt_operands (arm64_register_name rt is_64bit +++ ", [" +++
                              arm64_register_name rn true +++ ", #" +++
                              fmt_d imm9 +++ "]") inst in
    let inst := set_category INST_CATEGORY_LOAD_STORE inst in
    set_is_valid true inst
  else if ((bytes >> 24) =? 0x18) || ((bytes >> 24) =? 0x58) ||
          ((bytes >> 24) =? 0x98) || ((bytes >> 24) =? 0xD8) then
    let rt := bytes .& 0x1F in
    let imm19 := (bytes >> 5) .& 0x7FFFF in
    let imm19 := if negb (imm19 .& 0x40000 =? 0)
                 then to_int32 (imm19 .| 0xFFF80000) else imm19 in
    let offset := imm19 * 4 in
    let target := to_uint64 (address + offset) in
    let inst := set_mnemonic "LDR" inst in
    let inst := fmt_operands (arm64_register_name rt true +++ ", 0x" +++ fmt_x target) inst in
    let inst := set_category INST_CATEGORY_LOAD_STORE inst in
    let inst := set_is_valid true inst in
    or_regs_written (1 << rt) inst
  else inst.

Definition shift_name (shift_type : Z) : string :=
  if shift_type =? 0 then "LSL"
  else if shift_type =? 1 then "LSR"
  else if shift_type =? 2 then "ASR"
  else "ROR".

(** The second group written under [(op0 & 0xE) == 0xA]: logical
    shifted-register, bitfield, three-source. *)
Definition arm64_logical (bytes : Z) (inst : DisassembledInstruction) :=
  let opc := (bytes >> 29) .& 0x3 in
  let is_64bit := ((bytes >> 31) .& 0x1) =? 1 in
  let rd := bytes .& 0x1F in
  let rn := (bytes >> 5) .& 0x1F in
  let rm := (bytes >> 16) .& 0x1F in
  let N := ((bytes >> 21) .& 0x1) =? 1 in
  let inst := set_mnemonic (if opc =? 0 then (if N then "BIC" else "AND")
                            else if opc =? 1 then (if N then "ORN" else "ORR")
                            else if opc =? 2 then (if N then "EON" else "EOR")
                            else (if N then "BICS" else "ANDS")) inst in
  let imm6 := (bytes >> 10) .& 0x3F in
  let shift_type := (bytes >> 22) .& 0x3 in
  let inst :=
    if negb N && (opc =? 1) && (rn =? 31) then
      let inst := set_mnemonic "MOV" inst in
      let inst := fmt_operands (arm64_register_name rd is_64bit +++ ", " +++
                                arm64_register_name rm is_64bit) inst in
      let inst := or_regs_read (1 << rm) inst in
      or_regs_written (1 << rd) inst
    else
      let inst :=
        if negb (imm6 =? 0) then
          fmt_operands (arm64_register_name rd is_64bit +++ ", " +++
                        arm64_register_name rn is_64bit +++ ", " +++
                        arm64_register_name rm is_64bit +++ ", " +++
                        shift_name shift_type +++ " #" +++ fmt_u imm6) inst
        else
          fmt_operands (arm64_register_name rd is_64bit +++ ", " +++
                        arm64_register_name rn is_64bit +++ ", " +++
                        arm64_register_name rm is_64bit) inst in
      let inst := or_regs_read ((1 << rn) .| (1 << rm)) inst in
      let inst := or_regs_written (1 << rd) inst in
      if ((bytes >> 20) .& 0x1) =? 1 then set_flags_written 0xF inst else inst in
  let inst := set_category INST_CATEGORY_DATA_PROCESSING inst in
  set_is_valid true inst.

Definition arm64_bitfield (bytes : Z) (inst : DisassembledInstruction) :=
  let is_64bit := ((bytes >> 31) .& 0x1) =? 1 in
  let opc := (bytes >> 29) .& 0x3 in
  let rd := bytes .& 0x1F in
  let rn := (bytes >> 5) .& 0x1F in
  let immr := (bytes >> 16) .& 0x3F in
  let imms := (bytes >> 10) .& 0x3F in
  let inst := set_mnemonic (if (opc =? 0x0) && negb is_64bit then "BFM"
                            else if (opc =? 0x1) && is_64bit then "SBFM"
                            else if (opc =? 0x2) && is_64bit then "UBFM"
                            else "BFM") inst in
  let inst := fmt_operands (arm64_register_name rd is_64bit +++ ", " +++
                            arm64_register_name rn is_64bit +++ ", #" +++
                            fmt_u immr +++ ", #" +++ fmt_u imms) inst in
  let inst := set_category INST_CATEGORY_DATA_PROCESSING inst in
  set_is_valid true inst.

Definition arm64_three_source (bytes : Z) (inst : DisassembledInstruction) :=
  let is_64bit := ((bytes >> 31) .& 0x1) =? 1 in
  let rd := bytes .& 0x1F in
  let rn := (bytes >> 5) .& 0x1F in
  let rm := (bytes >> 16) .& 0x1F in
  let ra := (bytes >> 10) .& 0x1F in
  let op := (bytes >> 21) .& 0x7 in
  let inst := set_mnemonic (if op =? 0x0 then "MADD"
                            else if op =? 0x1 then "MSUB"
                            else if op =? 0x2 then "SMULL"
                            else if op =? 0x3 then "SMULH"
                            else if op =? 0x2 then "UDIV"
                            else if op =? 0x3 then "SDIV"
                            else "MUL") inst in
  let inst :=
    if (ra =? 31) && (op =? 0x0) then
      let inst := set_mnemonic "MUL" inst in
      fmt_operands (arm64_register_name rd is_64bit +++ ", " +++
                    arm64_register_name rn is_64bit +++ ", " +++
                    arm64_register_name rm is_64bit) inst
    else
      fmt_operands (arm64_register_name rd is_64bit +++ ", " +++
                    arm64_register_name rn is_64bit +++ ", " +++
                    arm64_register_name rm is_64bit +++ ", " +++
                    arm64_register_name ra is_64bit) inst in
  let inst := set_category INST_CATEGORY_DATA_PROCESSING inst in
  set_is_valid true inst.

Definition arm64_dp_reg_group (bytes : Z) (inst : DisassembledInstruction) :=
  if (0x0 <=? ((bytes >> 21) .& 0xFF)) && (((bytes >> 21) .& 0xFF) <=? 0x77)
  then arm64_logical bytes inst
  else if (0x340 <=? ((bytes >> 22) .& 0x3FF)) && (((bytes >> 22) .& 0x3FF) <=? 0x34F)
  then arm64_bitfield bytes inst
  else if (0x1B <=? ((bytes >> 21) .& 0xFF)) && (((bytes >> 21) .& 0xFF) <=? 0x1F)
  then arm64_three_source bytes inst
  else inst.

(** CMP / CMN, immediate and register. *)
Definition arm64_cmp_cmn (bytes : Z) (inst : DisassembledInstruction) :=
  let is_64bit := ((bytes >> 31) .& 0x1) =? 1 in
  let rn := (bytes >> 5) .& 0x1F in
  if (((bytes >> 24) .& 0xFF) =? 0xF1) || (((bytes >> 24) .& 0xFF) =? 0x71) then
    let is_sub := ((bytes >> 30) .& 0x1) =? 1 in
    let imm12 := (bytes >> 10) .& 0xFFF in
    let inst := set_mnemonic (if is_sub then "CMP" else "CMN") inst in
    let inst := fmt_operands (arm64_register_name rn is_64bit +++ ", #" +++
                              fmt_u imm12) inst in
    let inst := set_category INST_CATEGORY_DATA_PROCESSING inst in
    let inst := set_is_valid true inst in
    let inst := or_regs_read (1 << rn) inst in
    set_flags_written 0xF inst
  else if (((bytes >> 24) .& 0xFF) =? 0xEB) || (((bytes >> 24) .& 0xFF) =? 0x6B) then
    let is_sub := ((bytes >> 30) .& 0x1) =? 1 in
    let rm := (bytes >> 16) .& 0x1F in
    let inst := set_mnemonic (if is_sub then "CMP" else "CMN") inst in
    let inst := fmt_operands (arm64_register_name rn is_64bit +++ ", " +++
                              arm64_register_name rm is_64bit) inst in
    let inst := set_category INST_CATEGORY_DATA_PROCESSING inst in
    let inst := set_is_valid true inst in
    let inst := or_regs_read ((1 << rn) .| (1 << rm)) inst in
    set_flags_written 0xF inst
  else inst.

(** LSL / LSR / ASR / ROR. *)
Definition arm64_shift (bytes : Z) (inst : DisassembledInstruction) :=
  let is_64bit := ((bytes >> 31) .& 0x1) =? 1 in
  let rd := bytes .& 0x1F in
  let rn := (bytes >> 5) .& 0x1F in
  let rm := (bytes >> 16) .& 0x1F in
  let shift_type := (bytes >> 22) .& 0x3 in
  let imm6 := (bytes >> 10) .& 0x3F in
  let inst :=
    if negb (imm6 =? 0) then
      let inst := set_mnemonic (shift_name shift_type) inst in
      fmt_operands (arm64_register_name rd is_64bit +++ ", " +++
                    arm64_register_name rn is_64bit +++ ", #" +++
                    fmt_u imm6) inst
    else
      let inst := set_mnemonic (shift_name shift_type) inst in
      fmt_operands (arm64_register_name rd is_64bit +++ ", " +++
                    arm64_register_name rn is_64bit +++ ", " +++
                    arm64_register_name rm is_64bit) inst in
  let inst := set_category INST_CATEGORY_DATA_PROCESSING inst in
  set_is_valid true inst.

(** CCMP. *)
Definition arm64_ccmp (bytes : Z) (inst : DisassembledInstruction) :=
  let is_64bit := ((bytes >> 31) .& 0x1) =? 1 in
  let rn := (bytes >> 5) .& 0x1F in
  let rm := (bytes >> 16) .& 0x1F in
  let nzcv := bytes .& 0xF in
  let cond := (bytes >> 12) .& 0xF in
  let inst := set_mnemonic "CCMP" inst in
  let inst := fmt_operands (arm64_register_name rn is_64bit +++ ", " +++
                            arm64_register_name rm is_64bit +++ ", #" +++
                            fmt_u nzcv +++ ", " +++
                            arm64_condition_string cond) inst in
  let inst := set_category INST_CATEGORY_DATA_PROCESSING inst in
  let inst := set_is_valid true inst in
  let inst := or_regs_read ((1 << rn) .| (1 << rm)) inst in
  set_flags_written 0xF inst.

(** NOP, hints, barriers, MRS / MSR. *)
Definition arm64_nop (inst : DisassembledInstruction) :=
  let inst := set_mnemonic "NOP" inst in
  let inst := set_operands "" inst in
  let inst := set_category INST_CATEGORY_SYSTEM inst in
  set_is_valid true inst.

Definition arm64_hint (bytes : Z) (inst : DisassembledInstruction) :=
  let crm := (bytes >> 8) .& 0xF in
  let op2 := (bytes >> 5) .& 0x7 in
  let inst := set_mnemonic (if (crm =? 0x0) && (op2 =? 0x1) then "YIELD"
                            else if (crm =? 0x0) && (op2 =? 0x2) then "WFE"
                            else if (crm =? 0x0) && (op2 =? 0x3) then "WFI"
                            else if (crm =? 0x0) && (op2 =? 0x4) then "SEV"
                            else if (crm =? 0x0) && (op2 =? 0x5) then "SEVL"
                            else "HINT") inst in
  let inst := set_operands "" inst in
  let inst := set_category INST_CATEGORY_SYSTEM inst in
  set_is_valid true inst.

Definition arm64_barrier (bytes : Z) (inst : DisassembledInstruction) :=
  let crm := (bytes >> 8) .& 0xF in
  let op2 := (bytes >> 5) .& 0x7 in
  let inst := set_mnemonic (if op2 =? 0x4 then "DSB"
                            else if op2 =? 0x5 then "DMB"
                            else if op2 =? 0x6 then "ISB"
                            else "BARRIER") inst in
  let inst := fmt_operands ("#" +++ fmt_u crm) inst in
  let inst := set_category INST_CATEGORY_SYSTEM inst in
  set_is_valid true inst.

Definition sysreg_name (sysreg : Z) : string :=
  "S" +++ fmt_u ((sysreg >> 14) .& 0x3) +++ "_" +++
  fmt_u ((sysreg >> 11) .& 0x7) +++ "_c" +++
  fmt_u ((sysreg >> 7) .& 0xF) +++ "_c" +++
  fmt_u ((sysreg >> 3) .& 0xF) +++ "_" +++
  fmt_u (sysreg .& 0x7).

Definition arm64_mrs_msr (bytes : Z) (inst : DisassembledInstruction) :=
  let is_read := ((bytes >> 21) .& 0x1) =? 1 in
  let rt := bytes .& 0x1F in
  let sysreg := (bytes >> 5) .& 0xFFFF in
  let inst :=
    if is_read then
      let inst := set_mnemonic "MRS" inst in
      fmt_operands (arm64_register_name rt true +++ ", " +++ sysreg_name sysreg) inst
    else
      let inst := set_mnemonic "MSR" inst in
      fmt_operands (sysreg_name sysreg +++ ", " +++ arm64_register_name rt true) inst in
  let inst := set_category INST_CATEGORY_SYSTEM inst in
  set_is_valid true inst.

(** The first cascade of [disasm_arm64], in the order of the source. *)
Definition arm64_decode (bytes address : Z) (inst : DisassembledInstruction)
  : DisassembledInstruction :=
  let op0 := (bytes >> 25) .& 0xF in
  if (((bytes >> 26) .& 0x3F) =? 0x5) || (((bytes >> 26) .& 0x3F) =? 0x25)
  then arm64_b_bl bytes address inst
  else if ((bytes .& 0x9F000000) =? 0x10000000) || ((bytes .& 0x9F000000) =? 0x90000000)
  then arm64_adr_adrp bytes address inst
  else if (0x6B0 <=? ((bytes >> 21) .& 0x7FF)) && (((bytes >> 21) .& 0x7FF) <=? 0x6B3)
  then arm64_branch_reg bytes inst
  else if (0x290 <=? ((bytes >> 22) .& 0x3FF)) && (((bytes >> 22) .& 0x3FF) <=? 0x2BF)
  then arm64_ldp_stp bytes inst
  else if (op0 .& 0x8) =? 0x8 then arm64_dp_imm_group bytes inst
  else if (op0 .& 0xE) =? 0xA then arm64_branch_group bytes address inst
  else if (op0 .& 0xB) =? 0x8 then arm64_load_store_group bytes address inst
  else if (op0 .& 0xE) =? 0xA then arm64_dp_reg_group bytes inst
  else if (((bytes >> 24) .& 0xFF) =? 0xF1) || (((bytes >> 24) .& 0xFF) =? 0x71) ||
          (((bytes >> 24) .& 0xFF) =? 0xEB) || (((bytes >> 24) .& 0xFF) =? 0x6B)
  then arm64_cmp_cmn bytes inst
  else if (0x69A <=? ((bytes >> 21) .& 0x7FF)) && (((bytes >> 21) .& 0x7FF) <=? 0x69F)
  then arm64_shift bytes inst
  else if (0x3A2 <=? ((bytes >> 21) .& 0x7FF)) && (((bytes >> 21) .& 0x7FF) <=? 0x3A3)
  then arm64_ccmp bytes inst
  else if bytes =? 0xD503201F then arm64_nop inst
  else if (bytes >> 12) =? 0xD503301 then arm64_hint bytes inst
  else if (bytes >> 12) =? 0xD503309 then arm64_barrier bytes inst
  else if (bytes >> 21) =? 0x6A1 then arm64_mrs_msr bytes inst
  else inst.

(** The second cascade, entered when no branch above produced text.  The
    FMOV case leaves the function at once: the second component tells
    whether [disasm_arm64] has returned. *)
Definition arm64_decode_generic (bytes : Z) (inst : DisassembledInstruction)
  : DisassembledInstruction * bool :=
  let op0 := (bytes >> 25) .& 0xF in
  if ((op0 .& 0xB) =? 0x8) || ((op0 .& 0xB) =? 0x9) then
    let is_load := ((bytes >> 22) .& 0x1) =? 1 in
    let rt := bytes .& 0x1F in
    let rn := (bytes >> 5) .& 0x1F in
    let size := (bytes >> 30) .& 0x3 in
    let is_64bit := 0x2 <=? size in
    let inst := set_mnemonic (if is_load then "LDR" else "STR") inst in
    let inst := fmt_operands (arm64_register_name rt is_64bit +++ ", [" +++
                              arm64_register_name rn true +++ ", ...]") inst in
    let inst := set_category INST_CATEGORY_LOAD_STORE inst in
    (set_is_valid true inst, false)
  else if op0 =? 0xB then
    let rd := bytes .& 0x1F in
    let rn := (bytes >> 5) .& 0x1F in
    let rm := (bytes >> 16) .& 0x1F in
    let is_64bit := ((bytes >> 31) .& 0x1) =? 1 in
    let inst := set_mnemonic "DP3SRC" inst in
    let inst := fmt_operands (arm64_register_name rd is_64bit +++ ", " +++
                              arm64_register_name rn is_64bit +++ ", " +++
                              arm64_register_name rm is_64bit +++ ", ...") inst in
    let inst := set_category INST_CATEGORY_DATA_PROCESSING inst in
    (set_is_valid true inst, false)
  else if ((op0 .& 0x7) =? 0x7) || ((op0 .& 0xE) =? 0xE) then
    if ((bytes >> 21) .& 0x7FF) =? 0x3C0 then
      let rd := bytes .& 0x1F in
      let rn := (bytes >> 5) .& 0x1F in
      let inst := set_mnemonic "FMOV" inst in
      let inst := fmt_operands ("D" +++ fmt_u rd +++ ", D" +++ fmt_u rn) inst in
      let inst := set_category INST_CATEGORY_SIMD inst in
      (set_is_valid true inst, true)
    else
      let inst := set_mnemonic "SIMD" inst in
      let inst := fmt_operands "..." inst in
      let inst := set_category INST_CATEGORY_SIMD inst in
      (set_is_valid true inst, false)
  else if (op0 .& 0xE) =? 0xA then
    let rd := bytes .& 0x1F in
    let rn := (bytes >> 5) .& 0x1F in
    let is_64bit := ((bytes >> 31) .& 0x1) =? 1 in
    let inst := set_mnemonic "DPREG" inst in
    let inst := fmt_operands (arm64_register_name rd is_64bit +++ ", " +++
                              arm64_register_name rn is_64bit +++ ", ...") inst in
    let inst := set_category INST_CATEGORY_DATA_PROCESSING inst in
    (set_is_valid true inst, false)
  else if op0 =? 0xD then
    let inst := set_mnemonic "SYS" inst in
    let inst := fmt_operands "..." inst in
    let inst := set_category INST_CATEGORY_SYSTEM inst in
    (set_is_valid true inst, false)
  else (inst, false).

(** Post-processing of ["ORR"]: the operand between the first two commas,
    trimmed of blanks, decides the rewriting to ["MOV"]. *)
Definition is_blank (c : ascii) : bool :=
  Ascii.eqb c " "%char || Ascii.eqb c "009"%char.

Fixpoint skip_blanks (s : string) : string :=
  match s with
  | EmptyString => EmptyString
  | String c rest => if is_blank c then skip_blanks rest else s
  end.

Fixpoint drop_trailing_blanks (s : string) : string :=
  match s with
  | EmptyString => EmptyString
  | String c rest =>
      match drop_trailing_blanks rest with
      | EmptyString => if is_blank c then EmptyString else String c EmptyString
      | rest' => String c rest'
      end
  end.

(** [strcspn(s, "\n\r")]. *)
Fixpoint strcspn_eol (s : string) : nat :=
  match s with
  | EmptyString => O
  | String c rest =>
      if Ascii.eqb c "010"%char || Ascii.eqb c "013"%char then O
      else S (strcspn_eol rest)
  end.

Definition arm64_orr_alias (inst : DisassembledInstruction) : DisassembledInstruction :=
  if is_valid inst && streq (mnemonic inst) "ORR" then
    match strchr (operands inst) ","%char with
    | None => inst
    | Some first_comma =>
        match strchr (str_from (S first_comma) (operands inst)) ","%char with
        | None => inst
        | Some len =>
            let second_comma := (S first_comma + len)%nat in
            if Nat.ltb len 32 then
              let mid := drop_trailing_blanks
                           (skip_blanks (String.substring (S first_comma) len (operands inst))) in
              if streq mid "SP" || streq mid "WSP" || streq mid "XZR" || streq mid "WZR" then
                let rd_len := if Nat.leb 16 first_comma then 15%nat else first_comma in
                let rd := String.substring 0 rd_len (operands inst) in
                let rm_src := skip_blanks (str_from (S second_comma) (operands inst)) in
                let rm_len := strcspn_eol rm_src in
                let rm_len := if Nat.leb 16 rm_len then 15%nat else rm_len in
                let rm := String.substring 0 rm_len rm_src in
                let inst := set_mnemonic "MOV" inst in
                let inst := fmt_operands (rd +++ ", " +++ rm) inst in
                set_category INST_CATEGORY_DATA_PROCESSING inst
              else inst
            else inst
        end
    end
  else inst.

(** [".word 0xXXXXXXXX"] for a word nothing above recognised. *)
Definition arm64_word_fallback (bytes : Z) (inst : DisassembledInstruction) :=
  if negb (is_valid inst) then
    let inst := set_mnemonic ".word" inst in
    let inst := fmt_operands ("0x" +++ fmt_0X 8 bytes) inst in
    let inst := set_category INST_CATEGORY_UNKNOWN inst in
    set_is_valid true inst
  else inst.

(** [snprintf(inst->full_disasm, ..., "0x%llx: %s %s", ...)]. *)
Definition fmt_full_disasm (inst : DisassembledInstruction) :=
  set_full_disasm
    (snprintf FULL_DISASM_SIZE
       ("0x" +++ fmt_x (address inst) +++ ": " +++
        mnemonic inst +++ " " +++ operands inst)) inst.

(** The record on entry to the first cascade. *)
Definition arm64_entry (bytes address : Z) : DisassembledInstruction :=
  let inst := zeroed in
  let inst := set_address address inst in
  let inst := set_raw_bytes bytes inst in
  let inst := set_length 4 inst in
  set_is_valid false inst.

(** The record as the two cascades leave it, before the post-processing;
    the flag tells whether the function returned from the FMOV case. *)
Definition arm64_cascades (bytes address : Z) : DisassembledInstruction * bool :=
  let inst := arm64_entry bytes address in
  let inst := arm64_decode bytes address inst in
  if negb (is_valid inst) then arm64_decode_generic bytes inst else (inst, false).

(** The tail of [disasm_arm64]: the [".word"] fallback, the listing line
    and the two heuristics. *)
Definition arm64_finish (ctx : option DisassemblyContext) (bytes : Z)
           (inst : DisassembledInstruction) : DisassembledInstruction :=
  let inst := arm64_word_fallback bytes inst in
  let inst := fmt_full_disasm inst in
  let inst := set_is_function_start (arm64_is_prologue ctx inst) inst in
  set_is_function_end (arm64_is_epilogue ctx inst) inst.

(** [disasm_arm64]: the record written through [inst]; the C function
    returns its [is_valid]. *)
Definition disasm_arm64 (ctx : option DisassemblyContext) (bytes address : Z)
  : DisassembledInstruction :=
  let '(inst, returned) := arm64_cascades bytes address in
  if returned then inst
  else arm64_finish ctx bytes (arm64_orr_alias inst).

Definition disasm_arm64_result (ctx : option DisassemblyContext) (bytes address : Z) : bool :=
  is_valid (disasm_arm64 ctx bytes address).

(** ** DisassemblyEngine.c: the x86-64 decoder *)

(** [bytes[i]] on the code buffer.  The C function receives a bare
    pointer; a read past the bytes at hand is outside the model and
    yields zero here. *)
Definition byte_at (bytes : list byte) (i : Z) : Z :=
  Z.of_N (Byte.to_N (nth (Z.to_nat i) bytes x00)).

(** [*(uint16_t* )&bytes[i]], [*(int32_t* )&bytes[i]], little-endian. *)
Definition read_uint16 (bytes : list byte) (i : Z) : Z :=
  byte_at bytes i .| (byte_at bytes (i + 1) << 8).
Definition read_uint32 (bytes : list byte) (i : Z) : Z :=
  byte_at bytes i .| (byte_at bytes (i + 1) << 8) .|
  (byte_at bytes (i + 2) << 16) .| (byte_at bytes (i + 3) << 24).
Definition read_int32 (bytes : list byte) (i : Z) : Z :=
  to_int32 (read_uint32 bytes i).

Definition regs64 : list string :=
  ["rax"; "rcx"; "rdx"; "rbx"; "rsp"; "rbp"; "rsi"; "rdi"].
Definition regs64_rex : list string :=
  ["r8"; "r9"; "r10"; "r11"; "r12"; "r13"; "r14"; "r15"].
Definition regs32 : list string :=
  ["eax"; "ecx"; "edx"; "ebx"; "esp"; "ebp"; "esi"; "edi"].
Definition jcc_short : list string :=
  ["JO"; "JNO"; "JB"; "JAE"; "JE"; "JNE"; "JBE"; "JA";
   "JS"; "JNS"; "JP"; "JNP"; "JL"; "JGE"; "JLE"; "JG"].
Definition jcc_near : list string :=
  ["JO"; "JNO"; "JB"; "JNB"; "JZ"; "JNZ"; "JBE"; "JNBE";
   "JS"; "JNS"; "JP"; "JNP"; "JL"; "JNL"; "JLE"; "JNLE"].
Definition setcc : list string :=
  ["SETO"; "SETNO"; "SETB"; "SETNB"; "SETZ"; "SETNZ"; "SETBE"; "SETNBE";
   "SETS"; "SETNS"; "SETP"; "SETNP"; "SETL"; "SETNL"; "SETLE"; "SETNLE"].

Definition table (names : list string) (i : Z) : string :=
  nth (Z.to_nat i) names "".

(** One-byte instructions without operands: mnemonic and category. *)
Definition x86_simple (name : string) (cat : InstructionCategory) (pos : Z)
           (inst : DisassembledInstruction) :=
  let inst := set_mnemonic name inst in
  let inst := set_category cat inst in
  let inst := set_is_valid true inst in
  set_length pos inst.

Definition x86_ret (name : string) (pos : Z) (inst : DisassembledInstruction) :=
  let inst := set_mnemonic name inst in
  let inst := set_has_branch true inst in
  let inst := set_branch_type BRANCH_RETURN inst in
  let inst := set_category INST_CATEGORY_BRANCH inst in
  let inst := set_is_valid true inst in
  let inst := set_is_function_end true inst in
  set_length pos inst.

(** JMP rel32 and CALL rel32: the target is taken from the end of the
    instruction; [branch_offset] is not assigned. *)
Definition x86_rel32 (name : string) (bt : BranchType) (bytes : list byte)
           (address pos : Z) (inst : DisassembledInstruction) :=
  let inst := set_mnemonic name inst in
  if pos + 4 <=? 15 then
    let offset := read_int32 bytes pos in
    let inst := set_branch_target (to_uint64 (address + pos + 4 + offset)) inst in
    let inst := set_has_branch_target true inst in
    let inst := set_has_branch true inst in
    let inst := fmt_operands ("0x" +++ fmt_x (branch_target inst)) inst in
    let inst := set_branch_type bt inst in
    let inst := set_category INST_CATEGORY_BRANCH inst in
    let inst := set_is_valid true inst in
    let inst := set_length (pos + 4) inst in
    set_updates_pc true inst
  else inst.

Definition x86_jmp_rel8 (bytes : list byte) (address pos : Z)
           (inst : DisassembledInstruction) :=
  let inst := set_mnemonic "JMP" inst in
  if pos <? 15 then
    let offset := to_int8 (byte_at bytes pos) in
    let inst := set_branch_target (to_uint64 (address + pos + 1 + offset)) inst in
    let inst := set_has_branch_target true inst in
    let inst := set_has_branch true inst in
    let inst := fmt_operands ("0x" +++ fmt_x (branch_target inst)) inst in
    let inst := set_branch_type BRANCH_UNCONDITIONAL inst in
    let inst := set_category INST_CATEGORY_BRANCH inst in
    let inst := set_is_valid true inst in
    let inst := set_length (pos + 1) inst in
    set_updates_pc true inst
  else inst.

(** Jcc rel8: the one x86-64 case that assigns [branch_offset]. *)
Definition x86_jcc_rel8 (bytes : list byte) (address pos opcode : Z)
           (inst : DisassembledInstruction) :=
  let inst := set_mnemonic (table jcc_short (opcode - 0x70)) inst in
  if pos <? 15 then
    let offset := to_int8 (byte_at bytes pos) in
    let inst := set_branch_target (to_uint64 (address + pos + 1 + offset)) inst in
    let inst := set_branch_offset offset inst in
    let inst := set_has_branch_target true inst in
    let inst := set_has_branch true inst in
    let inst := set_branch_type BRANCH_CONDITIONAL inst in
    let inst := fmt_operands ("0x" +++ fmt_x (branch_target inst)) inst in
    let inst := set_category INST_CATEGORY_BRANCH inst in
    let inst := set_is_valid true inst in
    let inst := set_length (pos + 1) inst in
    set_updates_pc true inst
  else inst.

Definition x86_push_pop (name : string) (is_pop : bool) (reg_idx : Z)
           (has_rex : bool) (rex pos : Z) (inst : DisassembledInstruction) :=
  let inst := set_mnemonic name inst in
  let inst :=
    if has_rex && negb (rex .& 0x01 =? 0)
    then fmt_operands (table regs64_rex reg_idx) inst
    else fmt_operands (table regs64 reg_idx) inst in
  let inst := set_category INST_CATEGORY_DATA_PROCESSING inst in
  let inst := set_is_valid true inst in
  let inst := set_length pos inst in
  if is_pop then or_regs_written (1 << reg_idx) inst
  else or_regs_read (1 << reg_idx) inst.

(** The two-byte opcodes [0F xx]; [opcode2] is read at index 1. *)
Definition x86_two_byte (bytes : list byte) (address : Z)
           (inst : DisassembledInstruction) :=
  let opcode2 := byte_at bytes 1 in
  let inst := set_length 2 inst in
  if (0x80 <=? opcode2) && (opcode2 <=? 0x8F) then
    let inst := set_mnemonic (table jcc_near (opcode2 - 0x80)) inst in
    let offset := read_int32 bytes 2 in
    let inst := set_branch_target (to_uint64 (address + 6 + offset)) inst in
    let inst := set_has_branch_target true inst in
    let inst := set_has_branch true inst in
    let inst := fmt_operands ("0x" +++ fmt_x (branch_target inst)) inst in
    let inst := set_branch_type BRANCH_CONDITIONAL inst in
    let inst := set_category INST_CATEGORY_BRANCH inst in
    let inst := set_is_valid true inst in
    set_length 6 inst
  else if (0x90 <=? opcode2) && (opcode2 <=? 0x9F) then
    let inst := set_mnemonic (table setcc (opcode2 - 0x90)) inst in
    let inst := set_operands "r/m8" inst in
    let inst := set_length 3 inst in
    let inst := set_category INST_CATEGORY_DATA_PROCESSING inst in
    set_is_valid true inst
  else if opcode2 =? 0x0B then
    let inst := set_mnemonic "UD2" inst in
    let inst := set_category INST_CATEGORY_SYSTEM inst in
    let inst := set_is_valid true inst in
    set_length 2 inst
  else
    let inst := set_mnemonic (snprintf MNEMONIC_SIZE ".byte") inst in
    let inst := fmt_operands ("0x0F 0x" +++ fmt_0X 2 opcode2) inst in
    let inst := set_is_valid true inst in
    set_length 2 inst.

Definition x86_decode (bytes : list byte) (address : Z) (has_rex : bool)
           (rex opcode pos : Z) (inst : DisassembledInstruction) :=
  if opcode =? 0xC3 then x86_ret "RET" pos inst
  else if opcode =? 0xCB then x86_ret "RETF" pos inst
  else if opcode =? 0xC2 then
    let inst := set_mnemonic "RET" inst in
    let inst :=
      if pos + 2 <=? 15 then
        let imm := read_uint16 bytes pos in
        let inst := fmt_operands ("0x" +++ fmt_x imm) inst in
        set_length (pos + 2) inst
      else inst in
    let inst := set_has_branch true inst in
    let inst := set_branch_type BRANCH_RETURN inst in
    let inst := set_category INST_CATEGORY_BRANCH inst in
    let inst := set_is_valid true inst in
    set_is_function_end true inst
  else if opcode =? 0x90 then x86_simple "NOP" INST_CATEGORY_DATA_PROCESSING pos inst
  else if opcode =? 0xCC then x86_simple "INT3" INST_CATEGORY_SYSTEM pos inst
  else if opcode =? 0xF4 then x86_simple "HLT" INST_CATEGORY_SYSTEM pos inst
  else if opcode =? 0xC9 then x86_simple "LEAVE" INST_CATEGORY_DATA_PROCESSING pos inst
  else if opcode =? 0x9C
  then x86_simple (if has_rex then "PUSHFQ" else "PUSHF") INST_CATEGORY_DATA_PROCESSING pos inst
  else if opcode =? 0x9D
  then x86_simple (if has_rex then "POPFQ" else "POPF") INST_CATEGORY_DATA_PROCESSING pos inst
  else if opcode =? 0x99
  then x86_simple (if has_rex then "CQO" else "CDQ") INST_CATEGORY_DATA_PROCESSING pos inst
  else if opcode =? 0xF5 then x86_simple "CMC" INST_CATEGORY_DATA_PROCESSING pos inst
  else if opcode =? 0xF8 then x86_simple "CLC" INST_CATEGORY_DATA_PROCESSING pos inst
  else if opcode =? 0xF9 then x86_simple "STC" INST_CATEGORY_DATA_PROCESSING pos inst
  else if (0x50 <=? opcode) && (opcode <=? 0x57)
  then x86_push_pop "PUSH" false (opcode - 0x50) has_rex rex pos inst
  else if (0x58 <=? opcode) && (opcode <=? 0x5F)
  then x86_push_pop "POP" true (opcode - 0x58) has_rex rex pos inst
  else if opcode =? 0xE9 then x86_rel32 "JMP" BRANCH_UNCONDITIONAL bytes address pos inst
  else if opcode =? 0xEB then x86_jmp_rel8 bytes address pos inst
  else if opcode =? 0xE8 then x86_rel32 "CALL" BRANCH_CALL bytes address pos inst
  else if (0x70 <=? opcode) && (opcode <=? 0x7F)
  then x86_jcc_rel8 bytes address pos opcode inst
  else if (opcode =? 0x0F) && (inst_length inst <? 15)
  then x86_two_byte bytes address inst
  else if (0xB8 <=? opcode) && (opcode <=? 0xBF) then
    let inst := set_mnemonic "MOV" inst in
    let imm := read_uint32 bytes 1 in
    let inst := fmt_operands (table regs32 (opcode - 0xB8) +++ ", 0x" +++ fmt_0X 8 imm) inst in
    let inst := set_category INST_CATEGORY_DATA_PROCESSING inst in
    let inst := set_is_valid true inst in
    set_length 5 inst
  else if opcode =? 0xCD then
    let inst := set_mnemonic "INT" inst in
    let inst := fmt_operands ("0x" +++ fmt_0X 2 (byte_at bytes 1)) inst in
    let inst := set_category INST_CATEGORY_SYSTEM inst in
    let inst := set_is_valid true inst in
    set_length 2 inst
  else if opcode =? 0xC9 then
    let inst := set_mnemonic "LEAVE" inst in
    let inst := set_category INST_CATEGORY_DATA_PROCESSING inst in
    let inst := set_is_valid true inst in
    set_length 1 inst
  else
    let inst := set_mnemonic ".byte" inst in
    let inst := fmt_operands ("0x" +++ fmt_0X 2 opcode) inst in
    let inst := set_is_valid true inst in
    set_length 1 inst.

(** [disasm_x86_64]: the record written through [inst]. *)
Definition disasm_x86_64 (bytes : list byte) (address : Z) : DisassembledInstruction :=
  let inst := zeroed in
  let inst := set_address address inst in
  let inst := set_is_valid false inst in
  let inst := set_length 1 inst in
  let pos := 0 in
  let has_rex := (0x40 <=? byte_at bytes pos) && (byte_at bytes pos <=? 0x4F) in
  let rex := if has_rex then byte_at bytes pos else 0 in
  let pos := if has_rex then pos + 1 else pos in
  let opcode := byte_at bytes pos in
  let pos := pos + 1 in
  let inst := x86_decode bytes address has_rex rex opcode pos inst in
  fmt_full_disasm inst.

End Decoders.

(** ** Properties of records *)

(** The invariant of the data model: the target is the address plus the
    offset, in 64-bit arithmetic. *)
Definition branch_target_invariant (i : DisassembledInstruction) : Prop :=
  has_branch_target i = true -> branch_offset i <> 0 ->
  branch_target i = to_uint64 (address i + branch_offset i).

(** The base a record of [disasm_arm64] counts its offset from: ADRP
    counts from the 4 KiB page of the instruction. *)
Definition arm64_target_base (i : DisassembledInstruction) : Z :=
  if streq (mnemonic i) "ADRP" then address i .& 0xFFFFFFFFFFFFF000 else address i.

(** What every branch of the cascades that produces text establishes. *)
Definition decoded_record (addr : Z) (i : DisassembledInstruction) : Prop :=
  is_valid i = true /\
  mnemonic i <> "" /\
  streq (mnemonic i) "ORR" = false /\
  (mnemonic i = "BL" \/ mnemonic i = "BLR" -> Z.testbit (regs_written i) 30 = true) /\
  (mnemonic i = "RET" -> branch_type i = BRANCH_RETURN) /\
  (has_branch_target i = true ->
   branch_target i = to_uint64 (arm64_target_base i + branch_offset i)) /\
  address i = addr.

(** An instance of the header constants for concrete evaluation: flag
    bit 0, a 16-byte mnemonic, 64-byte operands, a 128-byte listing line,
    [INST_CATEGORY_UNKNOWN] and [BRANCH_NONE] as the zero enumerators. *)
Definition sample_arm64 : option DisassemblyContext -> Z -> Z -> DisassembledInstruction :=
  disasm_arm64 1 16 64 128 INST_CATEGORY_UNKNOWN BRANCH_NONE.

Definition sample_x86_64 : list byte -> Z -> DisassembledInstruction :=
  disasm_x86_64 16 64 128 INST_CATEGORY_UNKNOWN BRANCH_NONE.

Definition heuristics_on : option DisassemblyContext := Some (mkCtx 1).
Definition heuristics_off : option DisassemblyContext := Some (mkCtx 0).

End Disasm.

(** ** ClassDumpC.c: the runtime-surface model *)

Module ClassDump.

(** [class_dump_info_t], [category_dump_info_t], [protocol_dump_info_t];
    each [char **] array with its count is a list of strings. *)
Record class_dump_info_t : Type := mkClass {
  className : string;
  superclassName : string;
  protocols : list string;
  instanceMethods : list string;
  classMethods : list string;
  properties : list string;
  ivars : list string;
  isSwift : bool;
  isMetaClass : bool
}.

Record category_dump_info_t : Type := mkCategory {
  categoryName : string;
  cat_className : string;
  cat_protocols : list string;
  cat_instanceMethods : list string;
  cat_classMethods : list string;
  cat_properties : list string
}.

Record protocol_dump_info_t : Type := mkProtocol {
  protocolName : string;
  proto_protocols : list string;
  proto_methods : list string
}.

Record class_dump_result_t : Type := mkResult {
  classes : list class_dump_info_t;
  categories : list category_dump_info_t;
  result_protocols : list protocol_dump_info_t
}.

Definition empty_result : class_dump_result_t := mkResult [] [] [].

(** Pointers into the arrays are indices; an assignment through such a
    pointer rewrites the element in place. *)
Fixpoint find_index {A : Type} (p : A -> bool) (l : list A) : option nat :=
  match l with
  | [] => None
  | x :: rest =>
      if p x then Some O
      else match find_index p rest with
           | Some n => Some (S n)
           | None => None
           end
  end.

Fixpoint update_nth {A : Type} (n : nat) (f : A -> A) (l : list A) : list A :=
  match l, n with
  | [], _ => []
  | x :: rest, O => f x :: rest
  | x :: rest, S n' => x :: update_nth n' f rest
  end.

Definition class_dump_string_equals (a b : string) : bool := streq a b.

Definition class_dump_find_class (result : class_dump_result_t) (class_name : string)
  : option nat :=
  find_index (fun c => class_dump_string_equals (className c) class_name) (classes result).

Definition class_dump_find_category (result : class_dump_result_t)
           (class_name category_name : string) : option nat :=
  find_index (fun c => class_dump_string_equals (cat_className c) class_name &&
                       class_dump_string_equals (categoryName c) category_name)
             (categories result).

Definition class_dump_find_protocol (result : class_dump_result_t) (protocol_name : string)
  : option nat :=
  find_index (fun p => class_dump_string_equals (protocolName p) protocol_name)
             (result_protocols result).

Definition class_dump_add_unique_string (strings : list string) (value : string)
  : list string :=
  if existsb (fun s => class_dump_string_equals s value) strings then strings
  else strings ++ [value].

(** ** String extraction *)

Definition NUL : byte := x00.
Definition LF : byte := x0a.
Definition CR : byte := x0d.

Definition is_terminator (b : byte) : bool :=
  Byte.eqb b NUL || Byte.eqb b LF || Byte.eqb b CR.

(** The counting loop of [class_dump_safe_strndup]: [start] is the memory
    from the pointer on. *)
Fixpoint strndup_len (start : list byte) (max_len : nat) : nat :=
  match max_len, start with
  | S m, b :: rest => if is_terminator b then O else S (strndup_len rest m)
  | _, _ => O
  end.

Definition class_dump_safe_strndup (start : list byte) (max_len : nat) : option string :=
  if Nat.eqb max_len 0 then None
  else
    let len := strndup_len start max_len in
    if Nat.eqb len 0 then None
    else Some (string_of_list_byte (firstn len start)).

(** [class_dump_safe_strndup] on a C string and an offset into it. *)
Definition strndup_of_string (s : string) (off max_len : nat) : option string :=
  class_dump_safe_strndup (list_byte_of_string (str_from off s)) max_len.

Definition class_dump_split_category (raw : string) : option string * option string :=
  match String.index 0 "_$_" raw with
  | Some separator =>
      let class_len := separator in
      let category_len := String.length (str_from (separator + 3) raw) in
      (strndup_of_string raw 0 class_len,
       strndup_of_string raw (separator + 3) category_len)
  | None => (None, Some raw)
  end.

Definition class_dump_is_swift_class (name : string) : bool :=
  strstr name "_TtC" || strstr name "_Tt" || strstr name "Swift".

Definition class_dump_is_meta_class (name : string) : bool :=
  strstr name "_OBJC_METACLASS_$_".

(** ** Insertion *)

Definition add_class_to_result (result : class_dump_result_t) (name : string)
  : class_dump_result_t :=
  match class_dump_find_class result name with
  | Some _ => result
  | None =>
      let classInfo := mkClass name "NSObject" [] [] [] [] []
                               (class_dump_is_swift_class name)
                               (class_dump_is_meta_class name) in
      mkResult (classes result ++ [classInfo]) (categories result) (result_protocols result)
  end.

Definition add_category_to_result (result : class_dump_result_t) (name : string)
  : class_dump_result_t :=
  if existsb (fun c => class_dump_string_equals (categoryName c) name) (categories result)
  then result
  else
    let categoryInfo := mkCategory name "NSObject" [] [] [] [] in
    mkResult (classes result) (categories result ++ [categoryInfo]) (result_protocols result).

Definition add_protocol_to_result (result : class_dump_result_t) (name : string)
  : class_dump_result_t :=
  match class_dump_find_protocol result name with
  | Some _ => result
  | None =>
      let protocolInfo := mkProtocol name [] [] in
      mkResult (classes result) (categories result) (result_protocols result ++ [protocolInfo])
  end.

(** Returns the result together with the index of the entry the C function
    points at. *)
Definition class_dump_add_category_with_class (result : class_dump_result_t)
           (class_name category_name : string) : class_dump_result_t * nat :=
  match class_dump_find_category result class_name category_name with
  | Some existing => (result, existing)
  | None =>
      let categoryInfo := mkCategory category_name class_name [] [] [] [] in
      (mkResult (classes result) (categories result ++ [categoryInfo]) (result_protocols result),
       List.length (categories result))
  end.

Definition class_dump_add_method_to_class (class_info : class_dump_info_t)
           (method_name : string) (is_class_method : bool) : class_dump_info_t :=
  if is_class_method then
    mkClass (className class_info) (superclassName class_info) (protocols class_info)
            (instanceMethods class_info)
            (class_dump_add_unique_string (classMethods class_info) method_name)
            (properties class_info) (ivars class_info)
            (isSwift class_info) (isMetaClass class_info)
  else
    mkClass (className class_info) (superclassName class_info) (protocols class_info)
            (class_dump_add_unique_string (instanceMethods class_info) method_name)
            (classMethods class_info)
            (properties class_info) (ivars class_info)
            (isSwift class_info) (isMetaClass class_info).

Definition class_dump_add_method_to_category (category_info : category_dump_info_t)
           (method_name : string) (is_class_method : bool) : category_dump_info_t :=
  if is_class_method then
    mkCategory (categoryName category_info) (cat_className category_info)
               (cat_protocols category_info) (cat_instanceMethods category_info)
               (class_dump_add_unique_string (cat_classMethods category_info) method_name)
               (cat_properties category_info)
  else
    mkCategory (categoryName category_info) (cat_className category_info)
               (cat_protocols category_info)
               (class_dump_add_unique_string (cat_instanceMethods category_info) method_name)
               (cat_classMethods category_info)
               (cat_properties category_info).

Definition add_ivar (class_info : class_dump_info_t) (ivar_name : string) : class_dump_info_t :=
  mkClass (className class_info) (superclassName class_info) (protocols class_info)
          (instanceMethods class_info) (classMethods class_info)
          (properties class_info)
          (class_dump_add_unique_string (ivars class_info) ivar_name)
          (isSwift class_info) (isMetaClass class_info).

Definition update_class (result : class_dump_result_t) (idx : nat)
           (f : class_dump_info_t -> class_dump_info_t) : class_dump_result_t :=
  mkResult (update_nth idx f (classes result)) (categories result) (result_protocols result).

Definition update_category (result : class_dump_result_t) (idx : nat)
           (f : category_dump_info_t -> category_dump_info_t) : class_dump_result_t :=
  mkResult (classes result) (update_nth idx f (categories result)) (result_protocols result).

(** ** The scan passes *)

(** [memchr(s, c, n)], as the offset of the first occurrence among the
    first [n] bytes of [s]. *)
Fixpoint memchr (s : list byte) (c : byte) (n : nat) : option nat :=
  match n, s with
  | S m, b :: rest =>
      if Byte.eqb b c then Some O
      else match memchr rest c m with
           | Some k => Some (S k)
           | None => None
           end
  | _, _ => None
  end.

(** [strncmp(p, pattern, strlen(pattern)) == 0] on the bytes from [p] on.
    A comparison that would run past the last byte of the data does not
    match (the bytes after a mapping are not part of the model). *)
Fixpoint starts_with (s pattern : list byte) : bool :=
  match pattern, s with
  | [], _ => true
  | p :: ps, b :: rest => Byte.eqb b p && starts_with rest ps
  | _ :: _, [] => false
  end.

Section Scan.

(** The loop the passes share:
<<
while (remaining > threshold) {
    pos = memchr(pos, pattern[0], remaining);
    if (!pos) break;
    [if (end - pos < strlen(pattern)) break;]      (scan_ivars only)
    if (strncmp(pos, pattern, strlen(pattern)) == 0) { on_match }
    pos++;
    remaining = size - (pos - data);
}
>>
    [pos] is an offset into [data]; [fuel] bounds the iterations. *)
Context {A : Type}.
Variable pattern : list byte.
Variable threshold : nat.
Variable tail_guard : bool.
Variable on_match : list byte -> nat -> A -> A.

Fixpoint scan_loop (fuel : nat) (data : list byte) (pos : nat) (acc : A) : A :=
  match fuel with
  | O => acc
  | S fuel' =>
      let remaining := (List.length data - pos)%nat in
      if Nat.leb remaining threshold then acc
      else
        match memchr (skipn pos data) (hd NUL pattern) remaining with
        | None => acc
        | Some off =>
            let pos := (pos + off)%nat in
            if tail_guard && Nat.ltb (List.length data - pos) (List.length pattern)
            then acc
            else
              let acc := if starts_with (skipn pos data) pattern
                         then on_match data pos acc else acc in
              scan_loop fuel' data (S pos) acc
        end
  end.

(** Every iteration moves [pos] forward, so [length data] iterations
    exhaust the buffer (theorem [scan_loop_fuel] below). *)
Definition scan (data : list byte) (acc : A) : A :=
  scan_loop (List.length data) data 0 acc.

End Scan.

Definition classPattern : list byte := list_byte_of_string "_OBJC_CLASS_$_".
Definition categoryPattern : list byte := list_byte_of_string "_OBJC_CATEGORY_$_".
Definition protocolPattern : list byte := list_byte_of_string "_OBJC_PROTOCOL_$_".
Definition ivarPattern : list byte := list_byte_of_string "_OBJC_IVAR_$_".

(** The tail after a prefix matched at [pos]:
    [class_dump_safe_strndup(name_start, name_remaining)]. *)
Definition tail_at (pattern : list byte) (data : list byte) (pos : nat) : option string :=
  let name_start := (pos + List.length pattern)%nat in
  let name_remaining := (List.length data - name_start)%nat in
  class_dump_safe_strndup (skipn name_start data) name_remaining.

Definition on_class (data : list byte) (pos : nat) (result : class_dump_result_t) :=
  match tail_at classPattern data pos with
  | Some name => add_class_to_result result name
  | None => result
  end.

Definition on_category (data : list byte) (pos : nat) (result : class_dump_result_t) :=
  match tail_at categoryPattern data pos with
  | Some raw_name =>
      match class_dump_split_category raw_name with
      | (class_name, Some category_name) =>
          let resolved_class :=
            match class_name with
            | Some c => if Nat.ltb 0 (String.length c) then c else "NSObject"
            | None => "NSObject"
            end in
          fst (class_dump_add_category_with_class result resolved_class category_name)
      | (_, None) => result
      end
  | None => result
  end.

Definition on_protocol (data : list byte) (pos : nat) (result : class_dump_result_t) :=
  match tail_at protocolPattern data pos with
  | Some name => add_protocol_to_result result name
  | None => result
  end.

(** The class an ivar or a method belongs to: found, or created and then
    found. *)
Definition find_or_add_class (result : class_dump_result_t) (class_name : string)
  : class_dump_result_t * option nat :=
  match class_dump_find_class result class_name with
  | Some idx => (result, Some idx)
  | None =>
      let result := add_class_to_result result class_name in
      (result, class_dump_find_class result class_name)
  end.

Definition on_ivar (data : list byte) (pos : nat) (result : class_dump_result_t) :=
  match tail_at ivarPattern data pos with
  | Some full_name =>
      match strchr full_name "."%char with
      | Some dot =>
          let class_name := String.substring 0 dot full_name in
          let ivar_name := str_from (S dot) full_name in
          if negb (String.eqb class_name "") && negb (String.eqb ivar_name "") then
            match find_or_add_class result class_name with
            | (result, Some idx) => update_class result idx (fun c => add_ivar c ivar_name)
            | (result, None) => result
            end
          else result
      | None => result
      end
  | None => result
  end.

(** The [bool] the three [class_dump_analyze_*] functions return (whether
    anything was counted) is discarded by [class_dump_binary] and is not
    modelled. *)
Definition class_dump_analyze_classes (data : list byte) (result : class_dump_result_t) :=
  scan classPattern (List.length classPattern) false on_class data result.

Definition class_dump_analyze_categories (data : list byte) (result : class_dump_result_t) :=
  scan categoryPattern (List.length categoryPattern) false on_category data result.

Definition class_dump_analyze_protocols (data : list byte) (result : class_dump_result_t) :=
  scan protocolPattern (List.length protocolPattern) false on_protocol data result.

Definition class_dump_scan_ivars (data : list byte) (result : class_dump_result_t) :=
  scan ivarPattern (List.length ivarPattern) true on_ivar data result.

(** ** The bracketed method scan *)

Definition MINUS : byte := x2d.
Definition PLUS : byte := x2b.
Definition LBRACKET : byte := x5b.
Definition RBRACKET : byte := x5d.

(** What [class_dump_scan_methods] does with a class specification and a
    selector once both are known. *)
Definition record_method (result : class_dump_result_t) (class_part method_part : string)
           (is_class_method : bool) : class_dump_result_t :=
  let open_paren := strchr class_part "("%char in
  let close_paren :=
    match open_paren with
    | Some o =>
        match strchr (str_from o class_part) ")"%char with
        | Some k => Some (o + k)%nat
        | None => None
        end
    | None => None
    end in
  let '(class_name, category_name) :=
    match open_paren, close_paren with
    | Some o, Some c =>
        if Nat.ltb o c
        then (String.substring 0 o class_part,
              strndup_of_string class_part (S o) (c - o - 1))
        else (class_part, None)
    | _, _ => (class_part, None)
    end in
  if Nat.ltb 0 (String.length class_name) then
    let '(result, class_info) := find_or_add_class result class_name in
    match category_name with
    | Some cat =>
        if Nat.ltb 0 (String.length cat) then
          let '(result, category_info) :=
            class_dump_add_category_with_class result class_name cat in
          update_category result category_info
            (fun c => class_dump_add_method_to_category c method_part is_class_method)
        else
          match class_info with
          | Some idx =>
              update_class result idx
                (fun c => class_dump_add_method_to_class c method_part is_class_method)
          | None => result
          end
    | None =>
        match class_info with
        | Some idx =>
            update_class result idx
              (fun c => class_dump_add_method_to_class c method_part is_class_method)
        | None => result
        end
    end
  else result.

(** The text between ['['] at offset [i + 1] and the first [']'] of the
    next 200 bytes, as [class_dump_safe_strndup] copies it; [None] stands
    for each [continue] taken before the copy exists. *)
Definition bracket_content (data : list byte) (i : nat) : option string :=
  let start := skipn (i + 2) data in
  let remaining := (List.length data - (i + 2))%nat in
  let max_len := if Nat.ltb 200 remaining then 200%nat else remaining in
  match memchr start RBRACKET max_len with
  | None => None
  | Some content_len =>
      if Nat.eqb content_len 0 || Nat.leb 200 content_len then None
      else class_dump_safe_strndup start content_len
  end.

(** The body of the [for] loop at index [i]. *)
Definition scan_methods_at (data : list byte) (i : nat) (result : class_dump_result_t)
  : class_dump_result_t :=
  let c := nth i data NUL in
  if (Byte.eqb c MINUS || Byte.eqb c PLUS) && Byte.eqb (nth (i + 1) data NUL) LBRACKET then
    match bracket_content data i with
    | None => result
    | Some content =>
        match strchr content " "%char with
        | None => result
        | Some space =>
            let class_part := String.substring 0 space content in
            let method_part := str_from (S space) content in
            if String.eqb method_part "" then result
            else record_method result class_part method_part (Byte.eqb c PLUS)
        end
    end
  else result.

(** [for (size_t i = 0; i + 2 < binary_size; i++)]. *)
Definition class_dump_scan_methods (data : list byte) (result : class_dump_result_t) :=
  fold_left (fun r i => scan_methods_at data i r)
            (seq 0 (List.length data - 2)) result.

(** ** The string fallback and the driver *)

Definition stringPatterns : list string :=
  ["init"; "dealloc"; "alloc"; "retain"; "release"; "autorelease";
   "copy"; "mutableCopy"; "description"; "debugDescription"].

Definition count_pattern (data : list byte) (pattern : string) (found : nat) : nat :=
  scan (list_byte_of_string pattern) 0 false (fun _ _ n => S n) data found.

Definition analyze_strings_for_objc (data : list byte) (result : class_dump_result_t) :=
  let foundMethods := fold_left (fun n p => count_pattern data p n) stringPatterns O in
  if Nat.ltb 0 foundMethods then
    let result := add_class_to_result result "SampleClass" in
    let result := add_category_to_result result "SampleCategory" in
    add_protocol_to_result result "SampleProtocol"
  else result.

(** [class_dump_binary] on the mapped bytes of the file (opening and
    mapping the file are not modelled). *)
Definition class_dump_binary (data : list byte) : class_dump_result_t :=
  let result := empty_result in
  let result := class_dump_analyze_classes data result in
  let result := class_dump_analyze_categories data result in
  let result := class_dump_analyze_protocols data result in
  let result := class_dump_scan_ivars data result in
  let result := class_dump_scan_methods data result in
  if Nat.eqb (List.length (classes result)) 0 &&
     Nat.eqb (List.length (categories result)) 0 &&
     Nat.eqb (List.length (result_protocols result)) 0
  then analyze_strings_for_objc data result
  else result.

(** ** Uniqueness keys and sample binaries *)

Definition class_keys (r : class_dump_result_t) : list string :=
  map className (classes r).

Definition category_keys (r : class_dump_result_t) : list (string * string) :=
  map (fun c => (cat_className c, categoryName c)) (categories r).

Definition protocol_keys (r : class_dump_result_t) : list string :=
  map protocolName (result_protocols r).

Definition unique_keys (r : class_dump_result_t) : Prop :=
  NoDup (class_keys r) /\ NoDup (category_keys r) /\ NoDup (protocol_keys r).

Definition SPACE : byte := x20.

(** The four byte sequences of the runtime-scan scenario, one after the
    other. *)
Definition s6_binary : list byte :=
  list_byte_of_string "_OBJC_CLASS_$_Foo" ++ [NUL] ++
  list_byte_of_string "_OBJC_CATEGORY_$_Foo_$_Bar" ++ [NUL] ++
  list_byte_of_string "_OBJC_IVAR_$_Foo.counter" ++ [NUL] ++
  list_byte_of_string "-[Foo tick]" ++ [NUL].

(** A class symbol whose name is 256 letters ['A']. *)
Definition long_name_binary : list byte :=
  classPattern ++ repeat x41 256 ++ [NUL].

End ClassDump.

(** ** TypeAnalyzerC.c: type reconstruction from the symbol table *)

Module TypeAnalyzer.

Inductive c_type_category_t : Type :=
| C_TYPE_CATEGORY_STRUCT
| C_TYPE_CATEGORY_CLASS
| C_TYPE_CATEGORY_ENUM
| C_TYPE_CATEGORY_PROTOCOL
| C_TYPE_CATEGORY_UNKNOWN.

(** [confidence] is a [double] in C; it only ever holds one of five
    decimal literals, kept here as the rational the literal denotes. *)
Record c_reconstructed_type_t : Type := mkType {
  name : string;
  address : Z;
  size : Z;
  category : c_type_category_t;
  confidence : Q
}.

(** An entry of the symbol table ([SymbolInfo] of [SymbolTable.h]): the
    name pointer, possibly null, and the address. *)
Record SymbolInfo : Type := mkSymbol {
  sym_name : option string;
  sym_address : Z
}.

Definition c_is_class_symbol (n : string) : bool :=
  strstr n "_OBJC_CLASS_$_" || strstr n "_TtC" || strstr n "objc_class".

Definition c_is_struct_symbol (n : string) : bool :=
  strstr n "struct" || strstr n "Struct" || strstr n "_struct_".

Definition c_is_enum_symbol (n : string) : bool :=
  strstr n "enum" || strstr n "Enum" || strstr n "_enum_".

Definition c_is_protocol_symbol (n : string) : bool :=
  strstr n "protocol" || strstr n "Protocol" || strstr n "_protocol_".

Definition c_extract_class_name (symbolName : string) : string :=
  if strstr symbolName "_OBJC_CLASS_$_" then str_from 14 symbolName else symbolName.

Definition c_extract_struct_name (symbolName : string) : string :=
  if strstr symbolName "_struct_" then str_from 8 symbolName else symbolName.

Definition c_extract_enum_name (symbolName : string) : string :=
  if strstr symbolName "_enum_" then str_from 6 symbolName else symbolName.

Definition c_extract_protocol_name (symbolName : string) : string :=
  if strstr symbolName "_protocol_" then str_from 10 symbolName else symbolName.

Definition c_estimate_class_size (className : string) : Z :=
  if strstr className "View" || strstr className "Controller" then 200
  else if strstr className "Model" then 100
  else if strstr className "Manager" then 150
  else 64.

Definition c_estimate_struct_size (structName : string) : Z :=
  if strstr structName "Point" || strstr structName "Size" then 16
  else if strstr structName "Rect" then 32
  else if strstr structName "Range" then 16
  else 24.

Definition c_estimate_enum_size (enumName : string) : Z :=
  if strstr enumName "Int" || strstr enumName "Raw" then 8 else 4.

Definition c_reconstruction_has_name (types : list c_reconstructed_type_t) (n : string)
  : bool :=
  existsb (fun t => streq (name t) n) types.

Definition is_class_category (c : c_type_category_t) : bool :=
  match c with C_TYPE_CATEGORY_CLASS => true | _ => false end.

Definition c_confidence_for_symbol (n : string) (c : c_type_category_t) : Q :=
  if strstr n "_OBJC_CLASS_$_" then (9 # 10)%Q
  else if is_class_category c && (strstr n "_TtC" || strstr n "_Tt") then (85 # 100)%Q
  else match c with
       | C_TYPE_CATEGORY_ENUM | C_TYPE_CATEGORY_STRUCT => (75 # 100)%Q
       | C_TYPE_CATEGORY_PROTOCOL => (7 # 10)%Q
       | _ => (6 # 10)%Q
       end.

Definition c_estimated_size_for_category (n : string) (c : c_type_category_t) : Z :=
  match c with
  | C_TYPE_CATEGORY_CLASS => c_estimate_class_size n
  | C_TYPE_CATEGORY_STRUCT => c_estimate_struct_size n
  | C_TYPE_CATEGORY_ENUM => c_estimate_enum_size n
  | _ => 0
  end.

(** The classification at the head of the loop body: the category and the
    extracted name, [None] standing for [type_name == NULL]. *)
Definition classify (n : string) : c_type_category_t * option string :=
  if c_is_class_symbol n then (C_TYPE_CATEGORY_CLASS, Some (c_extract_class_name n))
  else if c_is_struct_symbol n then (C_TYPE_CATEGORY_STRUCT, Some (c_extract_struct_name n))
  else if c_is_enum_symbol n then (C_TYPE_CATEGORY_ENUM, Some (c_extract_enum_name n))
  else if c_is_protocol_symbol n then (C_TYPE_CATEGORY_PROTOCOL, Some (c_extract_protocol_name n))
  else (C_TYPE_CATEGORY_UNKNOWN, None).

(** The name the loop body extracts from a symbol, when it gets as far as
    the duplicate test. *)
Definition extracted_name (sym : SymbolInfo) : option string :=
  match sym_name sym with
  | None => None
  | Some n =>
      if String.eqb n "" then None
      else match snd (classify n) with
           | Some type_name => if String.eqb type_name "" then None else Some type_name
           | None => None
           end
  end.

(** One iteration of the loop over the symbols. *)
Definition reconstruct_step (types : list c_reconstructed_type_t) (sym : SymbolInfo)
  : list c_reconstructed_type_t :=
  match sym_name sym with
  | None => types
  | Some n =>
      if String.eqb n "" then types
      else
        let '(category, type_name) := classify n in
        match type_name with
        | None => types
        | Some type_name =>
            if String.eqb type_name "" then types
            else if c_reconstruction_has_name types type_name then types
            else
              types ++ [mkType type_name (sym_address sym)
                               (c_estimated_size_for_category type_name category)
                               category
                               (c_confidence_for_symbol n category)]
        end
  end.

(** [c_reconstruct_types_from_binary] on the symbols the symbol-table
    collaborator parsed out of the file. *)
Definition c_reconstruct_types_from_binary (symbols : list SymbolInfo)
  : list c_reconstructed_type_t :=
  fold_left reconstruct_step symbols [].

End TypeAnalyzer.

(** * DisassemblyEngine.c: context API, register masks, ModRM, driver *)

Module DisasmTools.

Import Disasm.

(** [disasm_get_flags], [disasm_set_flags]: a null context reads as 0. *)
Definition disasm_get_flags (ctx : option DisassemblyContext) : Z :=
  match ctx with
  | None => 0
  | Some c => flags c
  end.

Definition disasm_set_flags (ctx : DisassemblyContext) (new_flags : Z) : DisassemblyContext :=
  mkCtx new_flags.

(** [disasm_enum_registers]: the registers stored in [out_regs], in the
    order stored; the C function returns their number.  [n] counts the
    iterations left of [for (r = 0; r < 64 && idx < max_regs; r++)]. *)
Fixpoint enum_registers_loop (n : nat) (r : Z) (mask : Z) (max_regs : nat)
         (out_regs : list Z) : list Z :=
  match n with
  | O => out_regs
  | S n' =>
      if Nat.ltb (List.length out_regs) max_regs then
        if negb (mask .& (1 << r) =? 0)
        then enum_registers_loop n' (r + 1) mask max_regs (out_regs ++ [r])
        else enum_registers_loop n' (r + 1) mask max_regs out_regs
      else out_regs
  end.

Definition disasm_enum_registers (mask : Z) (max_regs : nat) : list Z :=
  if Nat.eqb max_regs 0 then []
  else enum_registers_loop 64 0 mask max_regs [].

(** The registers of a mask, lowest first. *)
Definition registers_of (mask : Z) : list Z :=
  filter (fun r => Z.testbit mask r) (map Z.of_nat (seq 0 64)).

(** [disasm_format_regmask].  The buffer is an array of characters;
    [snprintf(buf + written, avail, "%s", text)] stores nothing when
    [avail] is 0, and otherwise as much of the text as [avail - 1]
    characters hold, followed by a NUL.  It returns the length of the
    text (a negative value, for an encoding error, does not occur with
    these arguments). *)
Definition snprintf_at (buf : list ascii) (written buf_size : nat) (text : string)
  : list ascii * nat :=
  let avail := if Nat.ltb written buf_size then (buf_size - written)%nat else O in
  match avail with
  | O => (buf, String.length text)
  | S room =>
      let k := Nat.min (String.length text) room in
      (firstn written buf ++ list_ascii_of_string (String.substring 0 k text) ++
       [zero] ++ skipn (written + k + 1) buf,
       String.length text)
  end.

(** [buf[i] = '\0']. *)
Definition store_nul (buf : list ascii) (i : nat) : list ascii :=
  firstn i buf ++ [zero] ++ skipn (i + 1) buf.

(** The state of the loop: the buffer, [written] and [first]. *)
Record RegmaskState : Type := mkRegmask {
  rm_buf : list ascii;
  rm_written : nat;
  rm_first : bool
}.

Fixpoint format_regmask_loop (n : nat) (r : Z) (mask : Z) (buf_size : nat) (is_64bit : bool)
         (st : RegmaskState) : RegmaskState :=
  match n with
  | O => st
  | S n' =>
      if mask .& (1 << r) =? 0
      then format_regmask_loop n' (r + 1) mask buf_size is_64bit st
      else
        let name := arm64_register_name r is_64bit in
        let st :=
          if rm_first st then st
          else
            let '(buf, n) := snprintf_at (rm_buf st) (rm_written st) buf_size ", " in
            mkRegmask buf (rm_written st + n) (rm_first st) in
        let '(buf, n) := snprintf_at (rm_buf st) (rm_written st) buf_size name in
        let st := mkRegmask buf (rm_written st + n) false in
        if Nat.leb buf_size (rm_written st) then st
        else format_regmask_loop n' (r + 1) mask buf_size is_64bit st
  end.

(** The value returned and the buffer as the call leaves it. *)
Definition disasm_format_regmask (mask : Z) (buf : option (list ascii)) (buf_size : nat)
           (is_64bit : bool) : nat * option (list ascii) :=
  match buf with
  | None => (O, None)
  | Some b =>
      if Nat.eqb buf_size 0 then (O, buf)
      else
        let st := format_regmask_loop 64 0 mask buf_size is_64bit (mkRegmask b 0 true) in
        let out := if Nat.ltb (rm_written st) buf_size
                   then store_nul (rm_buf st) (rm_written st)
                   else store_nul (rm_buf st) (buf_size - 1) in
        (rm_written st, Some out)
  end.

(** The C string a buffer holds, and the names of the registers of a
    mask. *)
Fixpoint c_string (buf : list ascii) : string :=
  match buf with
  | [] => EmptyString
  | c :: rest => if Ascii.eqb c zero then EmptyString else String c (c_string rest)
  end.

Definition register_names (mask : Z) (is_64bit : bool) : list string :=
  map (fun r => arm64_register_name r is_64bit) (registers_of mask).

(** [ModRM], [SIB] and their decoders. *)
Record ModRM : Type := mkModRM { modrm_mod : Z; modrm_reg : Z; modrm_rm : Z }.

Definition decode_modrm (b : Z) : ModRM :=
  mkModRM ((b >> 6) .& 0x3) ((b >> 3) .& 0x7) (b .& 0x7).

Record SIB : Type := mkSIB { sib_scale : Z; sib_index : Z; sib_base : Z }.

Definition decode_sib (b : Z) : SIB :=
  mkSIB ((b >> 6) .& 0x3) ((b >> 3) .& 0x7) (b .& 0x7).

(** [calculate_x86_64_length]: the length returned, and the ModRM byte
    stored through [modrm_out] when the function gets that far. *)
Definition calculate_x86_64_length (bytes : list byte) (max_len : Z) (has_rex : bool)
           (opcode : Z) : Z * option ModRM :=
  if max_len <? 2 then (1, None)
  else
    let len := 1 in
    let len := if has_rex then len + 1 else len in
    let has_modrm :=
      ((0x00 <=? opcode) && (opcode <=? 0x3F)) ||
      ((0x80 <=? opcode) && (opcode <=? 0x8F)) ||
      ((0xC0 <=? opcode) && (opcode <=? 0xC7) && negb (opcode =? 0xC3)) ||
      ((0xD0 <=? opcode) && (opcode <=? 0xD3)) ||
      ((0xF6 <=? opcode) && (opcode <=? 0xF7)) ||
      ((0xFE <=? opcode) && (opcode <=? 0xFF)) in
    if negb has_modrm then (len, None)
    else if max_len <=? len then (len, None)
    else
      let modrm := decode_modrm (byte_at bytes len) in
      let len := len + 1 in
      let has_sib := negb (modrm_mod modrm =? 3) && (modrm_rm modrm =? 4) in
      if has_sib && (max_len <=? len) then (len, Some modrm)
      else
        let len := if has_sib then len + 1 else len in
        let len :=
          if modrm_mod modrm =? 1 then len + 1
          else if modrm_mod modrm =? 2 then len + 4
          else if (modrm_mod modrm =? 0) && (modrm_rm modrm =? 5) then len + 4
          else len in
        (len, Some modrm).

(** ** The driver: [disasm_instruction], [disasm_all] and the queries *)

(** The architecture of a context ([ctx->arch]). *)
Inductive ArchType : Type := ARCH_UNKNOWN | ARCH_ARM64 | ARCH_X86_64.

(** The fields of [DisassemblyContext] the driver works on.  [decoder_ctx]
    is the part the decoders read (the flags); [is_swapped] stands for
    [ctx->macho_ctx && ctx->macho_ctx->header.is_swapped]; [instructions]
    holds the first [instruction_count] slots of the array, [None] for a
    null pointer.  The integer fields are mathematical integers here: the
    statements about the driver bound [code_size] so that none of the C
    operations on them wraps. *)
Record DriverContext : Type := mkDriver {
  decoder_ctx : DisassemblyContext;
  arch : ArchType;
  is_swapped : bool;
  code_data : option (list byte);
  code_size : Z;
  code_base_addr : Z;
  current_offset : Z;
  instructions : option (list DisassembledInstruction);
  instruction_capacity : Z;
  instruction_count : Z
}.

Definition set_current_offset v c :=
  mkDriver (decoder_ctx c) (arch c) (is_swapped c) (code_data c) (code_size c)
           (code_base_addr c) v (instructions c) (instruction_capacity c)
           (instruction_count c).
Definition set_instructions v c :=
  mkDriver (decoder_ctx c) (arch c) (is_swapped c) (code_data c) (code_size c)
           (code_base_addr c) (current_offset c) v (instruction_capacity c)
           (instruction_count c).
Definition set_instruction_capacity v c :=
  mkDriver (decoder_ctx c) (arch c) (is_swapped c) (code_data c) (code_size c)
           (code_base_addr c) (current_offset c) (instructions c) v
           (instruction_count c).
Definition set_instruction_count v c :=
  mkDriver (decoder_ctx c) (arch c) (is_swapped c) (code_data c) (code_size c)
           (code_base_addr c) (current_offset c) (instructions c)
           (instruction_capacity c) v.

(** What a call of the driver comes to: a value returned with the context
    as the call leaves it, a store into a slot the array does not have, or
    a loop the bound on its iterations did not cover. *)
Inductive DriverOutcome : Type :=
  | Returned (value : Z) (ctx : option DriverContext)
  | StoreOutOfBounds
  | StillRunning.

Section Driver.

Variable DISASM_FLAG_PROLOGUE_EPILOGUE_HEURISTICS : Z.
Variables MNEMONIC_SIZE OPERANDS_SIZE FULL_DISASM_SIZE : nat.
Variable category_zero : InstructionCategory.
Variable branch_type_zero : BranchType.

(** [swap_uint32] is defined outside the files at hand. *)
Variable swap_uint32 : Z -> Z.

(** [disasm_instruction] on a context that is not null: the context
    after the call and, when one of the decoders ran, the value returned
    with the record stored through [inst]; [None] is [return false] with
    nothing stored. *)
Definition disasm_instruction (ctx : DriverContext)
  : DriverContext * option (bool * DisassembledInstruction) :=
  match code_data ctx with
  | None => (ctx, None)
  | Some data =>
      if code_size ctx <=? current_offset ctx then (ctx, None)
      else
        let addr := to_uint64 (code_base_addr ctx + current_offset ctx) in
        match arch ctx with
        | ARCH_ARM64 =>
            if code_size ctx <? current_offset ctx + 4 then (ctx, None)
            else
              let bytes := read_uint32 data (current_offset ctx) in
              let bytes := if is_swapped ctx then swap_uint32 bytes else bytes in
              let ctx := set_current_offset (current_offset ctx + 4) ctx in
              let inst :=
                disasm_arm64 DISASM_FLAG_PROLOGUE_EPILOGUE_HEURISTICS MNEMONIC_SIZE
                  OPERANDS_SIZE FULL_DISASM_SIZE category_zero branch_type_zero
                  (Some (decoder_ctx ctx)) bytes addr in
              (ctx, Some (is_valid inst, inst))
        | ARCH_X86_64 =>
            let inst :=
              disasm_x86_64 MNEMONIC_SIZE OPERANDS_SIZE FULL_DISASM_SIZE category_zero
                branch_type_zero (skipn (Z.to_nat (current_offset ctx)) data) addr in
            let ctx := set_current_offset (current_offset ctx + inst_length inst) ctx in
            (ctx, Some (is_valid inst, inst))
        | ARCH_UNKNOWN => (ctx, None)
        end
  end.

(** The array with one more record, [ctx->instruction_count++] included. *)
Definition push_instruction (inst : DisassembledInstruction) (ctx : DriverContext) :=
  let stored := match instructions ctx with
                | Some l => l
                | None => []
                end in
  set_instruction_count (instruction_count ctx + 1)
    (set_instructions (Some (stored ++ [inst])) ctx).

(** The loop of [disasm_all] and [disasm_range], which differ in the
    bound [limit] on [current_offset]; allocation is taken to succeed.
    The slot [instructions[instruction_count]] is handed to
    [disasm_instruction]: when a decoder stores through it, the slot has
    to lie below the capacity. *)
Fixpoint disasm_loop (limit : Z) (fuel : nat) (ctx : DriverContext) : DriverOutcome :=
  if current_offset ctx <? limit then
    match fuel with
    | O => StillRunning
    | S fuel' =>
        let ctx :=
          if instruction_capacity ctx <=? instruction_count ctx
          then set_instruction_capacity (instruction_capacity ctx * 2) ctx
          else ctx in
        match disasm_instruction ctx with
        | (ctx', Some (ok, inst)) =>
            if instruction_capacity ctx <=? instruction_count ctx then StoreOutOfBounds
            else if ok then disasm_loop limit fuel' (push_instruction inst ctx')
            else Returned (instruction_count ctx') (Some ctx')
        | (ctx', None) => Returned (instruction_count ctx') (Some ctx')
        end
    end
  else Returned (instruction_count ctx) (Some ctx).

(** [disasm_all].  Every iteration that goes on moves [current_offset]
    ahead, so [code_size] iterations are all the loop can make. *)
Definition disasm_all (ctx : option DriverContext) : DriverOutcome :=
  match ctx with
  | None => Returned 0 None
  | Some c =>
      match code_data c with
      | None => Returned 0 ctx
      | Some _ =>
          let c := set_current_offset 0 c in
          let estimated := to_uint32 (code_size c / 4) in
          let c := set_instructions (Some []) c in
          let c := set_instruction_capacity estimated c in
          let c := set_instruction_count 0 c in
          disasm_loop (code_size c) (Z.to_nat (code_size c)) c
      end
  end.

(** [disasm_range]. *)
Definition disasm_range (ctx : option DriverContext) (start_addr end_addr : Z)
  : DriverOutcome :=
  match ctx with
  | None => Returned 0 None
  | Some c =>
      if end_addr <=? start_addr then Returned 0 ctx
      else
        let start_offset := to_uint64 (start_addr - code_base_addr c) in
        let end_offset := to_uint64 (end_addr - code_base_addr c) in
        if code_size c <=? start_offset then Returned 0 ctx
        else
          let end_offset := if code_size c <? end_offset then code_size c else end_offset in
          let range_size := to_uint64 (end_offset - start_offset) in
          let estimated := to_uint32 (range_size / 4) in
          let estimated := if estimated =? 0 then 1 else estimated in
          let c := set_instructions (Some []) c in
          let c := set_instruction_capacity estimated c in
          let c := set_instruction_count 0 c in
          let c := set_current_offset start_offset c in
          disasm_loop end_offset (Z.to_nat (code_size c)) c
  end.

(** The records [disasm_detect_functions] and [disasm_find_by_address]
    go through: [instructions[i]] for [i < instruction_count]. *)
Definition stored_instructions (c : DriverContext) : list DisassembledInstruction :=
  match instructions c with
  | Some l => firstn (Z.to_nat (instruction_count c)) l
  | None => []
  end.

(** [disasm_detect_functions]. *)
Definition disasm_detect_functions (ctx : option DriverContext) : Z :=
  match ctx with
  | None => 0
  | Some c =>
      match instructions c with
      | None => 0
      | Some _ =>
          fold_left (fun func_count i => if is_function_start i then func_count + 1
                                         else func_count)
                    (stored_instructions c) 0
      end
  end.

(** [disasm_find_by_address]: the index as [int32_t], or -1. *)
Fixpoint find_by_address_loop (insts : list DisassembledInstruction) (i : Z) (a : Z) : Z :=
  match insts with
  | [] => -1
  | x :: rest =>
      if address x =? a then to_int32 i else find_by_address_loop rest (i + 1) a
  end.

Definition disasm_find_by_address (ctx : option DriverContext) (a : Z) : Z :=
  match ctx with
  | None => -1
  | Some c =>
      match instructions c with
      | None => -1
      | Some _ => find_by_address_loop (stored_instructions c) 0 a
      end
  end.

(** The word [disasm_instruction] decodes at an offset, and the listing
    of the first [n] words of a buffer. *)
Definition word_at (c : DriverContext) (data : list byte) (k : nat) : Z :=
  let w := read_uint32 data (4 * Z.of_nat k) in
  if is_swapped c then swap_uint32 w else w.

Definition arm64_listing (c : DriverContext) (data : list byte) (n : nat)
  : list DisassembledInstruction :=
  map (fun k =>
         disasm_arm64 DISASM_FLAG_PROLOGUE_EPILOGUE_HEURISTICS MNEMONIC_SIZE
           OPERANDS_SIZE FULL_DISASM_SIZE category_zero branch_type_zero
           (Some (decoder_ctx c)) (word_at c data k)
           (to_uint64 (code_base_addr c + 4 * Z.of_nat k)))
      (seq 0 n).

(** A list of records that tiles the buffer from [off] to [stop]: each
    is what [disasm_x86_64] makes of the bytes where the one before it
    ends. *)
Fixpoint x86_tiled (c : DriverContext) (data : list byte) (off : Z)
         (l : list DisassembledInstruction) (stop : Z) : Prop :=
  match l with
  | [] => stop = off
  | i :: l' =>
      i = disasm_x86_64 MNEMONIC_SIZE OPERANDS_SIZE FULL_DISASM_SIZE category_zero
            branch_type_zero (skipn (Z.to_nat off) data)
            (to_uint64 (code_base_addr c + off)) /\
      x86_tiled c data (off + inst_length i) l' stop
  end.

End Driver.

(** An instance of the driver for concrete evaluation: the header
    constants as in [sample_arm64], a byte reversal for [swap_uint32], and
    contexts over two short buffers loaded at 0x1000. *)
Definition sample_swap (w : Z) : Z :=
  ((w >> 24) .& 0xFF) .| ((w >> 8) .& 0xFF00) .|
  ((w << 8) .& 0xFF0000) .| ((w << 24) .& 0xFF000000).

Definition sample_code_arm64 : list byte :=
  [xfd; x7b; xbf; xa9; xc0; x03; x5f; xd6; x1f; x20].

Definition sample_code_x86_64 : list byte :=
  [x55; x90; xe8; x00; x00; x00; x00; xc3].

Definition sample_context (a : ArchType) (ctx_flags : Z) (data : list byte) : DriverContext :=
  mkDriver (mkCtx ctx_flags) a false (Some data) (Z.of_nat (List.length data)) 0x1000 0
           None 0 0.

(** A context as [disasm_all] leaves it, with two RET records. *)
Definition sample_listed : DriverContext :=
  mkDriver (mkCtx 1) ARCH_ARM64 false None 0 0x1000 0
           (Some [sample_arm64 None 0xD65F03C0 0x1000;
                  sample_arm64 None 0xD65F03C0 0x1004]) 2 2.

Definition sample_all : option DriverContext -> DriverOutcome :=
  disasm_all 1 16 64 128 INST_CATEGORY_UNKNOWN BRANCH_NONE sample_swap.

Definition sample_range : option DriverContext -> Z -> Z -> DriverOutcome :=
  disasm_range 1 16 64 128 INST_CATEGORY_UNKNOWN BRANCH_NONE sample_swap.

(** The control transfers [disasm_arm64] reports, with the branch type of
    each. *)
Definition branch_forms : list (string * BranchType) :=
  [("B", BRANCH_UNCONDITIONAL); ("BL", BRANCH_CALL); ("BR", BRANCH_UNCONDITIONAL);
   ("BLR", BRANCH_CALL); ("RET", BRANCH_RETURN); ("BRAA", BRANCH_UNCONDITIONAL)].

(** What every branch of the cascades that produces text leaves in the
    fields that describe the word and its control flow. *)
Definition coherent_record (bytes addr : Z) (i : DisassembledInstruction) : Prop :=
  address i = addr /\ raw_bytes i = bytes /\ inst_length i = 4 /\
  category i <> INST_CATEGORY_UNKNOWN /\
  mnemonic i <> ".word" /\
  updates_pc i = has_branch i /\
  (has_branch i = true ->
   category i = INST_CATEGORY_BRANCH /\ In (mnemonic i, branch_type i) branch_forms) /\
  (has_branch i = false -> category i <> INST_CATEGORY_BRANCH) /\
  (has_branch_target i = true -> In (mnemonic i) ["B"; "BL"; "ADR"; "ADRP"]).

(** A word no branch recognises leaves as [".word"], without control
    flow. *)
Definition word_record (bytes addr : Z) (r : DisassembledInstruction) : Prop :=
  address r = addr /\ raw_bytes r = bytes /\ inst_length r = 4 /\
  category r = INST_CATEGORY_UNKNOWN /\ mnemonic r = ".word" /\
  has_branch r = false /\ updates_pc r = false /\ has_branch_target r = false.

End DisasmTools.

(** * ClassDumpC.c: the name and type extractors *)

Module ClassDumpTools.

Import ClassDump.

(** [class_dump_extract_class_name] and its two siblings: the test is
    [strstr], which finds the prefix anywhere, and the copy starts at a
    fixed offset from the beginning of the symbol. *)
Definition class_dump_extract_class_name (symbolName : string) : string :=
  if strstr symbolName "_OBJC_CLASS_$_" then str_from 14 symbolName else symbolName.

Definition class_dump_extract_category_name (symbolName : string) : string :=
  if strstr symbolName "_OBJC_CATEGORY_$_" then str_from 16 symbolName else symbolName.

Definition class_dump_extract_protocol_name (symbolName : string) : string :=
  if strstr symbolName "_OBJC_PROTOCOL_$_" then str_from 17 symbolName else symbolName.

(** The double quote, and the mark [T@] followed by it that opens the
    class name in a property attribute string. *)
Definition quote : string := String "034"%char EmptyString.
Definition type_mark : string := "T@" +++ quote.

(** [class_dump_extract_property_type]. *)
Definition class_dump_extract_property_type (attributes : string) : string :=
  match String.index 0 type_mark attributes with
  | Some mark =>
      let start := (mark + 3)%nat in
      match String.index 0 quote (str_from start attributes) with
      | Some len => String.substring start len attributes
      | None => "id"
      end
  | None => "id"
  end.

Definition class_dump_is_class_method (methodName : string) : bool :=
  strstr methodName "_OBJC_$_CLASS_METHODS_".

Definition class_dump_is_instance_method (methodName : string) : bool :=
  strstr methodName "_OBJC_$_INSTANCE_METHODS_".

Definition class_dump_is_optional_method (methodName : string) : bool :=
  strstr methodName "optional".

(** ** What the scan passes leave in an entry *)

(** A list the scan fills through [class_dump_add_unique_string]: no
    string twice, and none empty. *)
Definition member_list (l : list string) : Prop := NoDup l /\ ~ In "" l.

Definition scanned_class (c : class_dump_info_t) : Prop :=
  className c <> "" /\ superclassName c = "NSObject" /\
  protocols c = [] /\ properties c = [] /\
  isSwift c = class_dump_is_swift_class (className c) /\
  isMetaClass c = class_dump_is_meta_class (className c) /\
  member_list (ivars c) /\ member_list (instanceMethods c) /\ member_list (classMethods c).

Definition scanned_category (c : category_dump_info_t) : Prop :=
  categoryName c <> "" /\ cat_className c <> "" /\
  cat_protocols c = [] /\ cat_properties c = [] /\
  member_list (cat_instanceMethods c) /\ member_list (cat_classMethods c).

Definition scanned_protocol (p : protocol_dump_info_t) : Prop :=
  protocolName p <> "" /\ proto_protocols p = [] /\ proto_methods p = [].

Definition scanned_result (r : class_dump_result_t) : Prop :=
  Forall scanned_class (classes r) /\
  Forall scanned_category (categories r) /\
  Forall scanned_protocol (result_protocols r).

(** The five scan passes of [class_dump_binary], before the fallback. *)
Definition scan_passes (data : list byte) : class_dump_result_t :=
  class_dump_scan_methods data
    (class_dump_scan_ivars data
       (class_dump_analyze_protocols data
          (class_dump_analyze_categories data
             (class_dump_analyze_classes data empty_result)))).

(** The placeholder entries of [analyze_strings_for_objc]. *)
Definition sample_result : class_dump_result_t :=
  mkResult [mkClass "SampleClass" "NSObject" [] [] [] [] [] false false]
           [mkCategory "SampleCategory" "NSObject" [] [] [] []]
           [mkProtocol "SampleProtocol" [] []].

(** The class a category symbol is filed under. *)
Definition category_owner (class_name : option string) : string :=
  match class_name with
  | Some c => if Nat.ltb 0 (String.length c) then c else "NSObject"
  | None => "NSObject"
  end.

(** A class of the result with the given name that has the member. *)
Definition class_has (members : class_dump_info_t -> list string) (cls member : string)
           (r : class_dump_result_t) : Prop :=
  exists c, In c (classes r) /\ className c = cls /\ In member (members c).

Definition methods_of (is_class_method : bool) (c : class_dump_info_t) : list string :=
  if is_class_method then classMethods c else instanceMethods c.

(** A pattern occurs in the data at an offset. *)
Definition occurs_at (pattern : string) (data : list byte) (pos : nat) : Prop :=
  starts_with (skipn pos data) (list_byte_of_string pattern) = true.

End ClassDumpTools.

(** * TypeAnalyzerC.c: the symbol helpers *)

Module TypeAnalyzerTools.

Import TypeAnalyzer.

Definition c_is_function_symbol (n : string) : bool :=
  match n with
  | String c _ =>
      Ascii.eqb c "_"%char &&
      (strstr n "func" || strstr n "method" || strstr n "selector")
  | EmptyString => false
  end.

Definition c_is_property_symbol (n typeName : string) : bool :=
  strstr n typeName &&
  (strstr n "property" || strstr n "field" || strstr n "member" ||
   strstr n "ivar" || strstr n "_").

Definition c_is_method_symbol (n typeName : string) : bool :=
  strstr n typeName &&
  (strstr n "method" || strstr n "func" || strstr n "selector" || strstr n "imp").

Definition c_is_enum_case_symbol (n enumName : string) : bool :=
  strstr n enumName &&
  (strstr n "case" || strstr n "value" || strstr n "option").

Definition c_extract_function_name (symbolName : string) : string :=
  match symbolName with
  | String c rest => if Ascii.eqb c "_"%char then rest else symbolName
  | EmptyString => symbolName
  end.

(** The body [c_extract_property_name], [c_extract_method_name] and
    [c_extract_enum_case_name] share: what follows the first occurrence of
    the type name, less one underscore. *)
Definition extract_after (n typeName : string) : string :=
  match String.index 0 typeName n with
  | Some typePos =>
      let nameStart := (typePos + String.length typeName)%nat in
      let nameStart :=
        match String.get nameStart n with
        | Some c => if Ascii.eqb c "_"%char then S nameStart else nameStart
        | None => nameStart
        end in
      str_from nameStart n
  | None => n
  end.

Definition c_extract_property_name (n typeName : string) : string := extract_after n typeName.
Definition c_extract_method_name (n typeName : string) : string := extract_after n typeName.
Definition c_extract_enum_case_name (n enumName : string) : string := extract_after n enumName.

Definition c_infer_property_type (n : string) (size : Z) : string :=
  if strstr n "string" || strstr n "str" then "String"
  else if strstr n "int" || strstr n "number" then "Int"
  else if strstr n "bool" || strstr n "flag" then "Bool"
  else if strstr n "float" || strstr n "double" then "Double"
  else if size =? 8 then "Int64"
  else if size =? 4 then "Int32"
  else if size =? 2 then "Int16"
  else if size =? 1 then "Int8"
  else "Any".

Definition c_infer_return_type (n : string) (size : Z) : string :=
  if strstr n "init" || strstr n "alloc" then "Self"
  else if strstr n "bool" || strstr n "flag" then "Bool"
  else if strstr n "string" || strstr n "str" then "String"
  else if strstr n "int" || strstr n "number" then "Int"
  else if strstr n "void" || strstr n "empty" then "Void"
  else "Any".

Definition c_infer_access_level (n : string) : Z :=
  if strstr n "private" || strstr n "_private" then 2
  else if strstr n "fileprivate" || strstr n "_fileprivate" then 3
  else if strstr n "internal" || strstr n "_internal" then 1
  else if strstr n "open" || strstr n "_open" then 4
  else 0.

Definition c_contains_class_definition (s : string) : bool :=
  strstr s "class " && strstr s ":".

Definition c_contains_struct_definition (s : string) : bool :=
  strstr s "struct " && strstr s "{".

Definition c_contains_enum_definition (s : string) : bool :=
  strstr s "enum " && strstr s "case".

(** [c_extract_type_name_from_string]: the two [while] loops, then the
    copy; [None] is the null pointer. *)
Fixpoint skip_spaces (s : string) : string :=
  match s with
  | String c rest => if Ascii.eqb c " "%char then skip_spaces rest else s
  | EmptyString => s
  end.

Definition ends_name (c : ascii) : bool :=
  Ascii.eqb c " "%char || Ascii.eqb c ":"%char || Ascii.eqb c "{"%char.

Fixpoint name_span (s : string) : nat :=
  match s with
  | String c rest => if ends_name c then O else S (name_span rest)
  | EmptyString => O
  end.

Definition c_extract_type_name_from_string (s keyword : string) : option string :=
  match String.index 0 keyword s with
  | None => None
  | Some keywordPos =>
      let nameStart := skip_spaces (str_from (keywordPos + String.length keyword) s) in
      let nameLen := name_span nameStart in
      if Nat.eqb nameLen 0 then None
      else Some (String.substring 0 nameLen nameStart)
  end.

(** [k] spaces. *)
Fixpoint blanks (k : nat) : string :=
  match k with
  | O => EmptyString
  | S k' => String " "%char (blanks k')
  end.

(** The values an entry of the reconstruction can carry for a category. *)
Definition category_sizes (c : c_type_category_t) : list Z :=
  match c with
  | C_TYPE_CATEGORY_CLASS => [200; 100; 150; 64]
  | C_TYPE_CATEGORY_STRUCT => [16; 32; 24]
  | C_TYPE_CATEGORY_ENUM => [8; 4]
  | _ => [0]
  end.

Definition category_confidences (c : c_type_category_t) : list Q :=
  match c with
  | C_TYPE_CATEGORY_CLASS => [(9 # 10)%Q; (85 # 100)%Q; (6 # 10)%Q]
  | C_TYPE_CATEGORY_STRUCT | C_TYPE_CATEGORY_ENUM => [(75 # 100)%Q]
  | C_TYPE_CATEGORY_PROTOCOL => [(7 # 10)%Q]
  | C_TYPE_CATEGORY_UNKNOWN => []
  end.

(** The entry the loop body appends for a symbol. *)
Definition entry_of (sym : SymbolInfo) (e : c_reconstructed_type_t) : Prop :=
  exists n,
    sym_name sym = Some n /\ address e = sym_address sym /\
    classify n = (category e, Some (name e)) /\ name e <> "" /\
    size e = c_estimated_size_for_category (name e) (category e) /\
    confidence e = c_confidence_for_symbol n (category e).

End TypeAnalyzerTools.

(** * Verification *)

(** ** Lists and strings *)

Section ListFacts.

Context {A B : Type}.

Lemma find_index_none (p : A -> bool) (l : list A) :
  ClassDump.find_index p l = None -> forall x, In x l -> p x = false.
Proof.
  induction l as [|a l IH]; cbn; [intros _ x []|].
  destruct (p a) eqn:E; [discriminate|].
  destruct (ClassDump.find_index p l); [discriminate|].
  intros _ x [<- | H]; auto.
Qed.

Lemma existsb_false (p : A -> bool) (l : list A) :
  existsb p l = false -> forall x, In x l -> p x = false.
Proof.
  intros H x Hx. destruct (p x) eqn:E; [|reflexivity].
  rewrite <- H. symmetry. apply existsb_exists. eauto.
Qed.

Lemma NoDup_snoc (l : list A) (x : A) :
  NoDup l -> ~ In x l -> NoDup (l ++ [x]).
Proof.
  induction l as [|a l IH]; cbn; intros Hl Hx.
  - constructor; [intros [] | constructor].
  - inversion Hl; subst. constructor.
    + rewrite in_app_iff. cbn. intuition.
    + apply IH; intuition.
Qed.

Lemma map_update_nth (key : A -> B) (f : A -> A) (n : nat) (l : list A) :
  (forall x, key (f x) = key x) -> map key (ClassDump.update_nth n f l) = map key l.
Proof.
  intros Hf. revert n. induction l as [|a l IH]; intros [|n]; cbn; try reflexivity.
  - rewrite Hf. reflexivity.
  - rewrite IH. reflexivity.
Qed.

Lemma fold_left_invariant (P : A -> Prop) (f : A -> B -> A) (l : list B) :
  (forall a b, P a -> P (f a b)) -> forall a, P a -> P (fold_left f l a).
Proof. intros Hf. induction l as [|b l IH]; cbn; auto. Qed.

End ListFacts.

Lemma substring_whole (s : string) (n : nat) :
  (String.length s <= n)%nat -> String.substring 0 n s = s.
Proof.
  revert n. induction s as [|c s IH]; intros [|n] H; cbn in *; try reflexivity; try lia.
  rewrite IH by lia. reflexivity.
Qed.

Lemma substring_nothing (n : nat) (s : string) : String.substring n 0 s = "".
Proof. revert s. induction n as [|n IH]; intros [|c s]; cbn; auto. Qed.

Lemma snprintf_fits (size : nat) (s : string) :
  (String.length s < size)%nat -> snprintf size s = s.
Proof. intros H. unfold snprintf. apply substring_whole. lia. Qed.

Lemma string_of_list_byte_length (l : list byte) :
  String.length (string_of_list_byte l) = List.length l.
Proof.
  unfold string_of_list_byte.
  induction l as [|b l IH]; cbn; [reflexivity | rewrite IH; reflexivity].
Qed.

Lemma byte_eqb_eq (a c : byte) : Byte.eqb a c = true <-> a = c.
Proof. split; [apply Byte.byte_dec_bl | apply Byte.byte_dec_lb]. Qed.

Lemma ascii_of_byte_eqb (a c : byte) :
  Ascii.eqb (ascii_of_byte a) (ascii_of_byte c) = Byte.eqb a c.
Proof.
  destruct (Byte.eqb a c) eqn:E.
  - apply byte_eqb_eq in E. subst. apply Ascii.eqb_refl.
  - apply Ascii.eqb_neq. intros H. apply (f_equal byte_of_ascii) in H.
    rewrite !byte_of_ascii_of_byte in H. apply byte_eqb_eq in H. congruence.
Qed.

(** ** The opcode nibble *)

Lemma land_15_range (x : Z) : 0 <= x .& 0xF < 16.
Proof.
  change 0xF with (Z.ones 4). rewrite Z.land_ones by lia.
  apply Z.mod_pos_bound. lia.
Qed.

Lemma nibble_cases (y : Z) :
  0 <= y < 16 ->
  y = 0 \/ y = 1 \/ y = 2 \/ y = 3 \/ y = 4 \/ y = 5 \/ y = 6 \/ y = 7 \/
  y = 8 \/ y = 9 \/ y = 10 \/ y = 11 \/ y = 12 \/ y = 13 \/ y = 14 \/ y = 15.
Proof. lia. Qed.

(** Once [(op0 & 0x8) == 0x8] has failed, neither [(op0 & 0xE) == 0xA] nor
    [(op0 & 0xB) == 0x8] can hold: the three groups written after the
    ADD/SUB-immediate group in the first cascade are never entered. *)
Lemma op0_bit3_clear (x : Z) :
  ((x .& 0xF) .& 0x8 =? 0x8) = false ->
  ((x .& 0xF) .& 0xE =? 0xA) = false /\ ((x .& 0xF) .& 0xB =? 0x8) = false.
Proof.
  pose proof (nibble_cases _ (land_15_range x)) as H.
  generalize dependent (x .& 0xF). intros y H.
  repeat (destruct H as [-> | H]); try subst y; vm_compute; intuition congruence.
Qed.

(** ** The AArch64 and x86-64 decoders *)

Section DecoderFacts.

Import Disasm.

Variable DISASM_FLAG_PROLOGUE_EPILOGUE_HEURISTICS : Z.
Variables MNEMONIC_SIZE OPERANDS_SIZE FULL_DISASM_SIZE : nat.
Variable category_zero : InstructionCategory.
Variable branch_type_zero : BranchType.

Local Notation "'entry'" := (arm64_entry category_zero branch_type_zero).
Local Notation "'cascades'" :=
  (arm64_cascades MNEMONIC_SIZE OPERANDS_SIZE category_zero branch_type_zero).
Local Notation "'finish'" :=
  (arm64_finish DISASM_FLAG_PROLOGUE_EPILOGUE_HEURISTICS OPERANDS_SIZE FULL_DISASM_SIZE).
Local Notation "'decode'" :=
  (disasm_arm64 DISASM_FLAG_PROLOGUE_EPILOGUE_HEURISTICS MNEMONIC_SIZE OPERANDS_SIZE
                FULL_DISASM_SIZE category_zero branch_type_zero).
Local Notation "'decode_x86'" :=
  (disasm_x86_64 MNEMONIC_SIZE OPERANDS_SIZE FULL_DISASM_SIZE category_zero branch_type_zero).

(** Field assignments and projections, reduced on record literals. *)
Ltac inst_unfold :=
  cbv beta iota zeta delta
    [zeroed arm64_entry fmt_operands fmt_full_disasm or_regs_read or_regs_written
     set_address set_raw_bytes set_length set_mnemonic set_operands
     set_full_disasm set_category set_has_branch set_branch_type
     set_has_branch_target set_branch_target set_branch_offset set_updates_pc
     set_regs_read set_regs_written set_flags_written set_is_function_start
     set_is_function_end set_is_valid
     address raw_bytes inst_length mnemonic operands full_disasm category
     has_branch branch_type has_branch_target branch_target branch_offset
     updates_pc regs_read regs_written flags_written is_function_start
     is_function_end is_valid fst snd].

(** Case analysis on the tests of a cascade, innermost conditions first. *)
Ltac split_ifs :=
  repeat match goal with
         | |- context [if ?c then _ else _] =>
             lazymatch c with
             | context [if _ then _ else _] => fail
             | _ => destruct c eqn:?
             end
         end.

Ltac leaf :=
  unfold decoded_record, arm64_target_base; inst_unfold;
  repeat split; try reflexivity; try discriminate;
  try (intros [H | H]; discriminate H); try (intros H; discriminate H).

Ltac leaves f :=
  intros; unfold f, shift_name; cbv zeta; split_ifs; leaf.

(** The first cascade with the groups it can never enter left out. *)
Lemma arm64_decode_live (bytes addr : Z) (inst : DisassembledInstruction) :
  arm64_decode MNEMONIC_SIZE OPERANDS_SIZE bytes addr inst =
  let op0 := (bytes >> 25) .& 0xF in
  if (((bytes >> 26) .& 0x3F) =? 0x5) || (((bytes >> 26) .& 0x3F) =? 0x25)
  then arm64_b_bl OPERANDS_SIZE bytes addr inst
  else if ((bytes .& 0x9F000000) =? 0x10000000) || ((bytes .& 0x9F000000) =? 0x90000000)
  then arm64_adr_adrp OPERANDS_SIZE bytes addr inst
  else if (0x6B0 <=? ((bytes >> 21) .& 0x7FF)) && (((bytes >> 21) .& 0x7FF) <=? 0x6B3)
  then arm64_branch_reg OPERANDS_SIZE bytes inst
  else if (0x290 <=? ((bytes >> 22) .& 0x3FF)) && (((bytes >> 22) .& 0x3FF) <=? 0x2BF)
  then arm64_ldp_stp OPERANDS_SIZE bytes inst
  else if (op0 .& 0x8) =? 0x8 then arm64_dp_imm_group OPERANDS_SIZE bytes inst
  else if (((bytes >> 24) .& 0xFF) =? 0xF1) || (((bytes >> 24) .& 0xFF) =? 0x71) ||
          (((bytes >> 24) .& 0xFF) =? 0xEB) || (((bytes >> 24) .& 0xFF) =? 0x6B)
  then arm64_cmp_cmn OPERANDS_SIZE bytes inst
  else if (0x69A <=? ((bytes >> 21) .& 0x7FF)) && (((bytes >> 21) .& 0x7FF) <=? 0x69F)
  then arm64_shift OPERANDS_SIZE bytes inst
  else if (0x3A2 <=? ((bytes >> 21) .& 0x7FF)) && (((bytes >> 21) .& 0x7FF) <=? 0x3A3)
  then arm64_ccmp OPERANDS_SIZE bytes inst
  else if bytes =? 0xD503201F then arm64_nop inst
  else if (bytes >> 12) =? 0xD503301 then arm64_hint bytes inst
  else if (bytes >> 12) =? 0xD503309 then arm64_barrier OPERANDS_SIZE bytes inst
  else if (bytes >> 21) =? 0x6A1 then arm64_mrs_msr OPERANDS_SIZE bytes inst
  else inst.
Proof.
  unfold arm64_decode. cbv zeta.
  destruct ((((bytes >> 26) .& 0x3F) =? 0x5) || (((bytes >> 26) .& 0x3F) =? 0x25));
    [reflexivity|].
  destruct (((bytes .& 0x9F000000) =? 0x10000000) || ((bytes .& 0x9F000000) =? 0x90000000));
    [reflexivity|].
  destruct ((0x6B0 <=? ((bytes >> 21) .& 0x7FF)) && (((bytes >> 21) .& 0x7FF) <=? 0x6B3));
    [reflexivity|].
  destruct ((0x290 <=? ((bytes >> 22) .& 0x3FF)) && (((bytes >> 22) .& 0x3FF) <=? 0x2BF));
    [reflexivity|].
  destruct ((((bytes >> 25) .& 0xF) .& 0x8) =? 0x8) eqn:E; [reflexivity|].
  destruct (op0_bit3_clear _ E) as [-> ->]. reflexivity.
Qed.

Lemma b_bl_decoded bytes addr :
  decoded_record addr (arm64_b_bl OPERANDS_SIZE bytes addr (entry bytes addr)).
Proof. leaves arm64_b_bl. Qed.

Lemma adr_adrp_decoded bytes addr :
  decoded_record addr (arm64_adr_adrp OPERANDS_SIZE bytes addr (entry bytes addr)).
Proof. leaves arm64_adr_adrp. Qed.

Lemma branch_reg_decoded bytes addr :
  decoded_record addr (arm64_branch_reg OPERANDS_SIZE bytes (entry bytes addr)).
Proof. leaves arm64_branch_reg. Qed.

Lemma ldp_stp_decoded bytes addr :
  decoded_record addr (arm64_ldp_stp OPERANDS_SIZE bytes (entry bytes addr)).
Proof. leaves arm64_ldp_stp. Qed.

Lemma add_sub_imm_decoded bytes addr :
  decoded_record addr (arm64_add_sub_imm OPERANDS_SIZE bytes (entry bytes addr)).
Proof. leaves arm64_add_sub_imm. Qed.

Lemma mov_wide_decoded bytes addr :
  decoded_record addr (arm64_mov_wide OPERANDS_SIZE bytes (entry bytes addr)).
Proof. leaves arm64_mov_wide. Qed.

Lemma shift_decoded bytes addr :
  decoded_record addr (arm64_shift OPERANDS_SIZE bytes (entry bytes addr)).
Proof. leaves arm64_shift. Qed.

Lemma ccmp_decoded bytes addr :
  decoded_record addr (arm64_ccmp OPERANDS_SIZE bytes (entry bytes addr)).
Proof. leaves arm64_ccmp. Qed.

Lemma nop_decoded bytes addr : decoded_record addr (arm64_nop (entry bytes addr)).
Proof. leaves arm64_nop. Qed.

Lemma hint_decoded bytes addr : decoded_record addr (arm64_hint bytes (entry bytes addr)).
Proof. leaves arm64_hint. Qed.

Lemma barrier_decoded bytes addr :
  decoded_record addr (arm64_barrier OPERANDS_SIZE bytes (entry bytes addr)).
Proof. leaves arm64_barrier. Qed.

Lemma mrs_msr_decoded bytes addr :
  decoded_record addr (arm64_mrs_msr OPERANDS_SIZE bytes (entry bytes addr)).
Proof. leaves arm64_mrs_msr. Qed.

Lemma cmp_cmn_decoded bytes addr :
  decoded_record addr (arm64_cmp_cmn OPERANDS_SIZE bytes (entry bytes addr)) \/
  arm64_cmp_cmn OPERANDS_SIZE bytes (entry bytes addr) = entry bytes addr.
Proof.
  unfold arm64_cmp_cmn. cbv zeta. split_ifs; first [right; reflexivity | left; leaf].
Qed.

Lemma dp_imm_group_decoded bytes addr :
  decoded_record addr (arm64_dp_imm_group OPERANDS_SIZE bytes (entry bytes addr)) \/
  arm64_dp_imm_group OPERANDS_SIZE bytes (entry bytes addr) = entry bytes addr.
Proof.
  unfold arm64_dp_imm_group.
  destruct (_ || _); [left; apply add_sub_imm_decoded|].
  destruct (_ || _); [left; apply mov_wide_decoded|right; reflexivity].
Qed.

Lemma arm64_decode_spec bytes addr :
  decoded_record addr (arm64_decode MNEMONIC_SIZE OPERANDS_SIZE bytes addr (entry bytes addr)) \/
  arm64_decode MNEMONIC_SIZE OPERANDS_SIZE bytes addr (entry bytes addr) = entry bytes addr.
Proof.
  rewrite arm64_decode_live. cbv zeta.
  repeat match goal with
         | |- context [if ?c then _ else _] =>
             lazymatch c with
             | context [if _ then _ else _] => fail
             | _ => destruct c
             end
         end;
    auto using b_bl_decoded, adr_adrp_decoded, branch_reg_decoded, ldp_stp_decoded,
      dp_imm_group_decoded, cmp_cmn_decoded, shift_decoded, ccmp_decoded, nop_decoded,
      hint_decoded, barrier_decoded, mrs_msr_decoded.
Qed.

Lemma arm64_decode_generic_spec bytes addr :
  let r := arm64_decode_generic OPERANDS_SIZE bytes (entry bytes addr) in
  (decoded_record addr (fst r) /\
   (snd r = true ->
    mnemonic (fst r) = "FMOV" /\
    is_function_start (fst r) = false /\ is_function_end (fst r) = false)) \/
  r = (entry bytes addr, false).
Proof.
  cbv zeta. unfold arm64_decode_generic. cbv zeta.
  split_ifs; try (right; reflexivity); left; split;
    try (intros H; try discriminate H; inst_unfold; auto);
    leaf.
Qed.

(** The two cascades either produce text, and then the record has the
    properties of [decoded_record], or they leave the entry record as it
    was. *)
Lemma cascades_spec bytes addr :
  let r := cascades bytes addr in
  (decoded_record addr (fst r) /\
   (snd r = true ->
    mnemonic (fst r) = "FMOV" /\
    is_function_start (fst r) = false /\ is_function_end (fst r) = false)) \/
  r = (entry bytes addr, false).
Proof.
  cbv zeta. unfold arm64_cascades. cbv zeta.
  destruct (arm64_decode_spec bytes addr) as [H | H].
  - assert (Hv : is_valid (arm64_decode MNEMONIC_SIZE OPERANDS_SIZE bytes addr
                                        (entry bytes addr)) = true) by apply H.
    rewrite Hv. cbn [negb fst snd]. left. split; [exact H | discriminate].
  - rewrite H. change (is_valid (entry bytes addr)) with false. cbn [negb].
    apply arm64_decode_generic_spec.
Qed.

(** The ORR post-processing never applies: no reachable branch writes
    ["ORR"]. *)
Lemma orr_alias_cascades bytes addr :
  arm64_orr_alias OPERANDS_SIZE (fst (cascades bytes addr)) = fst (cascades bytes addr).
Proof.
  unfold arm64_orr_alias.
  destruct (cascades_spec bytes addr) as [[H _] | H].
  - destruct H as (_ & _ & -> & _). rewrite andb_false_r. reflexivity.
  - cbv zeta in H. rewrite H. reflexivity.
Qed.

Lemma disasm_arm64_stages ctx bytes addr :
  decode ctx bytes addr =
  if snd (cascades bytes addr) then fst (cascades bytes addr)
  else finish ctx bytes (fst (cascades bytes addr)).
Proof.
  unfold disasm_arm64. pose proof (orr_alias_cascades bytes addr) as H.
  destruct (cascades bytes addr) as [i r]. cbn [fst snd] in *.
  destruct r; [reflexivity|]. rewrite H. reflexivity.
Qed.

Lemma finish_fields ctx bytes i :
  let w := arm64_word_fallback OPERANDS_SIZE bytes i in
  let r := finish ctx bytes i in
  is_valid r = is_valid w /\ mnemonic r = mnemonic w /\ operands r = operands w /\
  category r = category w /\ regs_written r = regs_written w /\
  branch_type r = branch_type w /\ has_branch_target r = has_branch_target w /\
  branch_target r = branch_target w /\ branch_offset r = branch_offset w /\
  address r = address w.
Proof. cbv zeta. unfold arm64_finish. cbv zeta. repeat split. Qed.

Lemma word_fallback_valid bytes i :
  is_valid i = true -> arm64_word_fallback OPERANDS_SIZE bytes i = i.
Proof. unfold arm64_word_fallback. intros ->. reflexivity. Qed.

(** The record [disasm_arm64] returns: a decoded record returned from the
    FMOV case, a decoded record that went through the tail unchanged by the
    [".word"] fallback, or the entry record sent through the tail. *)
Lemma decoded_or_entry ctx bytes addr :
  let c := cascades bytes addr in
  let r := decode ctx bytes addr in
  (decoded_record addr (fst c) /\
   (r = fst c /\ mnemonic r = "FMOV" /\
    is_function_start r = false /\ is_function_end r = false
    \/ r = finish ctx bytes (fst c) /\
       arm64_word_fallback OPERANDS_SIZE bytes (fst c) = fst c))
  \/ (fst c = entry bytes addr /\ r = finish ctx bytes (entry bytes addr)).
Proof.
  cbv zeta. rewrite disasm_arm64_stages.
  destruct (cascades_spec bytes addr) as [[Hd Hret] | He].
  - left. split; [exact Hd|].
    destruct (snd (cascades bytes addr)).
    + left. destruct (Hret eq_refl) as (? & ? & ?). auto.
    + right. split; [reflexivity|]. apply word_fallback_valid. apply Hd.
  - right. cbv zeta in He. rewrite He. cbn [fst snd]. auto.
Qed.

(** The flag as the context API sets and clears it. *)
Lemma heuristics_after_disable (c : DisassemblyContext) :
  heuristics_enabled DISASM_FLAG_PROLOGUE_EPILOGUE_HEURISTICS
    (Some (disasm_disable_flag c DISASM_FLAG_PROLOGUE_EPILOGUE_HEURISTICS)) = false.
Proof.
  unfold heuristics_enabled, disasm_disable_flag, to_uint32. cbn [flags].
  replace (_ .& _ .& _) with 0; [reflexivity|].
  symmetry. apply Z.bits_inj'. intros n Hn.
  rewrite !Z.land_spec, Z.bits_0.
  destruct (Z.ltb_spec n 32).
  - rewrite Z.mod_pow2_bits_low, Z.lnot_spec by lia.
    destruct (Z.testbit DISASM_FLAG_PROLOGUE_EPILOGUE_HEURISTICS n);
      cbn; rewrite ?andb_false_r; reflexivity.
  - rewrite Z.mod_pow2_bits_high by lia. rewrite andb_false_r. reflexivity.
Qed.

Lemma heuristics_after_enable (c : DisassemblyContext) :
  DISASM_FLAG_PROLOGUE_EPILOGUE_HEURISTICS <> 0 ->
  heuristics_enabled DISASM_FLAG_PROLOGUE_EPILOGUE_HEURISTICS
    (Some (disasm_enable_flag c DISASM_FLAG_PROLOGUE_EPILOGUE_HEURISTICS)) = true.
Proof.
  intros H. unfold heuristics_enabled, disasm_enable_flag. cbn [flags].
  replace (_ .& _) with DISASM_FLAG_PROLOGUE_EPILOGUE_HEURISTICS.
  - apply Z.eqb_neq in H. rewrite H. reflexivity.
  - symmetry. apply Z.bits_inj'. intros n Hn.
    rewrite Z.land_spec, Z.lor_spec.
    destruct (Z.testbit DISASM_FLAG_PROLOGUE_EPILOGUE_HEURISTICS n);
      rewrite ?orb_true_r, ?andb_false_r; reflexivity.
Qed.

Lemma heuristics_by_default :
  DISASM_FLAG_PROLOGUE_EPILOGUE_HEURISTICS <> 0 ->
  heuristics_enabled DISASM_FLAG_PROLOGUE_EPILOGUE_HEURISTICS
    (Some (disasm_create DISASM_FLAG_PROLOGUE_EPILOGUE_HEURISTICS)) = true.
Proof.
  intros H. unfold heuristics_enabled, disasm_create. cbn [flags].
  rewrite Z.land_diag. apply Z.eqb_neq in H. rewrite H. reflexivity.
Qed.

Lemma epilogue_of_ret ctx i :
  mnemonic i = "RET" ->
  arm64_is_epilogue DISASM_FLAG_PROLOGUE_EPILOGUE_HEURISTICS ctx i = true.
Proof. unfold arm64_is_epilogue. intros ->. reflexivity. Qed.

(** The two heuristics on the record the tail of [disasm_arm64] returns. *)
Lemma finish_marks ctx bytes i :
  let r := finish ctx bytes i in
  let enabled := heuristics_enabled DISASM_FLAG_PROLOGUE_EPILOGUE_HEURISTICS ctx in
  is_function_start r =
    (enabled && (strstr (mnemonic r) "STP" && strstr (operands r) "X29" &&
                 strstr (operands r) "X30" && strstr (operands r) "#-")) /\
  is_function_end r =
    (streq (mnemonic r) "RET" ||
     (enabled && (strstr (mnemonic r) "LDP" && strstr (operands r) "X29" &&
                  strstr (operands r) "X30"))).
Proof.
  cbv zeta. unfold arm64_finish. cbv zeta.
  generalize (arm64_word_fallback OPERANDS_SIZE bytes i). intros w.
  unfold arm64_is_prologue, arm64_is_epilogue.
  change (mnemonic (set_is_function_end _ _)) with (mnemonic w).
  change (operands (set_is_function_end _ _)) with (operands w).
  change (mnemonic (fmt_full_disasm FULL_DISASM_SIZE w)) with (mnemonic w).
  change (operands (fmt_full_disasm FULL_DISASM_SIZE w)) with (operands w).
  change (mnemonic (set_is_function_start _ (fmt_full_disasm FULL_DISASM_SIZE w)))
    with (mnemonic w).
  change (operands (set_is_function_start _ (fmt_full_disasm FULL_DISASM_SIZE w)))
    with (operands w).
  change (is_function_start (set_is_function_end ?b (set_is_function_start ?a ?x))) with a.
  change (is_function_end (set_is_function_end ?b ?x)) with b.
  destruct (heuristics_enabled _ ctx); cbn [negb andb orb].
  - split.
    + destruct (_ && _ && _ && _); reflexivity.
    + destruct (streq (mnemonic w) "RET"); [reflexivity|].
      destruct (_ && _ && _); reflexivity.
  - split; [reflexivity|]. destruct (streq (mnemonic w) "RET"); reflexivity.
Qed.

Lemma x86_target code addr :
  let r := decode_x86 code addr in
  has_branch_target r = true -> branch_offset r <> 0 ->
  branch_target r = to_uint64 (address r + inst_length r + branch_offset r).
Proof.
  cbv zeta.
  unfold disasm_x86_64, x86_decode, x86_ret, x86_simple, x86_rel32, x86_jmp_rel8,
    x86_jcc_rel8, x86_push_pop, x86_two_byte.
  cbv zeta. split_ifs; inst_unfold; intros H H0; try discriminate H;
    try (exfalso; apply H0; reflexivity); try reflexivity.
  all: f_equal; lia.
Qed.

(** C1 (amended).  In a record of [disasm_arm64] with a branch target, the
    target is the address plus the offset modulo 2^64, except that an ADRP
    record counts from the 4 KiB page of the address; in a record of
    [disasm_x86_64] with a target and a non-zero offset (the Jcc rel8
    records), the target is the address of the next instruction plus the
    offset. *)
Theorem branch_target_relation (ctx : option DisassemblyContext) (bytes addr : Z)
        (code : list byte) :
  (let r := decode ctx bytes addr in
   has_branch_target r = true ->
   branch_target r = to_uint64 (arm64_target_base r + branch_offset r)) /\
  (let r := decode_x86 code addr in
   has_branch_target r = true -> branch_offset r <> 0 ->
   branch_target r = to_uint64 (address r + inst_length r + branch_offset r)).
Proof.
  split; [|apply x86_target]. cbv zeta.
  destruct (decoded_or_entry ctx bytes addr) as [[Hd [(-> & _) | (-> & Hw)]] | (He & ->)].
  - apply Hd.
  - unfold arm64_target_base.
    destruct (finish_fields ctx bytes (fst (cascades bytes addr)))
      as (_ & -> & _ & _ & _ & _ & -> & -> & -> & ->).
    rewrite Hw. apply Hd.
  - intros H. discriminate H.
Qed.

(** C2.  For every word and address [disasm_arm64] produces a record with
    [is_valid = true] and a non-empty mnemonic; a word that no branch of the
    two cascades recognises becomes [".word"] with category unknown and the
    operand text ["0x%08X"] of the word, which is ["0x"] and eight digits
    whenever the operand array holds eleven characters. *)
Theorem arm64_always_valid (ctx : option DisassemblyContext) (bytes addr : Z) :
  let r := decode ctx bytes addr in
  is_valid r = true /\
  mnemonic r <> "" /\
  (is_valid (fst (cascades bytes addr)) = false ->
   mnemonic r = ".word" /\
   category r = INST_CATEGORY_UNKNOWN /\
   operands r = snprintf OPERANDS_SIZE ("0x" +++ fmt_0X 8 bytes) /\
   ((11 <= OPERANDS_SIZE)%nat -> operands r = "0x" +++ fmt_0X 8 bytes)).
Proof.
  cbv zeta.
  destruct (decoded_or_entry ctx bytes addr) as [[Hd [(-> & _) | (-> & Hw)]] | (He & ->)].
  - destruct Hd as (Hv & Hm & _).
    split; [exact Hv | split; [exact Hm | intros H; rewrite Hv in H; discriminate H]].
  - destruct Hd as (Hv & Hm & _).
    destruct (finish_fields ctx bytes (fst (cascades bytes addr))) as (-> & -> & _).
    rewrite Hw.
    split; [exact Hv | split; [exact Hm | intros H; rewrite Hv in H; discriminate H]].
  - destruct (finish_fields ctx bytes (entry bytes addr)) as (-> & -> & -> & -> & _).
    split; [reflexivity|]. split; [discriminate|]. intros _.
    split; [reflexivity|]. split; [reflexivity|]. split; [reflexivity|].
    intros Hsz. unfold arm64_word_fallback.
    inst_unfold. cbn [negb]. inst_unfold. apply snprintf_fits. cbn. lia.
Qed.

(** C3 (the code at the failing inputs).  CMP X0, #0 and CMN X0, #0 are taken
    by the ADD/SUB-immediate branch, which looks for the S bit at bit 20;
    CMN X0, X1 is taken by the LDP/STP range test and CMN W0, W1 falls
    through to [".word"]; CCMP X0, X1, #0, EQ is taken by the generic
    load/store fallback.  None of the five records has the NZCV nibble set.
    CMP X0, X1 does reach the CMP branch. *)
Theorem compare_words_lose_flags (ctx : option DisassemblyContext) (addr : Z) :
  (mnemonic (decode ctx 0xF100001F addr) = "SUB" /\
   flags_written (decode ctx 0xF100001F addr) = 0) /\
  (mnemonic (decode ctx 0xB100001F addr) = "ADD" /\
   flags_written (decode ctx 0xB100001F addr) = 0) /\
  (mnemonic (decode ctx 0xAB01001F addr) = "STP" /\
   flags_written (decode ctx 0xAB01001F addr) = 0) /\
  (mnemonic (decode ctx 0x2B01001F addr) = ".word" /\
   flags_written (decode ctx 0x2B01001F addr) = 0) /\
  (mnemonic (decode ctx 0xFA410000 addr) = "LDR" /\
   flags_written (decode ctx 0xFA410000 addr) = 0) /\
  (mnemonic (decode ctx 0xEB01001F addr) = "CMP" /\
   flags_written (decode ctx 0xEB01001F addr) = 0xF).
Proof. repeat split; reflexivity. Qed.

(** C4.  A record decoded as BL or BLR has bit 30 of [regs_written] set; a
    record decoded as RET has [branch_type = BRANCH_RETURN] and
    [is_function_end = true]; the word 0x94000003 at 0x1000 is BL with
    target 0x100C, a call, with bit 30 written; the word 0xD65F03C0 is RET at
    any address. *)
Theorem link_and_return_records (ctx : option DisassemblyContext) (bytes addr : Z) :
  let r := decode ctx bytes addr in
  (mnemonic r = "BL" \/ mnemonic r = "BLR" -> Z.testbit (regs_written r) 30 = true) /\
  (mnemonic r = "RET" -> branch_type r = BRANCH_RETURN /\ is_function_end r = true) /\
  (let s2 := decode ctx 0x94000003 0x1000 in
   mnemonic s2 = "BL" /\ branch_target s2 = 0x100C /\
   branch_type s2 = BRANCH_CALL /\ Z.testbit (regs_written s2) 30 = true) /\
  (let s3 := decode ctx 0xD65F03C0 addr in
   mnemonic s3 = "RET" /\ branch_type s3 = BRANCH_RETURN /\ is_function_end s3 = true).
Proof.
  cbv zeta. split; [|split; [|split; [repeat split; reflexivity | repeat split; reflexivity]]].
  - destruct (decoded_or_entry ctx bytes addr) as [[Hd [(-> & _) | (-> & Hw)]] | (He & ->)].
    + apply Hd.
    + destruct (finish_fields ctx bytes (fst (cascades bytes addr)))
        as (_ & -> & _ & _ & -> & _).
      rewrite Hw. apply Hd.
    + intros [H | H]; discriminate H.
  - destruct (decoded_or_entry ctx bytes addr)
      as [[Hd [(-> & Hf & _) | (-> & Hw)]] | (He & ->)].
    + intros H. rewrite H in Hf. discriminate Hf.
    + destruct (finish_marks ctx bytes (fst (cascades bytes addr))) as (_ & ->).
      destruct (finish_fields ctx bytes (fst (cascades bytes addr)))
        as (_ & -> & _ & _ & _ & -> & _).
      rewrite Hw. intros H. split; [apply Hd; exact H|].
      rewrite H. reflexivity.
    + intros H; discriminate H.
Qed.

(** C5.  RET marks the end of a function whatever the flag.  With the flag
    set, an STP record whose operand text contains X29, X30 and a negative
    immediate (the text ["#-"]) is marked as a function start, and an LDP
    record whose operand text contains X29 and X30 is marked as a function
    end.  With the flag cleared no record is marked as a start and only RET
    is marked as an end. *)
Theorem prologue_epilogue_marks (ctx : option DisassemblyContext) (bytes addr : Z) :
  let r := decode ctx bytes addr in
  let enabled := heuristics_enabled DISASM_FLAG_PROLOGUE_EPILOGUE_HEURISTICS ctx in
  (mnemonic r = "RET" -> is_function_end r = true) /\
  (enabled = true ->
   (mnemonic r = "STP" ->
    strstr (operands r) "X29" = true -> strstr (operands r) "X30" = true ->
    strstr (operands r) "#-" = true -> is_function_start r = true) /\
   (mnemonic r = "LDP" ->
    strstr (operands r) "X29" = true -> strstr (operands r) "X30" = true ->
    is_function_end r = true)) /\
  (enabled = false ->
   is_function_start r = false /\
   (is_function_end r = true -> mnemonic r = "RET")).
Proof.
  cbv zeta.
  assert (Hfin : forall i,
             decode ctx bytes addr = finish ctx bytes i ->
             (mnemonic (decode ctx bytes addr) = "RET" ->
              is_function_end (decode ctx bytes addr) = true) /\
             (heuristics_enabled DISASM_FLAG_PROLOGUE_EPILOGUE_HEURISTICS ctx = true ->
              (mnemonic (decode ctx bytes addr) = "STP" ->
               strstr (operands (decode ctx bytes addr)) "X29" = true ->
               strstr (operands (decode ctx bytes addr)) "X30" = true ->
               strstr (operands (decode ctx bytes addr)) "#-" = true ->
               is_function_start (decode ctx bytes addr) = true) /\
              (mnemonic (decode ctx bytes addr) = "LDP" ->
               strstr (operands (decode ctx bytes addr)) "X29" = true ->
               strstr (operands (decode ctx bytes addr)) "X30" = true ->
               is_function_end (decode ctx bytes addr) = true)) /\
             (heuristics_enabled DISASM_FLAG_PROLOGUE_EPILOGUE_HEURISTICS ctx = false ->
              is_function_start (decode ctx bytes addr) = false /\
              (is_function_end (decode ctx bytes addr) = true ->
               mnemonic (decode ctx bytes addr) = "RET"))).
  { intros i ->. destruct (finish_marks ctx bytes i) as (-> & ->).
    split; [intros ->; reflexivity|]. split.
    - intros ->. split.
      + intros -> -> -> ->. reflexivity.
      + intros -> -> ->. apply orb_true_r.
    - intros ->. cbn [andb]. rewrite orb_false_r. split; [reflexivity|].
      apply String.eqb_eq. }
  destruct (decoded_or_entry ctx bytes addr)
    as [[_ [(_ & Hf & Hs & He) | (Hr & _)]] | (_ & Hr)].
  - rewrite Hf, Hs, He. repeat split; try discriminate.
  - exact (Hfin _ Hr).
  - exact (Hfin _ Hr).
Qed.

(** ** Fields of the AArch64 record beyond the text *)

Import DisasmTools.

Ltac coherent_leaf :=
  unfold coherent_record, branch_forms; inst_unfold;
  repeat split; try reflexivity; try discriminate;
  try (intros H; discriminate H);
  try (cbn [In]; auto 10; fail);
  try (exfalso;
       repeat match goal with
              | H : (_ =? _) = true |- _ => apply Z.eqb_eq in H
              end; lia).

Lemma arm64_decode_coherent bytes addr :
  coherent_record bytes addr
    (arm64_decode MNEMONIC_SIZE OPERANDS_SIZE bytes addr (entry bytes addr)) \/
  arm64_decode MNEMONIC_SIZE OPERANDS_SIZE bytes addr (entry bytes addr) = entry bytes addr.
Proof.
  rewrite arm64_decode_live. cbv zeta.
  repeat match goal with
         | |- context [if ?c then _ else _] =>
             lazymatch c with
             | context [if _ then _ else _] => fail
             | _ => destruct c
             end
         end;
    try (right; reflexivity);
    unfold arm64_b_bl, arm64_adr_adrp, arm64_branch_reg, arm64_ldp_stp, arm64_dp_imm_group,
      arm64_add_sub_imm, arm64_mov_wide, arm64_cmp_cmn, arm64_shift, arm64_ccmp, arm64_nop,
      arm64_hint, arm64_barrier, arm64_mrs_msr, shift_name;
    cbv zeta; split_ifs; first [right; reflexivity | left; coherent_leaf].
Qed.

Lemma arm64_decode_generic_coherent bytes addr :
  let r := arm64_decode_generic OPERANDS_SIZE bytes (entry bytes addr) in
  coherent_record bytes addr (fst r) \/ r = (entry bytes addr, false).
Proof.
  cbv zeta. unfold arm64_decode_generic. cbv zeta.
  split_ifs; first [right; reflexivity | left; coherent_leaf].
Qed.

Lemma cascades_coherent bytes addr :
  coherent_record bytes addr (fst (cascades bytes addr)) \/
  cascades bytes addr = (entry bytes addr, false).
Proof.
  unfold arm64_cascades. cbv zeta.
  destruct (arm64_decode_spec bytes addr) as [Hd | He].
  - assert (Hv : is_valid (arm64_decode MNEMONIC_SIZE OPERANDS_SIZE bytes addr
                                        (entry bytes addr)) = true) by apply Hd.
    rewrite Hv. cbn [negb fst].
    destruct (arm64_decode_coherent bytes addr) as [H | H]; [left; exact H|].
    rewrite H in Hv. discriminate Hv.
  - rewrite He. change (is_valid (entry bytes addr)) with false. cbn [negb].
    apply arm64_decode_generic_coherent.
Qed.

(** The tail of [disasm_arm64] leaves a valid record's fields alone, the
    listing line and the two marks apart. *)
Lemma finish_coherent ctx bytes addr i :
  is_valid i = true -> coherent_record bytes addr i ->
  coherent_record bytes addr (finish ctx bytes i).
Proof.
  intros Hv H. unfold arm64_finish. cbv zeta.
  rewrite (word_fallback_valid _ _ Hv). exact H.
Qed.

Lemma disasm_arm64_coherent ctx bytes addr :
  coherent_record bytes addr (decode ctx bytes addr) \/
  word_record bytes addr (decode ctx bytes addr).
Proof.
  rewrite disasm_arm64_stages.
  destruct (cascades_spec bytes addr) as [[Hd _] | He].
  - left. destruct (cascades_coherent bytes addr) as [H | H].
    + destruct (snd (cascades bytes addr)); [exact H|].
      apply finish_coherent; [apply Hd | exact H].
    + rewrite H in Hd. destruct Hd as [Hv _]. discriminate Hv.
  - right. cbv zeta in He. rewrite He. cbn [fst snd].
    unfold word_record, arm64_finish, arm64_word_fallback. inst_unfold.
    cbn [negb]. inst_unfold. repeat split.
Qed.

(** X1.  Every record of [disasm_arm64] carries the address it was given,
    the word it was given and the length 4, and its category is
    [INST_CATEGORY_UNKNOWN] exactly when it is the [".word"] record. *)
Theorem arm64_record_header (ctx : option DisassemblyContext) (bytes addr : Z) :
  let r := disasm_arm64 DISASM_FLAG_PROLOGUE_EPILOGUE_HEURISTICS MNEMONIC_SIZE OPERANDS_SIZE
                        FULL_DISASM_SIZE category_zero branch_type_zero ctx bytes addr in
  address r = addr /\ raw_bytes r = bytes /\ inst_length r = 4 /\
  (category r = INST_CATEGORY_UNKNOWN <-> mnemonic r = ".word").
Proof.
  cbv zeta.
  destruct (disasm_arm64_coherent ctx bytes addr)
    as [(Ha & Hb & Hl & Hc & Hm & _) | (Ha & Hb & Hl & Hc & Hm & _)].
  - repeat split; auto; intros H; contradiction.
  - repeat split; auto.
Qed.

(** X2.  The control transfers [disasm_arm64] reports are B, BL, BR, BLR,
    RET and BRAA, each with its branch type and never a conditional one:
    [has_branch] and [updates_pc] are set together and exactly in the
    records of category [INST_CATEGORY_BRANCH], and a branch target is
    given for B, BL, ADR and ADRP only. *)
Theorem arm64_control_transfers (ctx : option DisassemblyContext) (bytes addr : Z) :
  let r := disasm_arm64 DISASM_FLAG_PROLOGUE_EPILOGUE_HEURISTICS MNEMONIC_SIZE OPERANDS_SIZE
                        FULL_DISASM_SIZE category_zero branch_type_zero ctx bytes addr in
  updates_pc r = has_branch r /\
  (has_branch r = true <-> category r = INST_CATEGORY_BRANCH) /\
  (has_branch r = true -> In (mnemonic r, branch_type r) branch_forms) /\
  (has_branch r = true -> branch_type r <> BRANCH_CONDITIONAL) /\
  (has_branch_target r = true -> In (mnemonic r) ["B"; "BL"; "ADR"; "ADRP"]).
Proof.
  cbv zeta.
  destruct (disasm_arm64_coherent ctx bytes addr)
    as [(_ & _ & _ & _ & _ & Hu & Hb & Hn & Ht) |
        (_ & _ & _ & Hc & _ & Hb & Hu & Ht)].
  - split; [exact Hu|]. split.
    + split; [intros H; apply (Hb H)|].
      intros Hc. destruct (has_branch _) eqn:E; [reflexivity|].
      exfalso. exact (Hn eq_refl Hc).
    + split; [intros H; apply (Hb H)|]. split; [|exact Ht].
      intros H Hcond. destruct (Hb H) as [_ Hin]. rewrite Hcond in Hin.
      unfold branch_forms in Hin. cbn [In] in Hin.
      repeat (destruct Hin as [Hin | Hin]; [discriminate Hin|]). exact Hin.
  - rewrite Hb, Hu, Ht, Hc. repeat split; try discriminate.
Qed.

(** ** The x86-64 record *)

Lemma x86_shape code addr :
  let r := decode_x86 code addr in
  is_valid r = true /\ address r = addr /\ 1 <= inst_length r <= 6 /\
  (has_branch r = true -> category r = INST_CATEGORY_BRANCH) /\
  is_function_start r = false /\
  (is_function_end r = true -> has_branch r = true /\ branch_type r = BRANCH_RETURN).
Proof.
  cbv zeta.
  unfold disasm_x86_64, x86_decode, x86_ret, x86_simple, x86_rel32, x86_jmp_rel8,
    x86_jcc_rel8, x86_push_pop, x86_two_byte.
  cbv zeta.
  destruct ((0x40 <=? byte_at code 0) && (byte_at code 0 <=? 0x4F));
    cbv beta iota;
    change (0 + 1 + 1) with 2; change (0 + 1) with 1;
    change (2 + 4 <=? 15) with true; change (1 + 4 <=? 15) with true;
    change (2 + 2 <=? 15) with true; change (1 + 2 <=? 15) with true;
    change (2 <? 15) with true; change (1 <? 15) with true;
    cbv beta iota;
    split_ifs; inst_unfold;
    repeat split; try reflexivity; try discriminate; try lia;
    try (intros H; discriminate H).
Qed.

(** X3.  [disasm_x86_64] accepts every byte sequence: the record is valid,
    carries the address it was given and a length between 1 and 6 (so a
    caller that advances by the length always makes progress), is never
    marked as a function start, and is marked as a function end only when
    it is a return. *)
Theorem x86_record_progress (code : list byte) (addr : Z) :
  let r := disasm_x86_64 MNEMONIC_SIZE OPERANDS_SIZE FULL_DISASM_SIZE category_zero
                         branch_type_zero code addr in
  is_valid r = true /\ address r = addr /\ 1 <= inst_length r <= 6 /\
  (has_branch r = true -> category r = INST_CATEGORY_BRANCH) /\
  is_function_start r = false /\
  (is_function_end r = true -> has_branch r = true /\ branch_type r = BRANCH_RETURN).
Proof. exact (x86_shape code addr). Qed.

(** ** What the driver needs of the two decoders *)

Lemma disasm_arm64_is_valid ctx bytes addr : is_valid (decode ctx bytes addr) = true.
Proof.
  destruct (decoded_or_entry ctx bytes addr) as [[Hd [(-> & _) | (-> & Hw)]] | (He & ->)].
  - apply Hd.
  - destruct (finish_fields ctx bytes (fst (cascades bytes addr))) as (-> & _).
    rewrite Hw. apply Hd.
  - destruct (finish_fields ctx bytes (entry bytes addr)) as (-> & _). reflexivity.
Qed.

Lemma no_start_without_flag ctx bytes addr :
  heuristics_enabled DISASM_FLAG_PROLOGUE_EPILOGUE_HEURISTICS ctx = false ->
  is_function_start (decode ctx bytes addr) = false.
Proof.
  intros Hoff.
  destruct (decoded_or_entry ctx bytes addr)
    as [[_ [(_ & _ & Hs & _) | (Hr & _)]] | (_ & Hr)]; [exact Hs | |];
    rewrite Hr;
    match goal with
    | |- is_function_start (finish ctx bytes ?i) = false =>
        destruct (finish_marks ctx bytes i) as [Hm _]
    end;
    rewrite Hm, Hoff; reflexivity.
Qed.

End DecoderFacts.

(** C1 as the specification words it fails: an ADRP at an address that is
    not page-aligned, and a Jcc rel8. *)
Lemma branch_target_invariant_fails :
  ~ Disasm.branch_target_invariant (Disasm.sample_arm64 None 0x90000020 0x1004) /\
  ~ Disasm.branch_target_invariant (Disasm.sample_x86_64 [x74; x05] 0x1000).
Proof.
  split; intros H; specialize (H eq_refl); vm_compute in H;
    match type of H with
    | _ -> ?a = ?b => assert (X : a = b) by (apply H; discriminate); discriminate X
    end.
Qed.

Lemma branch_target_relation_witness :
  Disasm.branch_target (Disasm.sample_arm64 None 0x90000020 0x1004) = 0x5000 /\
  Disasm.branch_target (Disasm.sample_x86_64 [x74; x05] 0x1000) = 0x1007.
Proof.
  destruct (branch_target_relation 1 16 64 128 Disasm.INST_CATEGORY_UNKNOWN
              Disasm.BRANCH_NONE None 0x90000020 0x1004 [x74; x05]) as [Harm _].
  destruct (branch_target_relation 1 16 64 128 Disasm.INST_CATEGORY_UNKNOWN
              Disasm.BRANCH_NONE None 0 0x1000 [x74; x05]) as [_ Hx86].
  split.
  - unfold Disasm.sample_arm64. rewrite (Harm eq_refl). reflexivity.
  - unfold Disasm.sample_x86_64. rewrite Hx86.
    + reflexivity.
    + reflexivity.
    + vm_compute. discriminate.
Defined.

Lemma arm64_always_valid_witness :
  Disasm.is_valid (Disasm.sample_arm64 None 0 0x4000) = true /\
  Disasm.mnemonic (Disasm.sample_arm64 None 0 0x4000) = ".word" /\
  Disasm.operands (Disasm.sample_arm64 None 0 0x4000) = "0x00000000".
Proof.
  destruct (arm64_always_valid 1 16 64 128 Disasm.INST_CATEGORY_UNKNOWN
              Disasm.BRANCH_NONE None 0 0x4000) as (Hvalid & _ & Hword).
  destruct (Hword eq_refl) as (Hmnemonic & _ & _ & Hoperands).
  split; [exact Hvalid|]. split; [exact Hmnemonic|].
  apply Hoperands. lia.
Defined.

Lemma link_and_return_records_witness :
  Z.testbit (Disasm.regs_written (Disasm.sample_arm64 None 0x94000003 0x1000)) 30 = true /\
  Disasm.branch_type (Disasm.sample_arm64 None 0xD65F03C0 0x2000) = Disasm.BRANCH_RETURN /\
  Disasm.is_function_end (Disasm.sample_arm64 None 0xD65F03C0 0x2000) = true.
Proof.
  destruct (link_and_return_records 1 16 64 128 Disasm.INST_CATEGORY_UNKNOWN
              Disasm.BRANCH_NONE None 0x94000003 0x1000) as (Hlink & _).
  destruct (link_and_return_records 1 16 64 128 Disasm.INST_CATEGORY_UNKNOWN
              Disasm.BRANCH_NONE None 0xD65F03C0 0x2000) as (_ & Hret & _).
  split.
  - apply Hlink. left. reflexivity.
  - apply Hret. reflexivity.
Defined.

Lemma prologue_epilogue_marks_witness :
  Disasm.is_function_start (Disasm.sample_arm64 Disasm.heuristics_on 0xA9BF7BFD 0x2000) = true /\
  Disasm.is_function_end (Disasm.sample_arm64 Disasm.heuristics_on 0xA8C17BFD 0x2040) = true /\
  Disasm.is_function_start (Disasm.sample_arm64 Disasm.heuristics_off 0xA9BF7BFD 0x2000) = false /\
  Disasm.is_function_end (Disasm.sample_arm64 Disasm.heuristics_off 0xD65F03C0 0x2044) = true.
Proof.
  destruct (prologue_epilogue_marks 1 16 64 128 Disasm.INST_CATEGORY_UNKNOWN
              Disasm.BRANCH_NONE Disasm.heuristics_on 0xA9BF7BFD 0x2000) as (_ & Hon & _).
  destruct (Hon eq_refl) as (Hstp & _).
  destruct (prologue_epilogue_marks 1 16 64 128 Disasm.INST_CATEGORY_UNKNOWN
              Disasm.BRANCH_NONE Disasm.heuristics_on 0xA8C17BFD 0x2040) as (_ & Hon' & _).
  destruct (Hon' eq_refl) as (_ & Hldp).
  destruct (prologue_epilogue_marks 1 16 64 128 Disasm.INST_CATEGORY_UNKNOWN
              Disasm.BRANCH_NONE Disasm.heuristics_off 0xA9BF7BFD 0x2000) as (_ & _ & Hoff).
  destruct (Hoff eq_refl) as (Hnostart & _).
  destruct (prologue_epilogue_marks 1 16 64 128 Disasm.INST_CATEGORY_UNKNOWN
              Disasm.BRANCH_NONE Disasm.heuristics_off 0xD65F03C0 0x2044) as (Hret & _).
  split; [apply Hstp; reflexivity|].
  split; [apply Hldp; reflexivity|].
  split; [exact Hnostart|].
  apply Hret. reflexivity.
Defined.

(** ** The runtime-symbol scanner *)

Section ClassDumpFacts.

Import ClassDump.

Lemma add_class_unique r n : unique_keys r -> unique_keys (add_class_to_result r n).
Proof.
  intros (Hc & Hk & Hp). unfold add_class_to_result.
  destruct (class_dump_find_class r n) eqn:E; [repeat split; assumption|].
  repeat split; try assumption.
  unfold class_keys. cbn. rewrite map_app. cbn. apply NoDup_snoc; [exact Hc|].
  intros Hin. apply in_map_iff in Hin. destruct Hin as (c & Hn & Hin).
  pose proof (find_index_none _ _ E c Hin) as F. cbn in F.
  unfold class_dump_string_equals, streq in F.
  rewrite Hn, String.eqb_refl in F. discriminate.
Qed.

Lemma add_protocol_unique r n : unique_keys r -> unique_keys (add_protocol_to_result r n).
Proof.
  intros (Hc & Hk & Hp). unfold add_protocol_to_result.
  destruct (class_dump_find_protocol r n) eqn:E; [repeat split; assumption|].
  repeat split; try assumption.
  unfold protocol_keys. cbn. rewrite map_app. cbn. apply NoDup_snoc; [exact Hp|].
  intros Hin. apply in_map_iff in Hin. destruct Hin as (c & Hn & Hin).
  pose proof (find_index_none _ _ E c Hin) as F. cbn in F.
  unfold class_dump_string_equals, streq in F.
  rewrite Hn, String.eqb_refl in F. discriminate.
Qed.

(** [add_category_to_result] compares the category name alone; an entry it
    appends therefore cannot repeat a (class, category) pair. *)
Lemma add_category_unique r n : unique_keys r -> unique_keys (add_category_to_result r n).
Proof.
  intros (Hc & Hk & Hp). unfold add_category_to_result.
  destruct (existsb _ (categories r)) eqn:E; [repeat split; assumption|].
  repeat split; try assumption.
  unfold category_keys. cbn. rewrite map_app. cbn. apply NoDup_snoc; [exact Hk|].
  intros Hin. apply in_map_iff in Hin. destruct Hin as (c & Hn & Hin).
  pose proof (existsb_false _ _ E c Hin) as F. cbn in F.
  injection Hn as _ Hn.
  unfold class_dump_string_equals, streq in F.
  rewrite Hn, String.eqb_refl in F. discriminate.
Qed.

Lemma add_category_with_class_unique r c k :
  unique_keys r -> unique_keys (fst (class_dump_add_category_with_class r c k)).
Proof.
  intros (Hc & Hk & Hp). unfold class_dump_add_category_with_class.
  destruct (class_dump_find_category r c k) eqn:E; [repeat split; assumption|].
  repeat split; try assumption.
  unfold category_keys. cbn. rewrite map_app. cbn. apply NoDup_snoc; [exact Hk|].
  intros Hin. apply in_map_iff in Hin. destruct Hin as (x & Hn & Hin).
  pose proof (find_index_none _ _ E x Hin) as F. cbn in F.
  injection Hn as Hn1 Hn2.
  unfold class_dump_string_equals, streq in F.
  rewrite Hn1, Hn2, !String.eqb_refl in F. discriminate.
Qed.

Lemma update_class_unique r idx f :
  (forall c, className (f c) = className c) ->
  unique_keys r -> unique_keys (update_class r idx f).
Proof.
  intros Hf (Hc & Hk & Hp). repeat split; try assumption.
  unfold class_keys, update_class. cbn. rewrite map_update_nth; assumption.
Qed.

Lemma update_category_unique r idx f :
  (forall c, (cat_className (f c), categoryName (f c)) = (cat_className c, categoryName c)) ->
  unique_keys r -> unique_keys (update_category r idx f).
Proof.
  intros Hf (Hc & Hk & Hp). repeat split; try assumption.
  unfold category_keys, update_category. cbn.
  rewrite (map_update_nth (fun c => (cat_className c, categoryName c))); assumption.
Qed.

Lemma find_or_add_class_unique r n :
  unique_keys r -> unique_keys (fst (find_or_add_class r n)).
Proof.
  intros H. unfold find_or_add_class.
  destruct (class_dump_find_class r n); cbn; [exact H | apply add_class_unique; exact H].
Qed.

Lemma add_method_class_name c m b :
  className (class_dump_add_method_to_class c m b) = className c.
Proof. destruct b; reflexivity. Qed.

Lemma add_method_category_key c m b :
  (cat_className (class_dump_add_method_to_category c m b),
   categoryName (class_dump_add_method_to_category c m b)) = (cat_className c, categoryName c).
Proof. destruct b; reflexivity. Qed.

Lemma record_method_unique r cp mp b :
  unique_keys r -> unique_keys (record_method r cp mp b).
Proof.
  intros H. unfold record_method.
  match goal with |- context [let '(_, _) := ?e in _] => destruct e as [cn cat] end.
  destruct (Nat.ltb 0 (String.length cn)); [|exact H].
  pose proof (find_or_add_class_unique r cn H) as H1.
  destruct (find_or_add_class r cn) as [r1 ci]. cbn [fst] in H1.
  assert (Hcls : unique_keys match ci with
                             | Some idx => update_class r1 idx
                                 (fun c => class_dump_add_method_to_class c mp b)
                             | None => r1 end).
  { destruct ci; [|exact H1]. apply update_class_unique; [|exact H1].
    intros c. apply add_method_class_name. }
  destruct cat as [cat|]; [|exact Hcls].
  destruct (Nat.ltb 0 (String.length cat)); [|exact Hcls].
  pose proof (add_category_with_class_unique r1 cn cat H1) as H2.
  destruct (class_dump_add_category_with_class r1 cn cat) as [r2 k]. cbn [fst] in H2.
  apply update_category_unique; [|exact H2].
  intros c. apply add_method_category_key.
Qed.

Lemma scan_methods_at_unique data i r :
  unique_keys r -> unique_keys (scan_methods_at data i r).
Proof.
  intros H. unfold scan_methods_at.
  destruct (_ && _); [|exact H].
  destruct (bracket_content data i) as [content|]; [|exact H].
  destruct (strchr content " "%char) as [space|]; [|exact H].
  destruct (String.eqb _ ""); [exact H|].
  apply record_method_unique. exact H.
Qed.

Lemma on_class_unique data pos r : unique_keys r -> unique_keys (on_class data pos r).
Proof.
  intros H. unfold on_class. destruct (tail_at _ _ _); [apply add_class_unique|]; exact H.
Qed.

Lemma on_protocol_unique data pos r : unique_keys r -> unique_keys (on_protocol data pos r).
Proof.
  intros H. unfold on_protocol. destruct (tail_at _ _ _); [apply add_protocol_unique|]; exact H.
Qed.

Lemma on_category_unique data pos r : unique_keys r -> unique_keys (on_category data pos r).
Proof.
  intros H. unfold on_category. destruct (tail_at _ _ _) as [raw|]; [|exact H].
  destruct (class_dump_split_category raw) as [cn [k|]]; [|exact H].
  apply add_category_with_class_unique. exact H.
Qed.

Lemma on_ivar_unique data pos r : unique_keys r -> unique_keys (on_ivar data pos r).
Proof.
  intros H. unfold on_ivar. destruct (tail_at _ _ _) as [full|]; [|exact H].
  destruct (strchr full "."%char) as [dot|]; [|exact H].
  destruct (_ && _); [|exact H].
  pose proof (find_or_add_class_unique r (substring 0 dot full) H) as H1.
  destruct (find_or_add_class r (substring 0 dot full)) as [r1 [idx|]]; cbn [fst] in H1;
    [|exact H1].
  apply update_class_unique; [|exact H1]. reflexivity.
Qed.

Section ScanFacts.

Context {A : Type}.
Variable pattern : list byte.
Variable threshold : nat.
Variable tail_guard : bool.
Variable on_match : list byte -> nat -> A -> A.

(** An invariant of the handler is an invariant of the scan. *)
Lemma scan_loop_invariant (P : A -> Prop) :
  (forall data pos acc, P acc -> P (on_match data pos acc)) ->
  forall fuel data pos acc,
    P acc -> P (scan_loop pattern threshold tail_guard on_match fuel data pos acc).
Proof.
  intros Hstep. induction fuel as [|fuel IH]; intros data pos acc Hacc; cbn; [exact Hacc|].
  destruct (Nat.leb _ threshold); [exact Hacc|].
  destruct (memchr _ _ _) as [off|]; [|exact Hacc].
  destruct (tail_guard && _); [exact Hacc|].
  apply IH. destruct (starts_with _ pattern); auto.
Qed.

(** [length data - pos] iterations are enough: every iteration that goes on
    moves [pos] forward, and more fuel changes nothing. *)
Lemma scan_loop_fuel (fuel1 fuel2 : nat) (data : list byte) (pos : nat) (acc : A) :
  (List.length data - pos <= fuel1)%nat -> (List.length data - pos <= fuel2)%nat ->
  scan_loop pattern threshold tail_guard on_match fuel1 data pos acc =
  scan_loop pattern threshold tail_guard on_match fuel2 data pos acc.
Proof.
  revert fuel2 pos acc.
  induction fuel1 as [|fuel1 IH]; intros [|fuel2] pos acc H1 H2; cbn; try reflexivity.
  - replace (List.length data - pos)%nat with 0%nat by lia. reflexivity.
  - replace (List.length data - pos)%nat with 0%nat by lia. reflexivity.
  - destruct (Nat.leb _ threshold) eqn:E; [reflexivity|].
    destruct (memchr _ _ _) as [off|] eqn:M; [|reflexivity].
    destruct (tail_guard && _); [reflexivity|].
    apply Nat.leb_gt in E. apply IH; lia.
Qed.

Lemma scan_fuel_enough (fuel : nat) (data : list byte) (acc : A) :
  (List.length data <= fuel)%nat ->
  scan_loop pattern threshold tail_guard on_match fuel data 0 acc =
  scan pattern threshold tail_guard on_match data acc.
Proof. intros H. unfold scan. apply scan_loop_fuel; lia. Qed.

End ScanFacts.

Lemma analyze_strings_unique data r :
  unique_keys r -> unique_keys (analyze_strings_for_objc data r).
Proof.
  intros H. unfold analyze_strings_for_objc.
  destruct (Nat.ltb 0 _); [|exact H].
  apply add_protocol_unique, add_category_unique, add_class_unique, H.
Qed.

Lemma empty_result_unique : unique_keys empty_result.
Proof. repeat split; constructor. Qed.

Lemma analyze_classes_unique data r :
  unique_keys r -> unique_keys (class_dump_analyze_classes data r).
Proof. apply scan_loop_invariant, on_class_unique. Qed.

Lemma analyze_categories_unique data r :
  unique_keys r -> unique_keys (class_dump_analyze_categories data r).
Proof. apply scan_loop_invariant, on_category_unique. Qed.

Lemma analyze_protocols_unique data r :
  unique_keys r -> unique_keys (class_dump_analyze_protocols data r).
Proof. apply scan_loop_invariant, on_protocol_unique. Qed.

Lemma scan_ivars_unique data r :
  unique_keys r -> unique_keys (class_dump_scan_ivars data r).
Proof. apply scan_loop_invariant, on_ivar_unique. Qed.

Lemma scan_methods_unique data r :
  unique_keys r -> unique_keys (class_dump_scan_methods data r).
Proof.
  apply fold_left_invariant. intros a b. apply scan_methods_at_unique.
Qed.

Lemma class_dump_binary_unique data : unique_keys (class_dump_binary data).
Proof.
  assert (H : unique_keys
                (class_dump_scan_methods data
                   (class_dump_scan_ivars data
                      (class_dump_analyze_protocols data
                         (class_dump_analyze_categories data
                            (class_dump_analyze_classes data empty_result)))))).
  { apply scan_methods_unique, scan_ivars_unique, analyze_protocols_unique,
      analyze_categories_unique, analyze_classes_unique, empty_result_unique. }
  unfold class_dump_binary. cbv zeta.
  match goal with |- context [if ?c then _ else _] => destruct c end;
    [apply analyze_strings_unique|]; exact H.
Qed.

(** C6.  After all the scan passes the result holds no two classes with the
    same name, no two categories with the same (class, category) pair and no
    two protocols with the same name; each of the four insertion operations
    preserves that. *)
Theorem runtime_surface_keys_unique :
  (forall data, unique_keys (class_dump_binary data)) /\
  (forall r n, unique_keys r -> unique_keys (add_class_to_result r n)) /\
  (forall r n, unique_keys r -> unique_keys (add_category_to_result r n)) /\
  (forall r n, unique_keys r -> unique_keys (add_protocol_to_result r n)) /\
  (forall r c k, unique_keys r ->
                 unique_keys (fst (class_dump_add_category_with_class r c k))).
Proof.
  split; [exact class_dump_binary_unique|].
  split; [exact add_class_unique|].
  split; [exact add_category_unique|].
  split; [exact add_protocol_unique|exact add_category_with_class_unique].
Qed.

(** C7.  The scan of the four byte sequences yields one class Foo with
    superclass NSObject, ivar counter and instance method tick, one category
    Bar on Foo, and nothing else. *)
Theorem runtime_scan_scenario :
  class_dump_binary s6_binary =
  mkResult [mkClass "Foo" "NSObject" [] ["tick"] [] [] ["counter"] false false]
           [mkCategory "Bar" "Foo" [] [] [] []]
           [].
Proof. vm_compute. reflexivity. Qed.

Lemma strndup_len_le (start : list byte) (n : nat) :
  (strndup_len start n <= n)%nat /\ (strndup_len start n <= List.length start)%nat.
Proof.
  revert start. induction n as [|n IH]; intros [|b start]; cbn; try lia.
  destruct (is_terminator b); [lia|]. destruct (IH start). lia.
Qed.

Lemma strndup_len_clean (start : list byte) (n : nat) :
  Forall (fun b => is_terminator b = false) (firstn (strndup_len start n) start).
Proof.
  revert start. induction n as [|n IH]; intros [|b start]; cbn; try constructor.
  destruct (is_terminator b) eqn:E; cbn; constructor; auto.
Qed.

Lemma strndup_len_stop (start : list byte) (n : nat) :
  strndup_len start n = n \/
  strndup_len start n = List.length start \/
  exists b, nth_error start (strndup_len start n) = Some b /\ is_terminator b = true.
Proof.
  revert start. induction n as [|n IH]; intros [|b start]; cbn; auto.
  destruct (is_terminator b) eqn:E.
  - right. right. exists b. auto.
  - destruct (IH start) as [H | [H | H]]; auto.
Qed.

Lemma strndup_len_terminator (start : list byte) (n j : nat) (b : byte) :
  nth_error start j = Some b -> is_terminator b = true ->
  (strndup_len start n <= j)%nat.
Proof.
  revert start j. induction n as [|n IH]; intros [|a start] j; cbn; try lia.
  destruct j as [|j]; cbn.
  - intros [= ->] ->. lia.
  - intros H1 H2. destruct (is_terminator a); [lia|].
    specialize (IH start j H1 H2). lia.
Qed.

(** C8 (amended).  The tail extracted after a prefix matched at [pos] is not
    empty, is the run of bytes that follows the prefix, holds no NUL, CR or
    LF, and ends where the data ends or just before such a byte; its length
    is bounded by the bytes that remain, and by nothing else. *)
Theorem tail_extraction (pattern data : list byte) (pos : nat) (tail : string) :
  tail_at pattern data pos = Some tail ->
  let rest := skipn (pos + List.length pattern) data in
  let n := String.length tail in
  (0 < n)%nat /\
  list_byte_of_string tail = firstn n rest /\
  Forall (fun b => is_terminator b = false) (list_byte_of_string tail) /\
  (n = List.length rest \/
   exists b, nth_error rest n = Some b /\ is_terminator b = true) /\
  (n <= List.length data - (pos + List.length pattern))%nat.
Proof.
  unfold tail_at, class_dump_safe_strndup. cbv zeta.
  set (rest := skipn (pos + List.length pattern) data).
  assert (Hlen : (List.length data - (pos + List.length pattern))%nat = List.length rest)
    by (unfold rest; rewrite length_skipn; reflexivity).
  rewrite Hlen.
  destruct (Nat.eqb (List.length rest) 0); [discriminate|].
  destruct (Nat.eqb (strndup_len rest (List.length rest)) 0) eqn:E; [discriminate|].
  intros [= <-]. apply Nat.eqb_neq in E.
  pose proof (strndup_len_le rest (List.length rest)) as [Hle _].
  rewrite string_of_list_byte_length, list_byte_of_string_of_list_byte.
  rewrite length_firstn, Nat.min_l by exact Hle.
  split; [lia|]. split; [reflexivity|]. split; [apply strndup_len_clean|].
  split; [|exact Hle].
  destruct (strndup_len_stop rest (List.length rest)) as [H | [H | H]]; auto.
Qed.

(** A match followed at once by NUL, CR or LF, or by the end of the data,
    yields no tail: the handlers leave the result alone. *)
Lemma tail_at_none (pattern data : list byte) (pos : nat) :
  tail_at pattern data pos = None <->
  match skipn (pos + List.length pattern) data with
  | [] => True
  | b :: _ => is_terminator b = true
  end.
Proof.
  unfold tail_at, class_dump_safe_strndup.
  rewrite <- length_skipn.
  destruct (skipn (pos + List.length pattern) data) as [|b rest]; cbn; [tauto|].
  destruct (is_terminator b); cbn; split; auto; discriminate.
Qed.

Lemma strchr_bytes (l : list byte) (c : byte) :
  strchr (string_of_list_byte l) (ascii_of_byte c) = memchr l c (List.length l).
Proof.
  unfold string_of_list_byte. induction l as [|b l IH]; cbn; [reflexivity|].
  rewrite ascii_of_byte_eqb, IH. reflexivity.
Qed.

Lemma memchr_firstn (l : list byte) (c : byte) (m : nat) :
  memchr (firstn m l) c (List.length (firstn m l)) = memchr l c m.
Proof.
  revert l. induction m as [|m IH]; intros [|b l]; cbn; try reflexivity.
  rewrite IH. reflexivity.
Qed.

Lemma memchr_none_le (l : list byte) (c : byte) (n m : nat) :
  memchr l c n = None -> (m <= n)%nat -> memchr l c m = None.
Proof.
  revert l m. induction n as [|n IH]; intros [|b l] [|m]; cbn; try reflexivity; try lia.
  destruct (Byte.eqb b c); [discriminate|].
  destruct (memchr l c n) eqn:E; [discriminate|].
  intros _ H. rewrite (IH l m E) by lia. reflexivity.
Qed.

Lemma memchr_some (l : list byte) (c : byte) (n k m : nat) :
  memchr l c n = Some k ->
  memchr l c m = if Nat.ltb k m then Some k else None.
Proof.
  revert n k m. induction l as [|b l IH]; intros [|n] k m H; cbn in H; try discriminate.
  destruct (Byte.eqb b c) eqn:E.
  - injection H as <-. destruct m; cbn [memchr]; [reflexivity|]. rewrite E. reflexivity.
  - destruct (memchr l c n) as [j|] eqn:E2; [|discriminate]. injection H as <-.
    destruct m; cbn [memchr]; [reflexivity|]. rewrite E, (IH _ _ m E2).
    destruct (Nat.ltb_spec j m); destruct (Nat.ltb_spec (S j) (S m)); try lia; reflexivity.
Qed.

(** C9.  Let the closing bracket of a match at [i] be [n] bytes after the
    opening one.  If none of these [n] bytes is a space, or if the first
    space among them is directly followed by the closing bracket or by a NUL,
    CR or LF (an empty selector), the loop body at [i] returns the result it
    was given. *)
Theorem bracket_without_selector_skipped
        (data : list byte) (i : nat) (result : class_dump_result_t) (n : nat) :
  let start := skipn (i + 2) data in
  let remaining := (List.length data - (i + 2))%nat in
  let max_len := if Nat.ltb 200 remaining then 200%nat else remaining in
  memchr start RBRACKET max_len = Some n ->
  (memchr start SPACE n = None \/
   exists k, memchr start SPACE n = Some k /\
             (S k = n \/
              exists b, nth_error start (S k) = Some b /\ is_terminator b = true)) ->
  scan_methods_at data i result = result.
Proof.
  cbv zeta. intros Hclose Hsel. unfold scan_methods_at. cbv zeta.
  destruct (_ && _); [|reflexivity].
  unfold bracket_content. cbv zeta. rewrite Hclose.
  destruct (_ || _); [reflexivity|].
  unfold class_dump_safe_strndup.
  destruct (Nat.eqb n 0); [reflexivity|].
  set (start := skipn (i + 2) data) in *.
  set (len := strndup_len start n).
  destruct (Nat.eqb len 0); [reflexivity|].
  pose proof (strndup_len_le start n) as [Hle Hle'].
  fold len in Hle, Hle'.
  change " "%char with (ascii_of_byte SPACE).
  rewrite strchr_bytes, memchr_firstn.
  destruct Hsel as [Hnone | (k & Hk & Hend)].
  - rewrite (memchr_none_le _ _ _ _ Hnone Hle). reflexivity.
  - rewrite (memchr_some _ _ _ _ len Hk).
    destruct (Nat.ltb k len) eqn:E; [|reflexivity].
    apply Nat.ltb_lt in E.
    assert (Hlen : len = S k).
    { destruct Hend as [Hn | (b & Hb & Ht)].
      - lia.
      - pose proof (strndup_len_terminator start n (S k) b Hb Ht) as Hstop.
        fold len in Hstop. lia. }
    unfold str_from. rewrite string_of_list_byte_length, length_firstn, Nat.min_l by exact Hle'.
    rewrite Hlen, Nat.sub_diag, substring_nothing. reflexivity.
Qed.

End ClassDumpFacts.

Lemma runtime_surface_keys_unique_witness :
  ClassDump.unique_keys
    (ClassDump.add_protocol_to_result
       (ClassDump.add_category_to_result
          (ClassDump.add_class_to_result (ClassDump.class_dump_binary ClassDump.s6_binary)
                                         "Foo")
          "Baz")
       "Copying").
Proof.
  destruct runtime_surface_keys_unique as (Hscan & Hclass & Hcategory & Hprotocol & _).
  apply Hprotocol, Hcategory, Hclass, Hscan.
Defined.

(** C8 as the specification words it fails: the class pass on a symbol with
    a name of 256 letters extracts all of them, and the class is created
    under that name. *)
Lemma tail_exceeds_255 :
  ClassDump.starts_with ClassDump.long_name_binary ClassDump.classPattern = true /\
  exists tail,
    ClassDump.tail_at ClassDump.classPattern ClassDump.long_name_binary 0 = Some tail /\
    String.length tail = 256%nat /\
    ClassDump.class_keys (ClassDump.class_dump_binary ClassDump.long_name_binary) = [tail].
Proof.
  split; [reflexivity|].
  eexists. split; [vm_compute; reflexivity|]. split; vm_compute; reflexivity.
Qed.

Lemma tail_extraction_witness :
  list_byte_of_string "Foo" =
  firstn 3 (skipn (0 + List.length ClassDump.classPattern) ClassDump.s6_binary) /\
  Forall (fun b => ClassDump.is_terminator b = false) (list_byte_of_string "Foo").
Proof.
  destruct (tail_extraction ClassDump.classPattern ClassDump.s6_binary 0 "Foo")
    as (_ & Hprefix & Hclean & _).
  - vm_compute. reflexivity.
  - split; [exact Hprefix | exact Hclean].
Defined.

Lemma bracket_without_selector_skipped_witness :
  ClassDump.scan_methods_at (list_byte_of_string "-[Foo]") 0 ClassDump.empty_result =
  ClassDump.empty_result /\
  ClassDump.scan_methods_at (list_byte_of_string "+[Foo ]") 0 ClassDump.empty_result =
  ClassDump.empty_result.
Proof.
  split.
  - apply (bracket_without_selector_skipped (list_byte_of_string "-[Foo]") 0
             ClassDump.empty_result 3).
    + vm_compute. reflexivity.
    + left. vm_compute. reflexivity.
  - apply (bracket_without_selector_skipped (list_byte_of_string "+[Foo ]") 0
             ClassDump.empty_result 4).
    + vm_compute. reflexivity.
    + right. exists 3%nat. split; [vm_compute; reflexivity|]. left. reflexivity.
Defined.

(** ** Type reconstruction *)

Section TypeAnalyzerFacts.

Import TypeAnalyzer.

Lemma has_name_spec (types : list c_reconstructed_type_t) (n : string) :
  c_reconstruction_has_name types n = true <-> In n (map name types).
Proof.
  unfold c_reconstruction_has_name. rewrite existsb_exists, in_map_iff.
  split; intros (t & H1 & H2); exists t.
  - apply String.eqb_eq in H2. auto.
  - split; [exact H2|]. apply String.eqb_eq. exact H1.
Qed.

(** The loop body, by what it extracted. *)
Lemma reconstruct_step_cases (types : list c_reconstructed_type_t) (sym : SymbolInfo) :
  match extracted_name sym with
  | None => reconstruct_step types sym = types
  | Some n =>
      if c_reconstruction_has_name types n
      then reconstruct_step types sym = types
      else exists e, reconstruct_step types sym = types ++ [e] /\
                     name e = n /\ address e = sym_address sym
  end.
Proof.
  unfold extracted_name, reconstruct_step.
  destruct (sym_name sym) as [s|]; [|reflexivity].
  destruct (String.eqb s ""); [reflexivity|].
  destruct (classify s) as [cat [tn|]]; cbn [snd]; [|reflexivity].
  destruct (String.eqb tn ""); [reflexivity|].
  destruct (c_reconstruction_has_name types tn); [reflexivity|].
  eexists. split; [reflexivity|]. split; reflexivity.
Qed.

Lemma reconstruct_step_extends types sym :
  exists ext, reconstruct_step types sym = types ++ ext.
Proof.
  pose proof (reconstruct_step_cases types sym) as H.
  destruct (extracted_name sym) as [n|].
  - destruct (c_reconstruction_has_name types n).
    + exists []. rewrite app_nil_r. exact H.
    + destruct H as (e & -> & _). eauto.
  - exists []. rewrite app_nil_r. exact H.
Qed.

Lemma reconstruct_extends symbols types :
  exists ext, fold_left reconstruct_step symbols types = types ++ ext.
Proof.
  revert types. induction symbols as [|s symbols IH]; intros types; cbn.
  - exists []. rewrite app_nil_r. reflexivity.
  - destruct (reconstruct_step_extends types s) as (e1 & ->).
    destruct (IH (types ++ e1)) as (e2 & ->).
    exists (e1 ++ e2). rewrite app_assoc. reflexivity.
Qed.

Lemma reconstruct_step_unique types sym :
  NoDup (map name types) -> NoDup (map name (reconstruct_step types sym)).
Proof.
  intros H. pose proof (reconstruct_step_cases types sym) as Hc.
  destruct (extracted_name sym) as [n|]; [|rewrite Hc; exact H].
  destruct (c_reconstruction_has_name types n) eqn:E; [rewrite Hc; exact H|].
  destruct Hc as (e & -> & Hn & _). rewrite map_app. cbn.
  apply NoDup_snoc; [exact H|]. rewrite Hn.
  intros Hin. apply has_name_spec in Hin. congruence.
Qed.

Lemma reconstruct_unique symbols types :
  NoDup (map name types) ->
  NoDup (map name (fold_left reconstruct_step symbols types)).
Proof.
  revert types. induction symbols as [|s symbols IH]; intros types H; cbn; [exact H|].
  apply IH, reconstruct_step_unique, H.
Qed.

(** A name in the list was extracted from one of the symbols read. *)
Lemma reconstruct_names_origin symbols types n :
  In n (map name (fold_left reconstruct_step symbols types)) ->
  In n (map name types) \/ exists s, In s symbols /\ extracted_name s = Some n.
Proof.
  revert types. induction symbols as [|s symbols IH]; intros types; cbn; [auto|].
  intros H. apply IH in H. destruct H as [H | (s' & H1 & H2)]; [|eauto].
  pose proof (reconstruct_step_cases types s) as Hc.
  destruct (extracted_name s) as [m|] eqn:Es; [|rewrite Hc in H; auto].
  destruct (c_reconstruction_has_name types m); [rewrite Hc in H; auto|].
  destruct Hc as (e & He & Hn & _). rewrite He, map_app, in_app_iff in H. cbn in H.
  destruct H as [H | [H | []]]; [auto|]. right. exists s. split; [auto|]. congruence.
Qed.

(** C10.  The list [c_reconstruct_types_from_binary] returns holds no two
    entries with the same name; a symbol whose extracted name is already
    present leaves the list as it is; and the entry of a name is the one
    made from the first symbol that yields it. *)
Theorem reconstruction_names_unique (symbols : list SymbolInfo) :
  NoDup (map name (c_reconstruct_types_from_binary symbols)) /\
  (forall types sym n,
      extracted_name sym = Some n ->
      c_reconstruction_has_name types n = true ->
      reconstruct_step types sym = types) /\
  (forall pre sym post n,
      symbols = pre ++ sym :: post ->
      extracted_name sym = Some n ->
      (forall s, In s pre -> extracted_name s <> Some n) ->
      exists e, In e (c_reconstruct_types_from_binary symbols) /\
                name e = n /\ address e = sym_address sym).
Proof.
  split; [apply reconstruct_unique; constructor|]. split.
  - intros types sym n Hn Hhas.
    pose proof (reconstruct_step_cases types sym) as H. rewrite Hn, Hhas in H. exact H.
  - intros pre sym post n -> Hn Hpre.
    unfold c_reconstruct_types_from_binary. rewrite fold_left_app. cbn.
    set (types := fold_left reconstruct_step pre []).
    assert (Hfresh : c_reconstruction_has_name types n = false).
    { destruct (c_reconstruction_has_name types n) eqn:E; [|reflexivity].
      apply has_name_spec in E. apply reconstruct_names_origin in E.
      destruct E as [[] | (s & Hs & Hs')]. exfalso. exact (Hpre s Hs Hs'). }
    pose proof (reconstruct_step_cases types sym) as H. rewrite Hn, Hfresh in H.
    destruct H as (e & -> & He1 & He2).
    destruct (reconstruct_extends post (types ++ [e])) as (ext & ->).
    exists e. split; [|auto]. rewrite !in_app_iff. cbn. auto.
Qed.

End TypeAnalyzerFacts.

Lemma reconstruction_names_unique_witness :
  let first := TypeAnalyzer.mkSymbol (Some "_OBJC_CLASS_$_Foo") 0x4000 in
  let again := TypeAnalyzer.mkSymbol (Some "_OBJC_CLASS_$_Foo") 0x8000 in
  TypeAnalyzer.reconstruct_step
    (TypeAnalyzer.c_reconstruct_types_from_binary [first]) again =
  TypeAnalyzer.c_reconstruct_types_from_binary [first] /\
  exists e, In e (TypeAnalyzer.c_reconstruct_types_from_binary [first; again]) /\
            TypeAnalyzer.name e = "Foo" /\ TypeAnalyzer.address e = 0x4000.
Proof.
  cbv zeta.
  destruct (reconstruction_names_unique
              [TypeAnalyzer.mkSymbol (Some "_OBJC_CLASS_$_Foo") 0x4000;
               TypeAnalyzer.mkSymbol (Some "_OBJC_CLASS_$_Foo") 0x8000])
    as (_ & Hskip & Hfirst).
  split.
  - apply (Hskip _ _ "Foo"); reflexivity.
  - apply (Hfirst [] (TypeAnalyzer.mkSymbol (Some "_OBJC_CLASS_$_Foo") 0x4000)
                  [TypeAnalyzer.mkSymbol (Some "_OBJC_CLASS_$_Foo") 0x8000] "Foo").
    + reflexivity.
    + reflexivity.
    + intros s [].
Defined.

(** ** The driver *)

Section DriverFacts.

Import Disasm DisasmTools.

Variable DISASM_FLAG_PROLOGUE_EPILOGUE_HEURISTICS : Z.
Variables MNEMONIC_SIZE OPERANDS_SIZE FULL_DISASM_SIZE : nat.
Variable category_zero : InstructionCategory.
Variable branch_type_zero : BranchType.
Variable swap_uint32 : Z -> Z.

Local Notation "'run_loop'" :=
  (disasm_loop DISASM_FLAG_PROLOGUE_EPILOGUE_HEURISTICS MNEMONIC_SIZE OPERANDS_SIZE
               FULL_DISASM_SIZE category_zero branch_type_zero swap_uint32).
Local Notation "'run_all'" :=
  (disasm_all DISASM_FLAG_PROLOGUE_EPILOGUE_HEURISTICS MNEMONIC_SIZE OPERANDS_SIZE
              FULL_DISASM_SIZE category_zero branch_type_zero swap_uint32).
Local Notation "'listing'" :=
  (arm64_listing DISASM_FLAG_PROLOGUE_EPILOGUE_HEURISTICS MNEMONIC_SIZE OPERANDS_SIZE
                 FULL_DISASM_SIZE category_zero branch_type_zero swap_uint32).
Local Notation "'step'" :=
  (disasm_instruction DISASM_FLAG_PROLOGUE_EPILOGUE_HEURISTICS MNEMONIC_SIZE OPERANDS_SIZE
                 FULL_DISASM_SIZE category_zero branch_type_zero swap_uint32).

Ltac drv_unfold :=
  cbv beta delta
    [set_current_offset set_instructions set_instruction_capacity set_instruction_count
     push_instruction];
  cbn [decoder_ctx arch is_swapped code_data code_size code_base_addr
       current_offset instructions instruction_capacity instruction_count].

Lemma arm64_listing_snoc c data k :
  listing c data (S k) =
  listing c data k ++
  [disasm_arm64 DISASM_FLAG_PROLOGUE_EPILOGUE_HEURISTICS MNEMONIC_SIZE OPERANDS_SIZE
     FULL_DISASM_SIZE category_zero branch_type_zero (Some (decoder_ctx c))
     (word_at swap_uint32 c data k) (to_uint64 (code_base_addr c + 4 * Z.of_nat k))].
Proof. unfold arm64_listing. rewrite seq_S, map_app. reflexivity. Qed.

Lemma arm64_loop d sw data size base c0 (fuel k : nat) :
  decoder_ctx c0 = d -> is_swapped c0 = sw -> code_base_addr c0 = base ->
  0 <= size -> Z.of_nat k <= size / 4 -> size - 4 * Z.of_nat k <= Z.of_nat fuel ->
  run_loop size fuel
    (mkDriver d ARCH_ARM64 sw (Some data) size base (4 * Z.of_nat k)
              (Some (listing c0 data k)) (size / 4) (Z.of_nat k)) =
  Returned (size / 4)
    (Some (mkDriver d ARCH_ARM64 sw (Some data) size base (4 * (size / 4))
             (Some (listing c0 data (Z.to_nat (size / 4))))
             (if 4 * (size / 4) <? size then size / 4 * 2 else size / 4)
             (size / 4))).
Proof.
  intros Hd Hsw Hbase Hsize. revert k.
  assert (Hn : 4 * (size / 4) <= size < 4 * (size / 4) + 4).
  { pose proof (Z.div_mod size 4 ltac:(lia)). pose proof (Z.mod_pos_bound size 4 ltac:(lia)).
    lia. }
  induction fuel as [|fuel IH]; intros k Hk Hfuel.
  - cbn [disasm_loop current_offset].
    assert (Hkn : Z.of_nat k = size / 4) by lia.
    destruct (Z.ltb_spec (4 * Z.of_nat k) size); [lia|].
    destruct (Z.ltb_spec (4 * (size / 4)) size); [lia|].
    rewrite <- Hkn, Nat2Z.id. reflexivity.
  - cbn [disasm_loop current_offset instruction_capacity instruction_count].
    destruct (Z.ltb_spec (4 * Z.of_nat k) size) as [Hlt | Hge].
    + destruct (Z.leb_spec (size / 4) (Z.of_nat k)) as [Hcap | Hcap].
      * (* the trailing bytes: no whole word is left *)
        assert (Hkn : Z.of_nat k = size / 4) by lia.
        unfold disasm_instruction.
        drv_unfold.
        destruct (Z.leb_spec size (4 * Z.of_nat k)); [lia|].
        destruct (Z.ltb_spec size (4 * Z.of_nat k + 4)); [|lia].
        cbn [instruction_count].
        destruct (Z.ltb_spec (4 * (size / 4)) size); [|lia].
        rewrite <- Hkn, Nat2Z.id. reflexivity.
      * unfold disasm_instruction.
        drv_unfold.
        destruct (Z.leb_spec size (4 * Z.of_nat k)); [lia|].
        destruct (Z.ltb_spec size (4 * Z.of_nat k + 4)); [lia|].
        cbv zeta.
        drv_unfold.
        rewrite disasm_arm64_is_valid.
        destruct (Z.leb_spec (size / 4) (Z.of_nat k)); [lia|].
        unfold push_instruction.
        drv_unfold.
        specialize (IH (S k) ltac:(lia) ltac:(lia)).
        rewrite arm64_listing_snoc in IH. unfold word_at in IH.
        rewrite Hd, Hsw, Hbase in IH.
        replace (4 * Z.of_nat (S k)) with (4 * Z.of_nat k + 4) in IH by lia.
        replace (Z.of_nat (S k)) with (Z.of_nat k + 1) in IH by lia.
        exact IH.
    + assert (Hkn : Z.of_nat k = size / 4) by lia.
      destruct (Z.ltb_spec (4 * (size / 4)) size); [lia|].
      rewrite <- Hkn, Nat2Z.id. reflexivity.
Qed.

Local Notation "'tiled'" :=
  (x86_tiled MNEMONIC_SIZE OPERANDS_SIZE FULL_DISASM_SIZE category_zero branch_type_zero).
Local Notation "'decode_x86'" :=
  (disasm_x86_64 MNEMONIC_SIZE OPERANDS_SIZE FULL_DISASM_SIZE category_zero branch_type_zero).

Lemma x86_tiled_snoc c data l : forall a b,
  tiled c data a l b ->
  tiled c data a
    (l ++ [decode_x86 (skipn (Z.to_nat b) data) (to_uint64 (code_base_addr c + b))])
    (b + inst_length (decode_x86 (skipn (Z.to_nat b) data)
                                 (to_uint64 (code_base_addr c + b)))).
Proof.
  induction l as [|i l IH]; intros a b H; cbn [x86_tiled app] in *.
  - subst b. split; reflexivity.
  - destruct H as [Hi H]. split; [exact Hi|]. apply IH. exact H.
Qed.

Lemma x86_loop d sw data size base c0 (fuel : nat) :
  code_base_addr c0 = base ->
  forall L o cap,
    tiled c0 data 0 L o -> 1 <= cap -> Z.of_nat (length L) <= cap ->
    Z.of_nat (length L) <= o -> Z.of_nat (length L) <= size ->
    o < size + 6 -> size - o <= Z.of_nat fuel ->
    exists L' o' cap',
      run_loop size fuel
        (mkDriver d ARCH_X86_64 sw (Some data) size base o (Some L) cap
                  (Z.of_nat (length L))) =
      Returned (Z.of_nat (length L'))
        (Some (mkDriver d ARCH_X86_64 sw (Some data) size base o' (Some L') cap'
                        (Z.of_nat (length L')))) /\
      tiled c0 data 0 L' o' /\ size <= o' < size + 6 /\
      Z.of_nat (length L') <= size.
Proof.
  intros Hbase.
  induction fuel as [|fuel IH]; intros L o cap Ht Hcap Hlen Hlo Hls Ho Hfuel.
  - cbn [disasm_loop current_offset].
    destruct (Z.ltb_spec o size); [lia|].
    exists L, o, cap. repeat split; auto; lia.
  - cbn [disasm_loop current_offset instruction_capacity instruction_count].
    destruct (Z.ltb_spec o size) as [Hlt | Hge];
      [|exists L, o, cap; repeat split; auto; lia].
    set (cap1 := if cap <=? Z.of_nat (length L) then cap * 2 else cap).
    assert (Hcap1 : Z.of_nat (length L) < cap1 /\ 1 <= cap1).
    { unfold cap1. destruct (Z.leb_spec cap (Z.of_nat (length L))); lia. }
    replace (if cap <=? Z.of_nat (length L)
             then set_instruction_capacity (cap * 2) _ else _)
      with (mkDriver d ARCH_X86_64 sw (Some data) size base o (Some L) cap1
                     (Z.of_nat (length L)))
      by (unfold cap1; destruct (cap <=? Z.of_nat (length L)); reflexivity).
    unfold disasm_instruction.
    drv_unfold.
    destruct (Z.leb_spec size o); [lia|].
    cbv zeta.
    set (inst := decode_x86 (skipn (Z.to_nat o) data) (to_uint64 (base + o))).
    destruct (x86_shape MNEMONIC_SIZE OPERANDS_SIZE FULL_DISASM_SIZE category_zero
                branch_type_zero (skipn (Z.to_nat o) data) (to_uint64 (base + o)))
      as (Hv & _ & Hl & _).
    fold inst in Hv, Hl. rewrite Hv.
    destruct (Z.leb_spec cap1 (Z.of_nat (length L))); [lia|].
    unfold push_instruction.
    drv_unfold.
    replace (Z.of_nat (length L) + 1) with (Z.of_nat (length (L ++ [inst])))
      by (rewrite length_app; cbn [length]; lia).
    apply IH.
    + pose proof (x86_tiled_snoc c0 data L 0 o Ht) as Hs.
      rewrite Hbase in Hs. exact Hs.
    + lia.
    + rewrite length_app. cbn [length]. lia.
    + rewrite length_app. cbn [length]. lia.
    + rewrite length_app. cbn [length]. lia.
    + lia.
    + lia.
Qed.

Lemma arm64_all (c : DriverContext) (data : list byte) :
  arch c = ARCH_ARM64 -> code_data c = Some data -> 0 <= code_size c < 2 ^ 31 ->
  exists c',
    run_all (Some c) = Returned (code_size c / 4) (Some c') /\
    instructions c' = Some (listing c data (Z.to_nat (code_size c / 4))) /\
    instruction_count c' = code_size c / 4 /\
    current_offset c' = 4 * (code_size c / 4) /\
    decoder_ctx c' = decoder_ctx c /\ code_base_addr c' = code_base_addr c.
Proof.
  intros Ha Hdata Hsize. unfold disasm_all. rewrite Hdata. cbv zeta.
  destruct c as [d a sw cd size base off ins cap cnt]. cbn in Ha, Hdata, Hsize. subst a cd.
  drv_unfold.
  assert (Hq : 0 <= size / 4 < 2 ^ 32).
  { split; [apply Z.div_pos; lia | apply Z.div_lt_upper_bound; lia]. }
  unfold to_uint32. rewrite (Z.mod_small _ _ Hq).
  pose proof (arm64_loop d sw data size base
                (mkDriver d ARCH_ARM64 sw (Some data) size base off ins cap cnt)
                (Z.to_nat size) 0 eq_refl eq_refl eq_refl ltac:(lia) ltac:(cbn; lia)
                ltac:(lia)) as H.
  change (4 * Z.of_nat 0) with 0 in H. change (Z.of_nat 0) with 0 in H.
  change (listing _ data 0) with (@nil DisassembledInstruction) in H.
  rewrite H. eexists. split; [reflexivity|]. cbn. repeat split; reflexivity.
Qed.

(** X4.  [disasm_all] on AArch64 code returns [code_size / 4]: the array
    holds the record of each whole word in turn, the [k]-th decoded at
    [code_base_addr + 4 k]; up to three trailing bytes are left alone. *)
Theorem disasm_all_arm64_listing (c : DriverContext) (data : list byte) :
  arch c = ARCH_ARM64 -> code_data c = Some data -> 0 <= code_size c < 2 ^ 31 ->
  exists c',
    run_all (Some c) = Returned (code_size c / 4) (Some c') /\
    instructions c' = Some (listing c data (Z.to_nat (code_size c / 4))) /\
    instruction_count c' = code_size c / 4 /\
    current_offset c' = 4 * (code_size c / 4) /\
    decoder_ctx c' = decoder_ctx c /\ code_base_addr c' = code_base_addr c.
Proof. exact (arm64_all c data). Qed.

Lemma x86_all (c : DriverContext) (data : list byte) :
  arch c = ARCH_X86_64 -> code_data c = Some data -> 4 <= code_size c < 2 ^ 31 ->
  exists c' L,
    run_all (Some c) = Returned (Z.of_nat (length L)) (Some c') /\
    instructions c' = Some L /\
    instruction_count c' = Z.of_nat (length L) /\
    tiled c data 0 L (current_offset c') /\
    code_size c <= current_offset c' < code_size c + 6 /\
    Z.of_nat (length L) <= code_size c /\
    decoder_ctx c' = decoder_ctx c /\ code_base_addr c' = code_base_addr c.
Proof.
  intros Ha Hdata Hsize. unfold disasm_all. rewrite Hdata. cbv zeta.
  destruct c as [d a sw cd size base off ins cap cnt]. cbn in Ha, Hdata, Hsize. subst a cd.
  drv_unfold.
  assert (Hq : 1 <= size / 4 < 2 ^ 32).
  { split; [apply Z.div_le_lower_bound; lia | apply Z.div_lt_upper_bound; lia]. }
  unfold to_uint32. rewrite (Z.mod_small (size / 4) (2 ^ 32)) by lia.
  destruct (x86_loop d sw data size base
              (mkDriver d ARCH_X86_64 sw (Some data) size base off ins cap cnt)
              (Z.to_nat size) eq_refl [] 0 (size / 4) eq_refl ltac:(lia)
              ltac:(cbn; lia) ltac:(cbn; lia) ltac:(cbn; lia) ltac:(lia) ltac:(lia))
    as (L' & o' & cap' & Hrun & Ht & Ho & Hls).
  change (Z.of_nat (length (@nil DisassembledInstruction))) with 0 in Hrun.
  rewrite Hrun. eexists. exists L'. split; [reflexivity|]. cbn. repeat split; auto; lia.
Qed.

(** X5.  [disasm_all] on x86-64 code of four bytes or more: the records
    tile the buffer from offset 0, each decoded where the one before it
    ends, and the last one ends within five bytes after the end of the
    code (the decoder is not told how many bytes are left). *)
Theorem disasm_all_x86_tiling (c : DriverContext) (data : list byte) :
  arch c = ARCH_X86_64 -> code_data c = Some data -> 4 <= code_size c < 2 ^ 31 ->
  exists c' L,
    run_all (Some c) = Returned (Z.of_nat (length L)) (Some c') /\
    instructions c' = Some L /\
    instruction_count c' = Z.of_nat (length L) /\
    tiled c data 0 L (current_offset c') /\
    code_size c <= current_offset c' < code_size c + 6 /\
    Z.of_nat (length L) <= code_size c /\
    decoder_ctx c' = decoder_ctx c /\ code_base_addr c' = code_base_addr c.
Proof. exact (x86_all c data). Qed.


Local Notation "'decode'" :=
  (disasm_arm64 DISASM_FLAG_PROLOGUE_EPILOGUE_HEURISTICS MNEMONIC_SIZE OPERANDS_SIZE
                FULL_DISASM_SIZE category_zero branch_type_zero).
Local Notation "'run_range'" :=
  (disasm_range DISASM_FLAG_PROLOGUE_EPILOGUE_HEURISTICS MNEMONIC_SIZE OPERANDS_SIZE
                FULL_DISASM_SIZE category_zero branch_type_zero swap_uint32).

(** One call of [disasm_instruction]: nothing stored and the context as it
    was, or a valid record of one of the decoders and the offset moved
    ahead by 1 to 6 bytes. *)
Lemma step_cases (c : DriverContext) :
  step c = (c, None) \/
  exists inst,
    step c = (set_current_offset (current_offset c + inst_length inst) c,
              Some (true, inst)) /\
    1 <= inst_length inst <= 6 /\ current_offset c < code_size c /\
    ((arch c = ARCH_ARM64 /\
      exists bytes addr, inst = decode (Some (decoder_ctx c)) bytes addr) \/
     (arch c = ARCH_X86_64 /\ exists code addr, inst = decode_x86 code addr)).
Proof.
  unfold disasm_instruction.
  destruct (code_data c) as [data|]; [|left; reflexivity].
  destruct (Z.leb_spec (code_size c) (current_offset c)); [left; reflexivity|].
  cbv zeta. destruct (arch c).
  - left; reflexivity.
  - destruct (code_size c <? current_offset c + 4); [left; reflexivity|].
    right. eexists. rewrite disasm_arm64_is_valid.
    destruct (disasm_arm64_coherent DISASM_FLAG_PROLOGUE_EPILOGUE_HEURISTICS MNEMONIC_SIZE
                OPERANDS_SIZE FULL_DISASM_SIZE category_zero branch_type_zero
                (Some (decoder_ctx (set_current_offset (current_offset c + 4) c)))
                (if is_swapped c then swap_uint32 (read_uint32 data (current_offset c))
                 else read_uint32 data (current_offset c))
                (to_uint64 (code_base_addr c + current_offset c)))
      as [(_ & _ & Hl & _) | (_ & _ & Hl & _)];
      (split; [rewrite Hl; reflexivity|]); rewrite Hl;
      (split; [lia|]); (split; [lia|]); left; (split; [reflexivity|]);
      eexists; eexists; reflexivity.
  - right. eexists.
    destruct (x86_shape MNEMONIC_SIZE OPERANDS_SIZE FULL_DISASM_SIZE category_zero
                branch_type_zero (skipn (Z.to_nat (current_offset c)) data)
                (to_uint64 (code_base_addr c + current_offset c)))
      as (Hv & _ & Hl & _).
    rewrite Hv. split; [reflexivity|]. split; [exact Hl|]. split; [lia|].
    right. split; [reflexivity|]. eexists; eexists; reflexivity.
Qed.

(** The loop of the driver, from a context whose array has room for one
    record at least: it ends within the iterations it is given, stores
    nothing outside the array, and leaves the records of the decoders. *)
Lemma loop_safe (P : DisassembledInstruction -> Prop) d a limit (fuel : nat) :
  (a = ARCH_ARM64 -> forall bytes addr, P (decode (Some d) bytes addr)) ->
  (a = ARCH_X86_64 -> forall code addr, P (decode_x86 code addr)) ->
  forall c L,
    decoder_ctx c = d -> arch c = a -> instructions c = Some L ->
    instruction_count c = Z.of_nat (length L) ->
    1 <= instruction_capacity c -> Z.of_nat (length L) <= instruction_capacity c ->
    Forall P L -> limit <= code_size c ->
    Z.of_nat (length L) <= current_offset c -> Z.of_nat (length L) <= code_size c ->
    limit - current_offset c <= Z.of_nat fuel ->
    exists c' L',
      run_loop limit fuel c = Returned (Z.of_nat (length L')) (Some c') /\
      instructions c' = Some L' /\ instruction_count c' = Z.of_nat (length L') /\
      Forall P L' /\ Z.of_nat (length L') <= code_size c /\
      decoder_ctx c' = d /\ code_size c' = code_size c /\
      code_base_addr c' = code_base_addr c.
Proof.
  intros Harm Hx86.
  induction fuel as [|fuel IH]; intros c L Hd Harch Hins Hcnt Hcap1 Hcap HP Hlim Hlo Hls Hfuel.
  - cbn [disasm_loop]. destruct (Z.ltb_spec (current_offset c) limit); [lia|].
    exists c, L. rewrite Hcnt. repeat split; auto; lia.
  - cbn [disasm_loop]. destruct (Z.ltb_spec (current_offset c) limit) as [Hlt | Hge].
    2: { exists c, L. rewrite Hcnt. repeat split; auto; lia. }
    set (c1 := if instruction_capacity c <=? instruction_count c
               then set_instruction_capacity (instruction_capacity c * 2) c else c).
    assert (Hc1 : decoder_ctx c1 = d /\ arch c1 = a /\ instructions c1 = Some L /\
                  instruction_count c1 = Z.of_nat (length L) /\
                  Z.of_nat (length L) < instruction_capacity c1 /\
                  code_size c1 = code_size c /\ code_base_addr c1 = code_base_addr c /\
                  current_offset c1 = current_offset c).
    { unfold c1. destruct (Z.leb_spec (instruction_capacity c) (instruction_count c));
        drv_unfold; repeat split; auto; lia. }
    destruct Hc1 as (Hd1 & Ha1 & Hins1 & Hcnt1 & Hcap2 & Hsz1 & Hb1 & Ho1).
    destruct (step_cases c1) as [-> | (inst & -> & Hl & Hoff & Hform)].
    + exists c1, L. rewrite Hcnt1. repeat split; auto; lia.
    + destruct (Z.leb_spec (instruction_capacity c1) (instruction_count c1)); [lia|].
      assert (HPi : P inst).
      { destruct Hform as [(Ea & b & w & ->) | (Ea & code & w & ->)].
        - rewrite Hd1. apply Harm. congruence.
        - apply Hx86. congruence. }
      destruct (IH (push_instruction inst
                      (set_current_offset (current_offset c1 + inst_length inst) c1))
                   (L ++ [inst])) as (c' & L' & Hrun & H1 & H2 & H3 & H4 & H5 & H6 & H7).
      * drv_unfold. exact Hd1.
      * drv_unfold. exact Ha1.
      * unfold push_instruction. drv_unfold. rewrite Hins1. reflexivity.
      * drv_unfold. rewrite Hcnt1, length_app. cbn [length]. lia.
      * drv_unfold. lia.
      * drv_unfold. rewrite length_app. cbn [length]. lia.
      * apply Forall_app. split; [exact HP|]. constructor; [exact HPi | constructor].
      * drv_unfold. lia.
      * drv_unfold. rewrite length_app. cbn [length]. lia.
      * drv_unfold. rewrite length_app. cbn [length]. lia.
      * drv_unfold. lia.
      * exists c', L'. rewrite Hrun. revert H4 H6 H7. drv_unfold. intros H4 H6 H7.
        repeat split; auto; congruence.
Qed.

(** With no room at all in the array, the loop stops at once or stores
    out of bounds. *)
Lemma loop_empty limit (fuel : nat) c :
  instructions c = Some [] -> instruction_count c = 0 -> instruction_capacity c = 0 ->
  limit - current_offset c <= Z.of_nat fuel ->
  run_loop limit fuel c = StoreOutOfBounds \/
  exists c',
    run_loop limit fuel c = Returned 0 (Some c') /\
    instructions c' = Some [] /\ instruction_count c' = 0 /\
    decoder_ctx c' = decoder_ctx c.
Proof.
  intros Hins Hcnt Hcap Hfuel.
  destruct fuel as [|fuel]; cbn [disasm_loop].
  - destruct (Z.ltb_spec (current_offset c) limit); [lia|].
    right. exists c. rewrite Hcnt. auto.
  - destruct (Z.ltb_spec (current_offset c) limit).
    2: { right. exists c. rewrite Hcnt. auto. }
    rewrite Hcap, Hcnt. cbn [Z.leb Z.compare Z.mul].
    destruct (step_cases (set_instruction_capacity 0 c)) as [-> | (inst & -> & _)].
    + right. eexists. split; [drv_unfold; rewrite Hcnt; reflexivity|].
      drv_unfold. auto.
    + left. drv_unfold. rewrite Hcnt. reflexivity.
Qed.

(** The records [disasm_all] leaves when it returns. *)
Lemma all_records (P : DisassembledInstruction -> Prop) (c : DriverContext) data :
  (arch c = ARCH_ARM64 ->
   forall bytes addr, P (decode (Some (decoder_ctx c)) bytes addr)) ->
  (arch c = ARCH_X86_64 -> forall code addr, P (decode_x86 code addr)) ->
  code_data c = Some data -> 0 <= code_size c < 2 ^ 31 ->
  forall n r, run_all (Some c) = Returned n r ->
  exists c' L,
    r = Some c' /\ instructions c' = Some L /\
    instruction_count c' = Z.of_nat (length L) /\ n = Z.of_nat (length L) /\
    Forall P L /\ Z.of_nat (length L) <= code_size c /\
    decoder_ctx c' = decoder_ctx c.
Proof.
  intros Harm Hx86 Hdata Hsize n r. unfold disasm_all. rewrite Hdata. cbv zeta.
  destruct (Z.ltb_spec (code_size c) 4) as [Hsmall | Hbig].
  - destruct (loop_empty (code_size c) (Z.to_nat (code_size c))
                (set_instruction_count 0
                   (set_instruction_capacity
                      (to_uint32 (code_size (set_current_offset 0 c) / 4))
                      (set_instructions (Some []) (set_current_offset 0 c)))))
      as [H | (c' & H & H1 & H2 & H3)].
    + reflexivity.
    + reflexivity.
    + drv_unfold. rewrite Z.div_small by lia. reflexivity.
    + drv_unfold. lia.
    + revert H. drv_unfold. intros ->. discriminate.
    + revert H H3. drv_unfold. intros -> H3. intros E. injection E as <- <-.
      exists c', []. cbn [length]. repeat split; auto. lia.
  - destruct (loop_safe P (decoder_ctx c) (arch c) (code_size c) (Z.to_nat (code_size c))
                Harm Hx86
                (set_instruction_count 0
                   (set_instruction_capacity
                      (to_uint32 (code_size (set_current_offset 0 c) / 4))
                      (set_instructions (Some []) (set_current_offset 0 c)))) [])
      as (c' & L' & Hrun & H1 & H2 & H3 & H4 & H5 & _).
    + reflexivity.
    + reflexivity.
    + reflexivity.
    + reflexivity.
    + drv_unfold. unfold to_uint32. rewrite Z.mod_small.
      * apply Z.div_le_lower_bound; lia.
      * split; [apply Z.div_pos; lia | apply Z.div_lt_upper_bound; lia].
    + drv_unfold. cbn [length]. unfold to_uint32.
      apply Z.mod_pos_bound. lia.
    + constructor.
    + drv_unfold. lia.
    + drv_unfold. cbn [length]. lia.
    + drv_unfold. cbn [length]. lia.
    + drv_unfold. lia.
    + revert Hrun H4. drv_unfold. intros -> H4 E. injection E as <- <-.
      exists c', L'. repeat split; auto.
Qed.

(** ** Lookup by address *)

Lemma to_int32_small (i : Z) : 0 <= i < 2 ^ 31 -> to_int32 i = i.
Proof.
  intros H. unfold to_int32, to_signed. cbv zeta.
  rewrite Z.mod_small by lia.
  destruct (Z.ltb_spec i (2 ^ (32 - 1))); [reflexivity|]. change (2 ^ (32 - 1)) with (2 ^ 31) in *. lia.
Qed.

Lemma find_by_address_loop_spec (a : Z) (l : list DisassembledInstruction) :
  forall i, 0 <= i -> i + Z.of_nat (length l) <= 2 ^ 31 ->
  (find_by_address_loop l i a = -1 /\ forall x, In x l -> address x <> a) \/
  (exists k x,
     find_by_address_loop l i a = i + Z.of_nat k /\
     nth_error l k = Some x /\ address x = a /\
     forall j y, (j < k)%nat -> nth_error l j = Some y -> address y <> a).
Proof.
  induction l as [|x l IH]; intros i Hi Hbound; cbn [find_by_address_loop].
  - left. split; [reflexivity|]. intros x [].
  - cbn [length] in Hbound.
    destruct (Z.eqb_spec (address x) a) as [E | E].
    + right. exists 0%nat, x. rewrite to_int32_small by lia.
      split; [lia|]. split; [reflexivity|]. split; [exact E|]. intros j y Hj. lia.
    + destruct (IH (i + 1) ltac:(lia) ltac:(lia))
        as [[Hr Hall] | (k & y & Hr & Hn & Ha & Hbefore)].
      * left. split; [exact Hr|]. intros z [<- | Hz]; [exact E | apply Hall, Hz].
      * right. exists (S k), y. split; [lia|]. split; [exact Hn|]. split; [exact Ha|].
        intros j z Hj. destruct j as [|j]; cbn [nth_error].
        -- intros [= <-]. exact E.
        -- apply Hbefore. lia.
Qed.

Lemma find_first (c : DriverContext) (a : Z) :
  instructions c <> None -> instruction_count c <= 2 ^ 31 ->
  let r := disasm_find_by_address (Some c) a in
  (r = -1 /\ forall x, In x (stored_instructions c) -> address x <> a) \/
  (0 <= r < instruction_count c /\
   exists x, nth_error (stored_instructions c) (Z.to_nat r) = Some x /\ address x = a /\
   forall j y, (j < Z.to_nat r)%nat -> nth_error (stored_instructions c) j = Some y ->
               address y <> a).
Proof.
  intros Hins Hcnt. cbv zeta. unfold disasm_find_by_address.
  destruct (instructions c) as [l|] eqn:El; [|contradiction].
  assert (Hlen : Z.of_nat (length (stored_instructions c)) <= Z.max 0 (instruction_count c)).
  { unfold stored_instructions. rewrite El.
    pose proof (firstn_le_length (Z.to_nat (instruction_count c)) l).
    rewrite length_firstn. lia. }
  destruct (find_by_address_loop_spec a (stored_instructions c) 0 ltac:(lia) ltac:(lia))
    as [H | (k & x & Hr & Hn & Ha & Hbefore)]; [left; exact H|].
  right. rewrite Hr. cbn [Z.add]. rewrite Nat2Z.id.
  assert (Hk : (k < length (stored_instructions c))%nat).
  { apply nth_error_Some. rewrite Hn. discriminate. }
  split; [lia|]. exists x. auto.
Qed.

(** X7.  [disasm_find_by_address] returns the index of the first stored
    record with the address, and -1 when no stored record has it. *)
Theorem find_by_address_first (c : DriverContext) (a : Z) :
  instructions c <> None -> instruction_count c <= 2 ^ 31 ->
  let r := disasm_find_by_address (Some c) a in
  (r = -1 /\ forall x, In x (stored_instructions c) -> address x <> a) \/
  (0 <= r < instruction_count c /\
   exists x, nth_error (stored_instructions c) (Z.to_nat r) = Some x /\ address x = a /\
   forall j y, (j < Z.to_nat r)%nat -> nth_error (stored_instructions c) j = Some y ->
               address y <> a).
Proof. exact (find_first c a). Qed.

Lemma arm64_address ctx bytes addr : address (decode ctx bytes addr) = addr.
Proof.
  destruct (disasm_arm64_coherent DISASM_FLAG_PROLOGUE_EPILOGUE_HEURISTICS MNEMONIC_SIZE
              OPERANDS_SIZE FULL_DISASM_SIZE category_zero branch_type_zero ctx bytes addr)
    as [(H & _) | (H & _)]; exact H.
Qed.

Lemma arm64_listing_nth c data n k :
  (k < n)%nat ->
  nth_error (listing c data n) k =
  Some (decode (Some (decoder_ctx c)) (word_at swap_uint32 c data k)
               (to_uint64 (code_base_addr c + 4 * Z.of_nat k))).
Proof.
  intros H. unfold arm64_listing.
  rewrite nth_error_map, nth_error_nth' with (d := 0%nat) by (rewrite length_seq; exact H).
  rewrite seq_nth by exact H. reflexivity.
Qed.

Lemma arm64_listing_length c data n : length (listing c data n) = n.
Proof. unfold arm64_listing. rewrite length_map, length_seq. reflexivity. Qed.

(** X8.  After [disasm_all] on AArch64 code that does not wrap around the
    address space, [disasm_find_by_address] inverts the listing: the
    address of the [k]-th word gives [k], and any other address gives -1. *)
Theorem find_by_address_inverts_listing (c : DriverContext) data :
  arch c = ARCH_ARM64 -> code_data c = Some data -> 0 <= code_size c < 2 ^ 31 ->
  0 <= code_base_addr c -> code_base_addr c + code_size c <= 2 ^ 64 ->
  exists c',
    run_all (Some c) = Returned (code_size c / 4) (Some c') /\
    (forall k, 0 <= k < code_size c / 4 ->
               disasm_find_by_address (Some c') (code_base_addr c + 4 * k) = k) /\
    (forall a, (forall k, 0 <= k < code_size c / 4 -> a <> code_base_addr c + 4 * k) ->
               disasm_find_by_address (Some c') a = -1).
Proof.
  intros Ha Hdata Hsize Hbase Hwrap.
  destruct (arm64_all c data Ha Hdata Hsize) as (c' & Hrun & Hins & Hcnt & _).
  exists c'. split; [exact Hrun|].
  assert (Hn : 0 <= code_size c / 4 /\ 4 * (code_size c / 4) <= code_size c).
  { pose proof (Z.div_mod (code_size c) 4 ltac:(lia)).
    pose proof (Z.mod_pos_bound (code_size c) 4 ltac:(lia)).
    split; [apply Z.div_pos; lia | lia]. }
  assert (Hstored : stored_instructions c' =
                    listing c data (Z.to_nat (code_size c / 4))).
  { unfold stored_instructions. rewrite Hins, Hcnt.
    apply firstn_all2. rewrite arm64_listing_length. lia. }
  assert (Haddr : forall j x, nth_error (stored_instructions c') j = Some x ->
                              (j < Z.to_nat (code_size c / 4))%nat /\
                              address x = code_base_addr c + 4 * Z.of_nat j).
  { intros j x Hj. assert (Hlt : (j < Z.to_nat (code_size c / 4))%nat).
    { rewrite <- (arm64_listing_length c data (Z.to_nat (code_size c / 4))), <- Hstored.
      apply nth_error_Some. rewrite Hj. discriminate. }
    split; [exact Hlt|]. rewrite Hstored, arm64_listing_nth in Hj by exact Hlt.
    injection Hj as <-. rewrite arm64_address. unfold to_uint64. apply Z.mod_small. lia. }
  assert (Hfirst := fun a => find_first c' a ltac:(rewrite Hins; discriminate)
                              ltac:(rewrite Hcnt; lia)).
  split.
  - intros k Hk. destruct (Hfirst (code_base_addr c + 4 * k))
      as [[_ Hall] | (Hr & x & Hx & Hax & _)].
    + exfalso.
      assert (Hnth := arm64_listing_nth c data (Z.to_nat (code_size c / 4)) (Z.to_nat k)
                        ltac:(lia)).
      rewrite <- Hstored in Hnth.
      apply (Hall _ (nth_error_In _ _ Hnth)).
      destruct (Haddr _ _ Hnth) as [_ ->]. lia.
    + destruct (Haddr _ _ Hx) as [_ E]. rewrite Hax in E. lia.
  - intros a Hout. destruct (Hfirst a) as [[Hr _] | (Hr & x & Hx & Hax & _)]; [exact Hr|].
    exfalso. destruct (Haddr _ _ Hx) as [Hlt E].
    apply (Hout (Z.of_nat (Z.to_nat (disasm_find_by_address (Some c') a)))); [lia|].
    congruence.
Qed.

(** ** Counting function starts *)

Lemma detect_count (l : list DisassembledInstruction) : forall acc,
  fold_left (fun func_count i => if is_function_start i then func_count + 1 else func_count)
            l acc =
  acc + Z.of_nat (length (filter is_function_start l)).
Proof.
  induction l as [|x l IH]; intros acc; cbn [fold_left filter length].
  - lia.
  - rewrite IH. destruct (is_function_start x); cbn [length]; lia.
Qed.

Lemma detect_none (c : DriverContext) :
  Forall (fun i => is_function_start i = false) (stored_instructions c) ->
  disasm_detect_functions (Some c) = 0.
Proof.
  intros H. unfold disasm_detect_functions.
  destruct (instructions c); [|reflexivity].
  rewrite detect_count. induction H as [|x l' Hx _ IH]; [reflexivity|].
  cbn [filter]. rewrite Hx. exact IH.
Qed.

(** X9.  [disasm_detect_functions] after [disasm_all] counts no function
    unless the code is AArch64 code decoded with the prologue/epilogue
    heuristics enabled: the x86-64 decoder never marks a function start. *)
Theorem detect_functions_needs_heuristics (c : DriverContext) data :
  code_data c = Some data -> 0 <= code_size c < 2 ^ 31 ->
  (arch c = ARCH_ARM64 ->
   heuristics_enabled DISASM_FLAG_PROLOGUE_EPILOGUE_HEURISTICS (Some (decoder_ctx c)) = false) ->
  match run_all (Some c) with
  | Returned _ c' => disasm_detect_functions c' = 0
  | _ => True
  end.
Proof.
  intros Hdata Hsize Hoff.
  destruct (run_all (Some c)) as [n [c'|] | |] eqn:Hrun; try exact I; [|reflexivity].
  destruct (all_records (fun i => is_function_start i = false) c data) with (n := n)
    (r := Some c') as (c1 & L & E & Hins & Hcnt & _ & HL & _); auto.
  - intros Ha bytes addr. apply no_start_without_flag. exact (Hoff Ha).
  - intros _ code addr.
    apply (x86_shape MNEMONIC_SIZE OPERANDS_SIZE FULL_DISASM_SIZE category_zero
             branch_type_zero code addr).
  - injection E as <-. apply detect_none.
    unfold stored_instructions. rewrite Hins, Hcnt, Nat2Z.id, firstn_all. exact HL.
Qed.

(** ** [disasm_range] *)

(** X10.  [disasm_range] returns 0 and leaves the context alone for an
    empty range and for a start outside the code; otherwise it comes to an
    end with every record stored inside the array (which has room for one
    record at least), all of them valid, at most one per byte of code. *)
Theorem disasm_range_outcome (c : DriverContext) (start_addr end_addr : Z) :
  0 <= code_size c < 2 ^ 31 ->
  (end_addr <= start_addr \/ code_size c <= to_uint64 (start_addr - code_base_addr c) ->
   run_range (Some c) start_addr end_addr = Returned 0 (Some c)) /\
  (start_addr < end_addr -> to_uint64 (start_addr - code_base_addr c) < code_size c ->
   exists c' L,
     run_range (Some c) start_addr end_addr = Returned (Z.of_nat (length L)) (Some c') /\
     instructions c' = Some L /\ instruction_count c' = Z.of_nat (length L) /\
     Forall (fun i => is_valid i = true /\ 1 <= inst_length i <= 6) L /\
     Z.of_nat (length L) <= code_size c).
Proof.
  intros Hsize. unfold disasm_range. split.
  - intros [H | H].
    + destruct (Z.leb_spec end_addr start_addr); [reflexivity | lia].
    + destruct (end_addr <=? start_addr); [reflexivity|].
      destruct (Z.leb_spec (code_size c) (to_uint64 (start_addr - code_base_addr c)));
        [reflexivity | lia].
  - intros Hlt Hin.
    destruct (Z.leb_spec end_addr start_addr); [lia|].
    destruct (Z.leb_spec (code_size c) (to_uint64 (start_addr - code_base_addr c))); [lia|].
    cbv zeta.
    set (start_offset := to_uint64 (start_addr - code_base_addr c)) in *.
    set (end_offset := if code_size c <? to_uint64 (end_addr - code_base_addr c)
                       then code_size c else to_uint64 (end_addr - code_base_addr c)).
    set (estimated := if to_uint32 (to_uint64 (end_offset - start_offset) / 4) =? 0 then 1
                      else to_uint32 (to_uint64 (end_offset - start_offset) / 4)).
    assert (Hstart : 0 <= start_offset).
    { unfold start_offset, to_uint64. apply Z.mod_pos_bound. lia. }
    assert (Hend : end_offset <= code_size c).
    { unfold end_offset.
      destruct (Z.ltb_spec (code_size c) (to_uint64 (end_addr - code_base_addr c))); lia. }
    assert (Hest : 1 <= estimated).
    { unfold estimated.
      destruct (Z.eqb_spec (to_uint32 (to_uint64 (end_offset - start_offset) / 4)) 0);
        [lia|].
      pose proof (Z.mod_pos_bound (to_uint64 (end_offset - start_offset) / 4) (2 ^ 32)
                    ltac:(lia)).
      unfold to_uint32 in *. lia. }
    destruct (loop_safe (fun i => is_valid i = true /\ 1 <= inst_length i <= 6)
                (decoder_ctx c) (arch c) end_offset (Z.to_nat (code_size c)))
      with (c := set_current_offset start_offset
                   (set_instruction_count 0
                      (set_instruction_capacity estimated
                         (set_instructions (Some []) c))))
           (L := @nil DisassembledInstruction)
      as (c' & L' & Hrun & H1 & H2 & H3 & H4 & _).
    + intros _ bytes addr. split; [apply disasm_arm64_is_valid|].
      destruct (disasm_arm64_coherent DISASM_FLAG_PROLOGUE_EPILOGUE_HEURISTICS MNEMONIC_SIZE
                  OPERANDS_SIZE FULL_DISASM_SIZE category_zero branch_type_zero
                  (Some (decoder_ctx c)) bytes addr)
        as [(_ & _ & -> & _) | (_ & _ & -> & _)]; lia.
    + intros _ code addr.
      destruct (x86_shape MNEMONIC_SIZE OPERANDS_SIZE FULL_DISASM_SIZE category_zero
                  branch_type_zero code addr) as (Hv & _ & Hl & _).
      split; assumption.
    + reflexivity.
    + reflexivity.
    + reflexivity.
    + reflexivity.
    + drv_unfold. exact Hest.
    + drv_unfold. cbn [length]. lia.
    + constructor.
    + drv_unfold. exact Hend.
    + drv_unfold. cbn [length]. lia.
    + drv_unfold. cbn [length]. lia.
    + drv_unfold. lia.
    + exists c', L'. revert Hrun H4. drv_unfold. intros -> H4. repeat split; auto.
Qed.

End DriverFacts.

Lemma disasm_all_arm64_listing_witness :
  exists c',
    DisasmTools.sample_all
      (Some (DisasmTools.sample_context DisasmTools.ARCH_ARM64 1
                                        DisasmTools.sample_code_arm64)) =
    DisasmTools.Returned 2 (Some c') /\
    DisasmTools.instruction_count c' = 2 /\ DisasmTools.current_offset c' = 8.
Proof.
  destruct (disasm_all_arm64_listing 1 16 64 128 Disasm.INST_CATEGORY_UNKNOWN
              Disasm.BRANCH_NONE DisasmTools.sample_swap
              (DisasmTools.sample_context DisasmTools.ARCH_ARM64 1
                                          DisasmTools.sample_code_arm64)
              DisasmTools.sample_code_arm64)
    as (c' & Hrun & _ & Hcount & Hoffset & _).
  - reflexivity.
  - reflexivity.
  - cbn. lia.
  - exists c'. split; [exact Hrun|]. split; [exact Hcount | exact Hoffset].
Defined.

Lemma disasm_all_x86_tiling_witness :
  exists c' (L : list Disasm.DisassembledInstruction),
    DisasmTools.sample_all
      (Some (DisasmTools.sample_context DisasmTools.ARCH_X86_64 1
                                        DisasmTools.sample_code_x86_64)) =
    DisasmTools.Returned (Z.of_nat (List.length L)) (Some c') /\
    8 <= DisasmTools.current_offset c' < 14.
Proof.
  destruct (disasm_all_x86_tiling 1 16 64 128 Disasm.INST_CATEGORY_UNKNOWN
              Disasm.BRANCH_NONE DisasmTools.sample_swap
              (DisasmTools.sample_context DisasmTools.ARCH_X86_64 1
                                          DisasmTools.sample_code_x86_64)
              DisasmTools.sample_code_x86_64)
    as (c' & L & Hrun & _ & _ & _ & Hoffset & _).
  - reflexivity.
  - reflexivity.
  - cbn. lia.
  - exists c', L. split; [exact Hrun | exact Hoffset].
Defined.


Lemma find_by_address_first_witness :
  let r := DisasmTools.disasm_find_by_address (Some DisasmTools.sample_listed) 0x1004 in
  (r = -1 /\
   forall x, In x (DisasmTools.stored_instructions DisasmTools.sample_listed) ->
             Disasm.address x <> 0x1004) \/
  (0 <= r < DisasmTools.instruction_count DisasmTools.sample_listed /\
   exists x,
     nth_error (DisasmTools.stored_instructions DisasmTools.sample_listed) (Z.to_nat r) =
     Some x /\ Disasm.address x = 0x1004 /\
     forall j y, (j < Z.to_nat r)%nat ->
                 nth_error (DisasmTools.stored_instructions DisasmTools.sample_listed) j =
                 Some y ->
                 Disasm.address y <> 0x1004).
Proof.
  apply (find_by_address_first DisasmTools.sample_listed 0x1004).
  - discriminate.
  - cbn. lia.
Defined.

Lemma find_by_address_inverts_listing_witness :
  exists c',
    DisasmTools.sample_all
      (Some (DisasmTools.sample_context DisasmTools.ARCH_ARM64 1
                                        DisasmTools.sample_code_arm64)) =
    DisasmTools.Returned 2 (Some c') /\
    DisasmTools.disasm_find_by_address (Some c') 0x1004 = 1 /\
    DisasmTools.disasm_find_by_address (Some c') 0x1002 = -1.
Proof.
  destruct (find_by_address_inverts_listing 1 16 64 128 Disasm.INST_CATEGORY_UNKNOWN
              Disasm.BRANCH_NONE DisasmTools.sample_swap
              (DisasmTools.sample_context DisasmTools.ARCH_ARM64 1
                                          DisasmTools.sample_code_arm64)
              DisasmTools.sample_code_arm64)
    as (c' & Hrun & Hin & Hout).
  - reflexivity.
  - reflexivity.
  - cbn. lia.
  - cbn. lia.
  - cbn. lia.
  - exists c'. split; [exact Hrun|]. split.
    + apply (Hin 1). cbn. lia.
    + apply Hout. intros k Hk. change (0x1002 <> 0x1000 + 4 * k). lia.
Defined.

Lemma detect_functions_needs_heuristics_witness :
  match DisasmTools.sample_all
          (Some (DisasmTools.sample_context DisasmTools.ARCH_ARM64 0
                                            DisasmTools.sample_code_arm64)) with
  | DisasmTools.Returned _ c' => DisasmTools.disasm_detect_functions c' = 0
  | _ => True
  end.
Proof.
  apply (detect_functions_needs_heuristics 1 16 64 128 Disasm.INST_CATEGORY_UNKNOWN
           Disasm.BRANCH_NONE DisasmTools.sample_swap
           (DisasmTools.sample_context DisasmTools.ARCH_ARM64 0
                                       DisasmTools.sample_code_arm64)
           DisasmTools.sample_code_arm64).
  - reflexivity.
  - cbn. lia.
  - intros _. reflexivity.
Defined.

Lemma disasm_range_outcome_witness :
  DisasmTools.sample_range
    (Some (DisasmTools.sample_context DisasmTools.ARCH_ARM64 1
                                      DisasmTools.sample_code_arm64))
    0x1004 0x1004 =
  DisasmTools.Returned 0
    (Some (DisasmTools.sample_context DisasmTools.ARCH_ARM64 1
                                      DisasmTools.sample_code_arm64)) /\
  exists c' (L : list Disasm.DisassembledInstruction),
    DisasmTools.sample_range
      (Some (DisasmTools.sample_context DisasmTools.ARCH_ARM64 1
                                        DisasmTools.sample_code_arm64))
      0x1004 0x1008 =
    DisasmTools.Returned (Z.of_nat (List.length L)) (Some c') /\
    DisasmTools.instructions c' = Some L.
Proof.
  destruct (disasm_range_outcome 1 16 64 128 Disasm.INST_CATEGORY_UNKNOWN
              Disasm.BRANCH_NONE DisasmTools.sample_swap
              (DisasmTools.sample_context DisasmTools.ARCH_ARM64 1
                                          DisasmTools.sample_code_arm64)
              0x1004 0x1004) as [Hempty _]; [cbn; lia|].
  destruct (disasm_range_outcome 1 16 64 128 Disasm.INST_CATEGORY_UNKNOWN
              Disasm.BRANCH_NONE DisasmTools.sample_swap
              (DisasmTools.sample_context DisasmTools.ARCH_ARM64 1
                                          DisasmTools.sample_code_arm64)
              0x1004 0x1008) as [_ Hrange]; [cbn; lia|].
  split.
  - apply Hempty. left. lia.
  - destruct Hrange as (c' & L & Hrun & Hins & _).
    + lia.
    + cbn. lia.
    + exists c', L. split; [exact Hrun | exact Hins].
Defined.

(** ** Register masks, ModRM and instruction length *)

Section DisasmToolsFacts.

Import Disasm DisasmTools.

Lemma land_bit_test (mask r : Z) :
  0 <= r -> negb (mask .& (1 << r) =? 0) = Z.testbit mask r.
Proof.
  intros Hr. rewrite Z.shiftl_1_l.
  destruct (Z.testbit mask r) eqn:E.
  - apply negb_true_iff, Z.eqb_neq. intros H.
    apply (f_equal (fun z => Z.testbit z r)) in H.
    rewrite Z.land_spec, Z.pow2_bits_true, E, Z.bits_0 in H by lia. discriminate.
  - apply negb_false_iff, Z.eqb_eq. apply Z.bits_inj'. intros n Hn.
    rewrite Z.land_spec, Z.bits_0.
    destruct (Z.eq_dec n r) as [-> | Hne].
    + rewrite E. reflexivity.
    + rewrite Z.pow2_bits_false by lia. apply andb_false_r.
Qed.

Lemma enum_registers_loop_spec (n r : nat) (mask : Z) (max_regs : nat) (out : list Z) :
  enum_registers_loop n (Z.of_nat r) mask max_regs out =
  out ++ firstn (max_regs - List.length out)
                (filter (fun x => Z.testbit mask x) (map Z.of_nat (seq r n))).
Proof.
  revert r out. induction n as [|n IH]; intros r out; cbn [enum_registers_loop seq map filter].
  - rewrite firstn_nil, app_nil_r. reflexivity.
  - destruct (Nat.ltb_spec (List.length out) max_regs) as [Hlt | Hge].
    + rewrite land_bit_test by lia.
      replace (Z.of_nat r + 1) with (Z.of_nat (S r)) by lia.
      destruct (Z.testbit mask (Z.of_nat r)).
      * rewrite IH, length_app. cbn [List.length].
        replace (max_regs - List.length out)%nat
          with (S (max_regs - (List.length out + 1)))%nat by lia.
        cbn [firstn]. rewrite <- app_assoc. reflexivity.
      * apply IH.
    + replace (max_regs - List.length out)%nat with 0%nat by lia.
      cbn [firstn]. rewrite app_nil_r. reflexivity.
Qed.

(** X11.  [disasm_enum_registers] stores the numbers of the bits set in
    the mask, lowest first, and stops after [max_regs] of them. *)
Theorem enum_registers_lists_set_bits (mask : Z) (max_regs : nat) :
  disasm_enum_registers mask max_regs = firstn max_regs (registers_of mask).
Proof.
  unfold disasm_enum_registers, registers_of.
  destruct (Nat.eqb_spec max_regs 0) as [-> | H]; [reflexivity|].
  pose proof (enum_registers_loop_spec 64 0 mask max_regs []) as E.
  change (Z.of_nat 0) with 0 in E. rewrite E. cbn [List.length app].
  rewrite Nat.sub_0_r. reflexivity.
Qed.

Lemma land_ones_range (x k : Z) : 0 <= k -> 0 <= x .& Z.ones k < 2 ^ k.
Proof.
  intros Hk. rewrite Z.land_ones by lia. apply Z.mod_pos_bound.
  apply Z.pow_pos_nonneg; lia.
Qed.

(** X12.  [decode_modrm] splits a byte into its three fields without
    loss: the fields are in range and put together they give the byte
    back; [decode_sib] cuts a byte at the same places. *)
Theorem modrm_fields_recompose (b : Z) :
  0 <= b < 256 ->
  let m := decode_modrm b in
  0 <= modrm_mod m < 4 /\ 0 <= modrm_reg m < 8 /\ 0 <= modrm_rm m < 8 /\
  (modrm_mod m << 6) .| (modrm_reg m << 3) .| modrm_rm m = b /\
  sib_scale (decode_sib b) = modrm_mod m /\
  sib_index (decode_sib b) = modrm_reg m /\
  sib_base (decode_sib b) = modrm_rm m.
Proof.
  intros Hb. cbv zeta. unfold decode_modrm, decode_sib.
  cbn [modrm_mod modrm_reg modrm_rm sib_scale sib_index sib_base].
  split; [apply (land_ones_range _ 2); lia|].
  split; [apply (land_ones_range _ 3); lia|].
  split; [apply (land_ones_range _ 3); lia|].
  split; [|auto].
  assert (Hcases : exists k, (k < 256)%nat /\ b = Z.of_nat k) by (exists (Z.to_nat b); lia).
  destruct Hcases as (k & Hk & ->).
  do 256 (destruct k as [|k]; [vm_compute; reflexivity|]). lia.
Qed.

(** X13.  [calculate_x86_64_length] returns a length between 1 and 8: 1
    when fewer than two bytes are at hand, at most 2 when no ModRM byte
    is read, and when one is read it is the byte after the opcode. *)
Theorem x86_length_bounds (bytes : list byte) (max_len : Z) (has_rex : bool) (opcode : Z) :
  let r := calculate_x86_64_length bytes max_len has_rex opcode in
  1 <= fst r <= 8 /\
  (max_len < 2 -> r = (1, None)) /\
  (snd r = None -> fst r <= 2) /\
  (forall m, snd r = Some m ->
             m = decode_modrm (byte_at bytes (if has_rex then 2 else 1)) /\
             (if has_rex then 3 else 2) <= fst r).
Proof.
  cbv zeta. unfold calculate_x86_64_length. cbv zeta.
  destruct (Z.ltb_spec max_len 2) as [Hm | Hm].
  - cbn [fst snd]. repeat split; try lia; try discriminate.
  - destruct has_rex;
      repeat match goal with
             | |- context [if ?c then _ else _] =>
                 lazymatch c with
                 | context [if _ then _ else _] => fail
                 | _ => destruct c
                 end
             end;
      cbn [fst snd]; repeat split; intros; try lia; try discriminate;
      try (match goal with
           | H : Some _ = Some _ |- _ => injection H as <-
           end; first [reflexivity | lia]).
Qed.

End DisasmToolsFacts.

Lemma modrm_fields_recompose_witness :
  let m := DisasmTools.decode_modrm 0xC3 in
  0 <= DisasmTools.modrm_mod m < 4 /\ 0 <= DisasmTools.modrm_reg m < 8 /\
  0 <= DisasmTools.modrm_rm m < 8 /\
  (DisasmTools.modrm_mod m << 6) .| (DisasmTools.modrm_reg m << 3) .|
  DisasmTools.modrm_rm m = 0xC3 /\
  DisasmTools.sib_scale (DisasmTools.decode_sib 0xC3) = DisasmTools.modrm_mod m /\
  DisasmTools.sib_index (DisasmTools.decode_sib 0xC3) = DisasmTools.modrm_reg m /\
  DisasmTools.sib_base (DisasmTools.decode_sib 0xC3) = DisasmTools.modrm_rm m.
Proof. apply (modrm_fields_recompose 0xC3). lia. Defined.

(** ** Searching in strings *)

Section StringSearchFacts.

Lemma prefix_append (p s : string) : String.prefix p (p +++ s) = true.
Proof.
  induction p as [|c p IH]; cbn; [destruct s; reflexivity|].
  destruct (ascii_dec c c) as [E | N]; [exact IH | contradiction].
Qed.

Lemma prefix_split (p s : string) :
  String.prefix p s = true -> exists t, s = p +++ t.
Proof.
  revert s. induction p as [|c p IH]; intros s H.
  - exists s. reflexivity.
  - destruct s as [|d s]; cbn in H; [discriminate H|].
    destruct (ascii_dec c d) as [E | N]; [subst d | discriminate H].
    destruct (IH s H) as (t & E). subst s. exists t. reflexivity.
Qed.

(** The first occurrence of a text that begins with the needle is at 0. *)
Lemma index_prefix (p s : string) : String.index 0 p (p +++ s) = Some 0%nat.
Proof.
  destruct (p +++ s) as [|c t] eqn:E.
  - destruct p; [reflexivity | discriminate].
  - cbn [String.index]. rewrite <- E, prefix_append. reflexivity.
Qed.

Lemma strstr_prefix (p s : string) : strstr (p +++ s) p = true.
Proof. unfold strstr. rewrite index_prefix. reflexivity. Qed.

Lemma append_assoc (a b c : string) : (a +++ b) +++ c = a +++ b +++ c.
Proof. induction a as [|x a IH]; cbn; [reflexivity | rewrite IH; reflexivity]. Qed.

Lemma append_length (a b : string) :
  String.length (a +++ b) = (String.length a + String.length b)%nat.
Proof. induction a as [|x a IH]; cbn; [reflexivity | rewrite IH; reflexivity]. Qed.

(** [strstr] finds the needle exactly when the text is the needle between
    two other texts. *)
Lemma index_some_split (needle : string) : forall hay m,
  String.index 0 needle hay = Some m ->
  exists pre post, hay = pre +++ needle +++ post /\ String.length pre = m.
Proof.
  induction hay as [|c hay IH]; intros m H; cbn [String.index] in H.
  - destruct needle; [|discriminate]. injection H as <-. exists "", "". auto.
  - destruct (String.prefix needle (String c hay)) eqn:P.
    + injection H as <-. destruct (prefix_split _ _ P) as (t & ->).
      exists "", t. auto.
    + destruct (String.index 0 needle hay) as [k|] eqn:E; [|discriminate].
      injection H as <-. destruct (IH k eq_refl) as (pre & post & -> & Hl).
      exists (String c pre), post. cbn. rewrite Hl. auto.
Qed.

Lemma index_of_split (needle pre post : string) :
  exists m, String.index 0 needle (pre +++ needle +++ post) = Some m /\
            (m <= String.length pre)%nat.
Proof.
  induction pre as [|c pre IH].
  - exists 0%nat. cbn [String.append]. rewrite index_prefix. split; [reflexivity | lia].
  - cbn [String.append String.index].
    destruct (String.prefix needle (String c (pre +++ needle +++ post))).
    + exists 0%nat. split; [reflexivity | lia].
    + destruct IH as (m & -> & Hm). exists (S m). cbn. split; [reflexivity | lia].
Qed.

Lemma strstr_iff (hay needle : string) :
  strstr hay needle = true <-> exists pre post, hay = pre +++ needle +++ post.
Proof.
  unfold strstr. split.
  - destruct (String.index 0 needle hay) as [m|] eqn:E; [|discriminate].
    intros _. destruct (index_some_split _ _ _ E) as (pre & post & H & _).
    exists pre, post. exact H.
  - intros (pre & post & ->).
    destruct (index_of_split needle pre post) as (m & -> & _). reflexivity.
Qed.

(** A text that contains [a] contains every text [a] contains. *)
Lemma strstr_trans (s a b : string) :
  strstr s a = true -> strstr a b = true -> strstr s b = true.
Proof.
  intros Hs Ha. apply strstr_iff in Hs. apply strstr_iff in Ha.
  destruct Hs as (p1 & q1 & ->). destruct Ha as (p2 & q2 & ->).
  apply strstr_iff. exists (p1 +++ p2), (q2 +++ q1).
  rewrite !append_assoc. reflexivity.
Qed.

Lemma str_from_append (p s : string) : str_from (String.length p) (p +++ s) = s.
Proof.
  unfold str_from. rewrite append_length.
  replace (String.length p + String.length s - String.length p)%nat
    with (String.length s) by lia.
  induction p as [|c p IH]; cbn.
  - apply substring_whole. lia.
  - exact IH.
Qed.

Lemma str_from_0 (s : string) : str_from 0 s = s.
Proof. apply (str_from_append "" s). Qed.

Lemma str_from_S (c : ascii) (n : nat) (s : string) :
  str_from (S n) (String c s) = str_from n s.
Proof. reflexivity. Qed.

End StringSearchFacts.

(** ** The symbol helpers of the type analyzer *)

Section TypeAnalyzerToolsFacts.

Import TypeAnalyzer TypeAnalyzerTools.

Lemma strstr_absent (s a b : string) :
  strstr a b = true -> strstr s b = false -> strstr s a = false.
Proof.
  intros Hab Hb. destruct (strstr s a) eqn:E; [|reflexivity].
  rewrite (strstr_trans s a b E Hab) in Hb. discriminate Hb.
Qed.

(** X14.  [c_infer_access_level] answers 0, 1, 2 or 4 and never 3: the
    test for ["private"] comes first and every name that contains
    ["fileprivate"] contains ["private"], so such a name gets 2; and 2 is
    the answer exactly for the names that contain ["private"]. *)
Theorem access_level_never_fileprivate (n : string) :
  In (c_infer_access_level n) [0; 1; 2; 4] /\
  (strstr n "fileprivate" = true -> c_infer_access_level n = 2) /\
  (c_infer_access_level n = 2 <-> strstr n "private" = true).
Proof.
  unfold c_infer_access_level.
  destruct (strstr n "private") eqn:P; cbn [orb].
  - split; [cbn; auto|]. split; [reflexivity|]. split; reflexivity.
  - rewrite (strstr_absent n "_private" "private" eq_refl P).
    rewrite (strstr_absent n "fileprivate" "private" eq_refl P).
    rewrite (strstr_absent n "_fileprivate" "private" eq_refl P).
    cbn [orb].
    split; [|split; [discriminate|]].
    + destruct (_ || _); [cbn; auto|]. destruct (_ || _); cbn; auto.
    + split; [|discriminate].
      destruct (_ || _); [discriminate|]. destruct (_ || _); discriminate.
Qed.

(** X15.  Each of the name extractors gives back what was put after its
    prefix, and a symbol made of the Objective-C class prefix and a name is
    classified as a class with that name. *)
Theorem symbol_names_round_trip (n : string) :
  c_extract_class_name ("_OBJC_CLASS_$_" +++ n) = n /\
  c_extract_struct_name ("_struct_" +++ n) = n /\
  c_extract_enum_name ("_enum_" +++ n) = n /\
  c_extract_protocol_name ("_protocol_" +++ n) = n /\
  c_extract_function_name ("_" +++ n) = n /\
  classify ("_OBJC_CLASS_$_" +++ n) = (C_TYPE_CATEGORY_CLASS, Some n).
Proof.
  unfold c_extract_class_name, c_extract_struct_name, c_extract_enum_name,
    c_extract_protocol_name, classify, c_is_class_symbol, c_extract_class_name.
  rewrite !strstr_prefix. cbn [orb].
  pose proof (str_from_append "_OBJC_CLASS_$_" n) as H1.
  pose proof (str_from_append "_struct_" n) as H2.
  pose proof (str_from_append "_enum_" n) as H3.
  pose proof (str_from_append "_protocol_" n) as H4.
  cbn [String.length] in H1, H2, H3, H4. rewrite H1, H2, H3, H4.
  repeat split; reflexivity.
Qed.

Lemma get_append (p s : string) : String.get (String.length p) (p +++ s) = String.get 0 s.
Proof. induction p as [|c p IH]; cbn; [reflexivity | exact IH]. Qed.

(** X16.  The three member-name extractors give back the member of a
    symbol made of the type name, an underscore and the member, and such
    a symbol passes [c_is_property_symbol]. *)
Theorem member_names_round_trip (typeName member : string) :
  c_extract_property_name (typeName +++ "_" +++ member) typeName = member /\
  c_extract_method_name (typeName +++ "_" +++ member) typeName = member /\
  c_extract_enum_case_name (typeName +++ "_" +++ member) typeName = member /\
  c_is_property_symbol (typeName +++ "_" +++ member) typeName = true.
Proof.
  assert (H : extract_after (typeName +++ "_" +++ member) typeName = member).
  { unfold extract_after. rewrite index_prefix. cbv zeta. cbn [Nat.add].
    rewrite get_append. change (String.get 0 ("_" +++ member)) with (Some "_"%char).
    change (Ascii.eqb "_" "_") with true. cbv iota.
    replace (S (String.length typeName)) with (String.length (typeName +++ "_"))
      by (rewrite append_length; cbn; lia).
    rewrite <- append_assoc. apply str_from_append. }
  unfold c_extract_property_name, c_extract_method_name, c_extract_enum_case_name,
    c_is_property_symbol.
  rewrite H, strstr_prefix. repeat split.
  replace (strstr (typeName +++ "_" +++ member) "_") with true;
    [rewrite !orb_true_r; reflexivity|].
  symmetry. apply strstr_iff. exists typeName, member. reflexivity.
Qed.

Lemma skip_spaces_blanks (k : nat) (s : string) :
  skip_spaces (blanks k +++ s) = skip_spaces s.
Proof. induction k as [|k IH]; cbn; [reflexivity | exact IH]. Qed.

Lemma name_span_append (n rest : string) :
  name_span n = String.length n ->
  (rest = "" \/ exists c r, rest = String c r /\ ends_name c = true) ->
  name_span (n +++ rest) = String.length n.
Proof.
  intros Hn Hrest. induction n as [|c n IH]; cbn in *.
  - destruct Hrest as [-> | (d & r & -> & Hd)]; cbn; [reflexivity | rewrite Hd; reflexivity].
  - destruct (ends_name c); [discriminate Hn|]. f_equal. apply IH. lia.
Qed.

Lemma substring_append (n rest : string) :
  String.substring 0 (String.length n) (n +++ rest) = n.
Proof. induction n as [|c n IH]; cbn; [apply substring_nothing | rewrite IH; reflexivity]. Qed.

(** X17.  [c_extract_type_name_from_string] gives back a name written
    after the keyword and any number of spaces, when the name is not
    empty, holds no space, colon or opening brace, and is followed by the
    end of the text or by one of these three characters. *)
Theorem type_name_round_trip (keyword n rest : string) (k : nat) :
  n <> "" -> name_span n = String.length n ->
  (rest = "" \/ exists c r, rest = String c r /\ ends_name c = true) ->
  c_extract_type_name_from_string (keyword +++ blanks k +++ n +++ rest) keyword = Some n.
Proof.
  intros Hne Hn Hrest. unfold c_extract_type_name_from_string.
  rewrite index_prefix. cbv zeta. cbn [Nat.add].
  rewrite str_from_append, skip_spaces_blanks.
  assert (Hs : skip_spaces (n +++ rest) = n +++ rest).
  { destruct n as [|c n]; [contradiction|]. cbn in Hn |- *.
    unfold ends_name in Hn. destruct (Ascii.eqb c " "); [discriminate Hn | reflexivity]. }
  rewrite Hs, (name_span_append n rest Hn Hrest).
  destruct n as [|c n]; [contradiction|]. cbn [String.length Nat.eqb].
  change (S (String.length n)) with (String.length (String c n)).
  rewrite substring_append. reflexivity.
Qed.

Lemma reconstruct_step_entry types sym e :
  In e (reconstruct_step types sym) -> In e types \/ entry_of sym e.
Proof.
  unfold reconstruct_step.
  destruct (sym_name sym) as [n|] eqn:En; [|auto].
  destruct (String.eqb n ""); [auto|].
  destruct (classify n) as [cat [tn|]] eqn:Ec; [|auto].
  destruct (String.eqb_spec tn ""); [auto|].
  destruct (c_reconstruction_has_name types tn); [auto|].
  intros H. apply in_app_iff in H. destruct H as [H | [<- | []]]; [auto|].
  right. exists n. cbn. auto 10.
Qed.

Lemma reconstruct_entries symbols : forall types e,
  In e (fold_left reconstruct_step symbols types) ->
  In e types \/ exists sym, In sym symbols /\ entry_of sym e.
Proof.
  induction symbols as [|s symbols IH]; intros types e H; cbn in H; [auto|].
  destruct (IH _ _ H) as [H1 | (sym & Hs & He)].
  - destruct (reconstruct_step_entry _ _ _ H1) as [H2 | H2]; [auto|].
    right. exists s. split; [left; reflexivity | exact H2].
  - right. exists sym. split; [right; exact Hs | exact He].
Qed.

Lemma reconstruct_step_length types sym :
  (List.length (reconstruct_step types sym) <= S (List.length types))%nat.
Proof.
  pose proof (reconstruct_step_cases types sym) as H.
  destruct (extracted_name sym) as [n|]; [|rewrite H; lia].
  destruct (c_reconstruction_has_name types n); [rewrite H; lia|].
  destruct H as (e & -> & _). rewrite length_app. cbn. lia.
Qed.

Lemma reconstruct_length symbols : forall types,
  (List.length (fold_left reconstruct_step symbols types) <= List.length types + List.length symbols)%nat.
Proof.
  induction symbols as [|s symbols IH]; intros types; cbn; [lia|].
  pose proof (IH (reconstruct_step types s)).
  pose proof (reconstruct_step_length types s). lia.
Qed.

Lemma classified_values (n tn : string) (cat : c_type_category_t) :
  classify n = (cat, Some tn) ->
  cat <> C_TYPE_CATEGORY_UNKNOWN /\
  In (c_estimated_size_for_category tn cat) (category_sizes cat) /\
  In (c_confidence_for_symbol n cat) (category_confidences cat).
Proof.
  unfold classify, c_is_class_symbol.
  destruct (strstr n "_OBJC_CLASS_$_") eqn:Eo; cbn [orb].
  - intros [= <- _]. split; [discriminate|]. split.
    + unfold c_estimated_size_for_category, c_estimate_class_size.
      repeat match goal with |- context [if ?c then _ else _] => destruct c end;
        cbn; auto.
    + unfold c_confidence_for_symbol. rewrite Eo. cbn. auto.
  - intros H.
    assert (Hconf : In cat [C_TYPE_CATEGORY_CLASS; C_TYPE_CATEGORY_STRUCT;
                              C_TYPE_CATEGORY_ENUM; C_TYPE_CATEGORY_PROTOCOL]).
    { revert H.
      repeat match goal with |- context [if ?c then _ else _] => destruct c end;
        intros [= <- _] || discriminate; cbn; auto. }
    split; [intros ->; destruct Hconf as [E | [E | [E | [E | []]]]]; discriminate E|].
    split.
    + unfold c_estimated_size_for_category, c_estimate_class_size,
        c_estimate_struct_size, c_estimate_enum_size.
      destruct cat;
        repeat match goal with |- context [if ?c then _ else _] => destruct c end;
        cbn; auto.
    + unfold c_confidence_for_symbol. rewrite Eo.
      destruct cat; cbn [is_class_category andb].
      * cbn; auto.
      * destruct (strstr n "_TtC" || strstr n "_Tt"); cbn; auto.
      * cbn; auto.
      * cbn; auto.
      * destruct Hconf as [E | [E | [E | [E | []]]]]; discriminate E.
Qed.

(** X18.  Every entry of [c_reconstruct_types_from_binary] has a name
    that is not empty and a category other than unknown, carries one of
    the sizes and one of the confidences of its category, and comes from a
    symbol of the table that classifies to its category and name and
    gives it its address; there are no more entries than symbols. *)
Theorem reconstructed_entries_classified (symbols : list SymbolInfo)
        (e : c_reconstructed_type_t) :
  In e (c_reconstruct_types_from_binary symbols) ->
  name e <> "" /\ category e <> C_TYPE_CATEGORY_UNKNOWN /\
  In (size e) (category_sizes (category e)) /\
  In (confidence e) (category_confidences (category e)) /\
  (List.length (c_reconstruct_types_from_binary symbols) <= List.length symbols)%nat /\
  exists sym n,
    In sym symbols /\ sym_name sym = Some n /\ address e = sym_address sym /\
    classify n = (category e, Some (name e)).
Proof.
  intros H. unfold c_reconstruct_types_from_binary in *.
  destruct (reconstruct_entries _ _ _ H) as [[] | (sym & Hs & n & Hn & Ha & Hc & Hne & Hsz & Hcf)].
  destruct (classified_values _ _ _ Hc) as (Hcat & Hsize & Hconf).
  split; [exact Hne|]. split; [exact Hcat|].
  split; [rewrite Hsz; exact Hsize|]. split; [rewrite Hcf; exact Hconf|].
  split; [apply (reconstruct_length symbols [])|].
  exists sym, n. auto.
Qed.

End TypeAnalyzerToolsFacts.

(** ** The class dump beyond the keys *)

Section ClassDumpToolsFacts.

Import ClassDump ClassDumpTools.

(** ** The string sets *)

Lemma add_unique_string_in (l : list string) (v x : string) :
  In x (class_dump_add_unique_string l v) <-> In x l \/ x = v.
Proof.
  unfold class_dump_add_unique_string.
  destruct (existsb _ l) eqn:E.
  - split; [auto|]. intros [H | ->]; [exact H|].
    apply existsb_exists in E. destruct E as (y & Hy & Heq).
    apply String.eqb_eq in Heq. subst y. exact Hy.
  - rewrite in_app_iff. cbn. intuition.
Qed.

Lemma add_unique_string_nodup (l : list string) (v : string) :
  NoDup l -> NoDup (class_dump_add_unique_string l v).
Proof.
  intros H. unfold class_dump_add_unique_string.
  destruct (existsb _ l) eqn:E; [exact H|].
  apply NoDup_snoc; [exact H|]. intros Hin.
  pose proof (existsb_false _ _ E v Hin) as F. cbn in F.
  unfold class_dump_string_equals, streq in F. rewrite String.eqb_refl in F. discriminate.
Qed.

(** X19.  [class_dump_add_unique_string] is insertion into a set kept as
    a list: the result holds the old strings and the value, stays free of
    duplicates, keeps the old strings in place, and a second insertion of
    the value changes nothing. *)
Theorem add_unique_string_set (l : list string) (v : string) :
  let l' := class_dump_add_unique_string l v in
  (forall x, In x l' <-> In x l \/ x = v) /\
  (NoDup l -> NoDup l') /\
  (exists ext, l' = l ++ ext) /\
  class_dump_add_unique_string l' v = l'.
Proof.
  cbv zeta. split; [intros x; apply add_unique_string_in|].
  split; [apply add_unique_string_nodup|]. split.
  - unfold class_dump_add_unique_string. destruct (existsb _ l).
    + exists []. rewrite app_nil_r. reflexivity.
    + exists [v]. reflexivity.
  - assert (H : In v (class_dump_add_unique_string l v))
      by (apply add_unique_string_in; auto).
    set (l' := class_dump_add_unique_string l v) in *.
    unfold class_dump_add_unique_string at 1.
    replace (existsb _ l') with true; [reflexivity|].
    symmetry. apply existsb_exists. exists v. split; [exact H|].
    apply String.eqb_refl.
Qed.

Lemma add_unique_string_member (l : list string) (v : string) :
  v <> "" -> member_list l -> member_list (class_dump_add_unique_string l v).
Proof.
  intros Hv [Hn He]. split; [apply add_unique_string_nodup, Hn|].
  intros H. apply add_unique_string_in in H. destruct H as [H | H]; [auto|].
  apply Hv. symmetry. exact H.
Qed.

(** ** An induction principle for the scan *)

Lemma safe_strndup_nonempty (start : list byte) (n : nat) (s : string) :
  class_dump_safe_strndup start n = Some s -> s <> "".
Proof.
  unfold class_dump_safe_strndup.
  destruct (Nat.eqb n 0); [discriminate|]. cbv zeta.
  destruct (Nat.eqb_spec (strndup_len start n) 0) as [|Hlen]; [discriminate|].
  intros [= <-] E.
  apply (f_equal String.length) in E. rewrite string_of_list_byte_length in E.
  rewrite length_firstn in E. cbn in E.
  pose proof (strndup_len_le start n). lia.
Qed.

Lemma tail_at_nonempty pattern data pos s : tail_at pattern data pos = Some s -> s <> "".
Proof. apply safe_strndup_nonempty. Qed.

Lemma length_positive (s : string) : Nat.ltb 0 (String.length s) = true -> s <> "".
Proof. intros H ->. discriminate H. Qed.

Section PassInvariant.

Variable P : class_dump_result_t -> Prop.

Hypothesis P_class : forall r n, n <> "" -> P r -> P (add_class_to_result r n).
Hypothesis P_protocol : forall r n, n <> "" -> P r -> P (add_protocol_to_result r n).
Hypothesis P_category :
  forall r c k, c <> "" -> k <> "" -> P r -> P (fst (class_dump_add_category_with_class r c k)).
Hypothesis P_ivar :
  forall r idx v, v <> "" -> P r -> P (update_class r idx (fun c => add_ivar c v)).
Hypothesis P_method :
  forall r idx m b, m <> "" -> P r ->
                    P (update_class r idx (fun c => class_dump_add_method_to_class c m b)).
Hypothesis P_category_method :
  forall r idx m b, m <> "" -> P r ->
                    P (update_category r idx
                         (fun c => class_dump_add_method_to_category c m b)).

Lemma on_class_inv data pos r : P r -> P (on_class data pos r).
Proof.
  intros H. unfold on_class. destruct (tail_at _ _ _) as [n|] eqn:E; [|exact H].
  apply P_class; [exact (tail_at_nonempty _ _ _ _ E) | exact H].
Qed.

Lemma on_protocol_inv data pos r : P r -> P (on_protocol data pos r).
Proof.
  intros H. unfold on_protocol. destruct (tail_at _ _ _) as [n|] eqn:E; [|exact H].
  apply P_protocol; [exact (tail_at_nonempty _ _ _ _ E) | exact H].
Qed.

Lemma on_category_inv data pos r : P r -> P (on_category data pos r).
Proof.
  intros H. unfold on_category. destruct (tail_at _ _ _) as [raw|] eqn:E; [|exact H].
  pose proof (tail_at_nonempty _ _ _ _ E) as Hraw.
  unfold class_dump_split_category.
  destruct (String.index 0 "_$_" raw) as [sep|].
  - cbv zeta.
    destruct (strndup_of_string raw (sep + 3) _) as [k|] eqn:Ek; [|exact H].
    apply P_category; [| exact (safe_strndup_nonempty _ _ _ Ek) | exact H].
    destruct (strndup_of_string raw 0 sep) as [c|]; [|discriminate].
    destruct (Nat.ltb 0 (String.length c)) eqn:Ec; [|discriminate].
    apply length_positive, Ec.
  - apply P_category; [discriminate | exact Hraw | exact H].
Qed.

Lemma find_or_add_class_inv r n : n <> "" -> P r -> P (fst (find_or_add_class r n)).
Proof.
  intros Hn H. unfold find_or_add_class.
  destruct (class_dump_find_class r n); cbn [fst]; [exact H | apply P_class; assumption].
Qed.

Lemma on_ivar_inv data pos r : P r -> P (on_ivar data pos r).
Proof.
  intros H. unfold on_ivar. destruct (tail_at _ _ _) as [full|]; [|exact H].
  destruct (strchr full "."%char) as [dot|]; [|exact H].
  destruct (String.eqb_spec (substring 0 dot full) "") as [|Hc]; [exact H|].
  destruct (String.eqb_spec (str_from (S dot) full) "") as [|Hi]; [exact H|].
  cbn [negb andb].
  pose proof (find_or_add_class_inv r (substring 0 dot full) Hc H) as H1.
  destruct (find_or_add_class r (substring 0 dot full)) as [r1 [idx|]]; cbn [fst] in H1;
    [|exact H1].
  apply P_ivar; assumption.
Qed.

Lemma record_method_inv r cp mp b : mp <> "" -> P r -> P (record_method r cp mp b).
Proof.
  intros Hm H. unfold record_method.
  match goal with |- context [let '(_, _) := ?e in _] => destruct e as [cn cat] end.
  destruct (Nat.ltb 0 (String.length cn)) eqn:Ecn; [|exact H].
  apply length_positive in Ecn.
  pose proof (find_or_add_class_inv r cn Ecn H) as H1.
  destruct (find_or_add_class r cn) as [r1 ci]. cbn [fst] in H1.
  assert (Hcls : P match ci with
                   | Some idx => update_class r1 idx
                       (fun c => class_dump_add_method_to_class c mp b)
                   | None => r1 end).
  { destruct ci; [|exact H1]. apply P_method; assumption. }
  destruct cat as [cat|]; [|exact Hcls].
  destruct (Nat.ltb 0 (String.length cat)) eqn:Ecat; [|exact Hcls].
  apply length_positive in Ecat.
  pose proof (P_category r1 cn cat Ecn Ecat H1) as H2.
  destruct (class_dump_add_category_with_class r1 cn cat) as [r2 k]. cbn [fst] in H2.
  apply P_category_method; assumption.
Qed.

Lemma scan_methods_at_inv data i r : P r -> P (scan_methods_at data i r).
Proof.
  intros H. unfold scan_methods_at.
  destruct (_ && _); [|exact H].
  destruct (bracket_content data i) as [content|]; [|exact H].
  destruct (strchr content " "%char) as [space|]; [|exact H].
  destruct (String.eqb_spec (str_from (S space) content) ""); [exact H|].
  apply record_method_inv; assumption.
Qed.

Lemma analyze_classes_inv data r : P r -> P (class_dump_analyze_classes data r).
Proof. apply (scan_loop_invariant _ _ _ _ P on_class_inv). Qed.

Lemma analyze_categories_inv data r : P r -> P (class_dump_analyze_categories data r).
Proof. apply (scan_loop_invariant _ _ _ _ P on_category_inv). Qed.

Lemma analyze_protocols_inv data r : P r -> P (class_dump_analyze_protocols data r).
Proof. apply (scan_loop_invariant _ _ _ _ P on_protocol_inv). Qed.

Lemma scan_ivars_inv data r : P r -> P (class_dump_scan_ivars data r).
Proof. apply (scan_loop_invariant _ _ _ _ P on_ivar_inv). Qed.

Lemma scan_methods_inv data r : P r -> P (class_dump_scan_methods data r).
Proof.
  unfold class_dump_scan_methods.
  apply fold_left_invariant. intros a b. apply scan_methods_at_inv.
Qed.

Lemma scan_passes_inv data : P empty_result -> P (scan_passes data).
Proof.
  intros H. unfold scan_passes.
  apply scan_methods_inv, scan_ivars_inv, analyze_protocols_inv, analyze_categories_inv,
    analyze_classes_inv, H.
Qed.

Hypothesis P_sample_category :
  forall r, P r -> P (add_category_to_result r "SampleCategory").

Lemma class_dump_binary_passes data :
  class_dump_binary data =
  if Nat.eqb (List.length (classes (scan_passes data))) 0 &&
     Nat.eqb (List.length (categories (scan_passes data))) 0 &&
     Nat.eqb (List.length (result_protocols (scan_passes data))) 0
  then analyze_strings_for_objc data (scan_passes data)
  else scan_passes data.
Proof. reflexivity. Qed.

Lemma class_dump_binary_inv data : P empty_result -> P (class_dump_binary data).
Proof.
  intros H. rewrite class_dump_binary_passes.
  pose proof (scan_passes_inv data H) as Hp.
  destruct (_ && _); [|exact Hp].
  unfold analyze_strings_for_objc. destruct (Nat.ltb 0 _); [|exact Hp].
  apply P_protocol; [discriminate|]. apply P_sample_category.
  apply P_class; [discriminate | exact Hp].
Qed.

End PassInvariant.

(** ** The entries of the scan *)

Lemma Forall_update_nth {A : Type} (Q : A -> Prop) (f : A -> A) (n : nat) (l : list A) :
  (forall x, Q x -> Q (f x)) -> Forall Q l -> Forall Q (update_nth n f l).
Proof.
  intros Hf. revert n. induction l as [|a l IH]; intros [|n] H; cbn; auto;
    inversion H; subst; constructor; auto.
Qed.

Lemma Forall_snoc {A : Type} (Q : A -> Prop) (l : list A) (x : A) :
  Forall Q l -> Q x -> Forall Q (l ++ [x]).
Proof. intros Hl Hx. apply Forall_app. split; [exact Hl | constructor; [exact Hx | constructor]]. Qed.

Lemma member_list_nil : member_list [].
Proof. split; [constructor | intros []]. Qed.

Lemma class_dump_binary_scanned data : scanned_result (class_dump_binary data).
Proof.
  apply class_dump_binary_inv.
  - intros r n Hn (Hc & Hk & Hp). unfold add_class_to_result.
    destruct (class_dump_find_class r n); [repeat split; assumption|].
    split; [|split; assumption]. cbn [classes]. apply Forall_snoc; [exact Hc|].
    repeat split; cbn; auto using member_list_nil; try apply member_list_nil;
      try constructor; try (intros []).
  - intros r n Hn (Hc & Hk & Hp). unfold add_protocol_to_result.
    destruct (class_dump_find_protocol r n); [repeat split; assumption|].
    split; [exact Hc|]. split; [exact Hk|]. cbn [result_protocols].
    apply Forall_snoc; [exact Hp|]. repeat split; auto.
  - intros r c k Hcn Hkn (Hc & Hk & Hp). unfold class_dump_add_category_with_class.
    destruct (class_dump_find_category r c k); cbn [fst]; [repeat split; assumption|].
    split; [exact Hc|]. split; [|exact Hp]. cbn [categories].
    apply Forall_snoc; [exact Hk|].
    repeat split; cbn; auto; try constructor; try (intros []).
  - intros r idx v Hv (Hc & Hk & Hp). split; [|split; assumption].
    cbn [update_class classes]. apply Forall_update_nth; [|exact Hc].
    intros x (H1 & H2 & H3 & H4 & H5 & H6 & H7 & H8 & H9).
    repeat split; cbn; auto; try apply H8; try apply H9;
      apply (add_unique_string_member _ _ Hv H7).
  - intros r idx m b Hm (Hc & Hk & Hp). split; [|split; assumption].
    cbn [update_class classes]. apply Forall_update_nth; [|exact Hc].
    intros x (H1 & H2 & H3 & H4 & H5 & H6 & H7 & H8 & H9).
    destruct b; repeat split; cbn; auto; try apply H7; try apply H8; try apply H9;
      first [apply (add_unique_string_member _ _ Hm H8)
            | apply (add_unique_string_member _ _ Hm H9)].
  - intros r idx m b Hm (Hc & Hk & Hp). split; [exact Hc|]. split; [|exact Hp].
    cbn [update_category categories]. apply Forall_update_nth; [|exact Hk].
    intros x (H1 & H2 & H3 & H4 & H5 & H6).
    destruct b; repeat split; cbn; auto; try apply H5; try apply H6;
      first [apply (add_unique_string_member _ _ Hm H5)
            | apply (add_unique_string_member _ _ Hm H6)].
  - intros r (Hc & Hk & Hp). unfold add_category_to_result.
    destruct (existsb _ _); [repeat split; assumption|].
    split; [exact Hc|]. split; [|exact Hp]. cbn [categories].
    apply Forall_snoc; [exact Hk|].
    repeat split; cbn; auto; try discriminate; try constructor; try (intros []).
  - repeat split; constructor.
Qed.

(** X20.  In the result of [class_dump_binary] every class has a name
    that is not empty, the superclass ["NSObject"], no protocol and no
    property, and the two flags its name determines; every category has
    names that are not empty, no protocol and no property; every protocol
    has a name that is not empty, no parent protocol and no method. *)
Theorem scanned_entries_fixed_fields (data : list byte) :
  let r := class_dump_binary data in
  (forall c, In c (classes r) ->
     className c <> "" /\ superclassName c = "NSObject" /\
     protocols c = [] /\ properties c = [] /\
     isSwift c = class_dump_is_swift_class (className c) /\
     isMetaClass c = class_dump_is_meta_class (className c)) /\
  (forall k, In k (categories r) ->
     categoryName k <> "" /\ cat_className k <> "" /\
     cat_protocols k = [] /\ cat_properties k = []) /\
  (forall p, In p (result_protocols r) ->
     protocolName p <> "" /\ proto_protocols p = [] /\ proto_methods p = []).
Proof.
  cbv zeta. destruct (class_dump_binary_scanned data) as (Hc & Hk & Hp).
  rewrite Forall_forall in Hc, Hk, Hp. split; [|split].
  - intros c H. destruct (Hc c H) as (H1 & H2 & H3 & H4 & H5 & H6 & _). auto 10.
  - intros k H. destruct (Hk k H) as (H1 & H2 & H3 & H4 & _). auto.
  - intros p H. exact (Hp p H).
Qed.

(** X21.  In the result of [class_dump_binary] the instance variables,
    the instance methods and the class methods of every class, and the
    methods of every category, are lists without duplicates and without
    the empty string. *)
Theorem scanned_members_unique (data : list byte) :
  let r := class_dump_binary data in
  (forall c, In c (classes r) ->
     member_list (ivars c) /\ member_list (instanceMethods c) /\
     member_list (classMethods c)) /\
  (forall k, In k (categories r) ->
     member_list (cat_instanceMethods k) /\ member_list (cat_classMethods k)).
Proof.
  cbv zeta. destruct (class_dump_binary_scanned data) as (Hc & Hk & _).
  rewrite Forall_forall in Hc, Hk. split.
  - intros c H. destruct (Hc c H) as (_ & _ & _ & _ & _ & _ & H7 & H8 & H9). auto.
  - intros k H. destruct (Hk k H) as (_ & _ & _ & _ & H5 & H6). auto.
Qed.

(** ** Every occurrence is visited *)

Lemma memchr_first (c : byte) (l : list byte) : forall n k,
  nth_error l k = Some c -> (k < n)%nat ->
  exists off, memchr l c n = Some off /\ (off <= k)%nat.
Proof.
  induction l as [|b l IH]; intros n k Hk Hn; [destruct k; discriminate|].
  destruct n as [|n]; [lia|]. cbn [memchr].
  destruct (Byte.eqb b c) eqn:E; [exists 0%nat; split; [reflexivity | lia]|].
  destruct k as [|k]; cbn in Hk.
  - injection Hk as ->. rewrite (proj2 (byte_eqb_eq c c) eq_refl) in E. discriminate E.
  - destruct (IH n k Hk ltac:(lia)) as (off & -> & Hoff). exists (S off). split; [reflexivity | lia].
Qed.

Lemma starts_with_head (s pattern : list byte) (c : byte) :
  starts_with s pattern = true -> hd_error pattern = Some c -> nth_error s 0 = Some c.
Proof.
  destruct pattern as [|p ps]; [discriminate|]. cbn. intros H [= <-].
  destruct s as [|b s]; [discriminate|]. cbn in *.
  apply andb_true_iff in H. destruct H as [H _]. apply byte_eqb_eq in H. subst. reflexivity.
Qed.

Section ScanReach.

Context {A : Type}.
Variable pattern : list byte.
Variable threshold : nat.
Variable tail_guard : bool.
Variable on_match : list byte -> nat -> A -> A.
Variable Q : A -> Prop.

Hypothesis Q_keep : forall data pos acc, Q acc -> Q (on_match data pos acc).

(** A match the loop condition and the guard admit is handed to
    [on_match]; what the handler sets up there and every later call keeps
    holds at the end of the scan. *)
Lemma scan_loop_reaches (data : list byte) (pos : nat) :
  starts_with (skipn pos data) pattern = true -> pattern <> [] ->
  (threshold < List.length data - pos)%nat ->
  (tail_guard = true -> (List.length pattern <= List.length data - pos)%nat) ->
  (forall acc, Q (on_match data pos acc)) ->
  forall fuel p0 acc,
    (p0 <= pos)%nat -> (List.length data - p0 <= fuel)%nat ->
    Q (scan_loop pattern threshold tail_guard on_match fuel data p0 acc).
Proof.
  intros Hstart Hpat Hthr Hguard Hset.
  destruct pattern as [|c ps] eqn:Ep; [contradiction|]. rewrite <- Ep in *.
  assert (Hc : nth_error data pos = Some c).
  { pose proof (starts_with_head _ _ c Hstart ltac:(rewrite Ep; reflexivity)) as H.
    rewrite nth_error_skipn, Nat.add_0_r in H. exact H. }
  induction fuel as [|fuel IH]; intros p0 acc Hp Hf; [lia|].
  cbn [scan_loop].
  destruct (Nat.leb_spec (List.length data - p0) threshold); [lia|].
  replace (hd NUL pattern) with c by (rewrite Ep; reflexivity).
  destruct (memchr_first c (skipn p0 data) (List.length data - p0) (pos - p0))
    as (off & -> & Hoff).
  { rewrite nth_error_skipn. replace (p0 + (pos - p0))%nat with pos by lia. exact Hc. }
  { lia. }
  replace (tail_guard && Nat.ltb (List.length data - (p0 + off)) (List.length pattern))
    with false.
  2: { destruct tail_guard; [|reflexivity]. cbn [andb]. symmetry.
       apply Nat.ltb_ge. specialize (Hguard eq_refl). lia. }
  destruct (Nat.eq_dec (p0 + off) pos) as [E | E].
  - rewrite E, Hstart. apply scan_loop_invariant; [exact Q_keep | apply Hset].
  - apply IH; [lia | lia].
Qed.

(** Without a match the scan leaves its accumulator alone. *)
Lemma scan_loop_no_match (data : list byte) :
  (forall pos, starts_with (skipn pos data) pattern = false) ->
  forall fuel p0 acc, scan_loop pattern threshold tail_guard on_match fuel data p0 acc = acc.
Proof.
  intros Hno. induction fuel as [|fuel IH]; intros p0 acc; cbn [scan_loop]; [reflexivity|].
  destruct (Nat.leb _ threshold); [reflexivity|].
  destruct (memchr _ _ _) as [off|]; [|reflexivity].
  destruct (tail_guard && _); [reflexivity|].
  rewrite Hno. apply IH.
Qed.

End ScanReach.

(** ** Lookup after insertion *)

Lemma find_index_some {A : Type} (p : A -> bool) (l : list A) (i : nat) :
  find_index p l = Some i ->
  exists x, nth_error l i = Some x /\ p x = true /\
            forall j y, (j < i)%nat -> nth_error l j = Some y -> p y = false.
Proof.
  revert i. induction l as [|a l IH]; intros i H; cbn in H; [discriminate|].
  destruct (p a) eqn:E.
  - injection H as <-. exists a. split; [reflexivity|]. split; [exact E|]. intros j y Hj. lia.
  - destruct (find_index p l) as [k|] eqn:F; [|discriminate]. injection H as <-.
    destruct (IH k eq_refl) as (x & Hx & Hp & Hmin). exists x.
    split; [exact Hx|]. split; [exact Hp|].
    intros [|j] y Hj; cbn; [intros [= <-]; exact E | apply Hmin; lia].
Qed.


Lemma find_index_snoc {A : Type} (p : A -> bool) (l : list A) (x : A) :
  find_index p l = None ->
  find_index p (l ++ [x]) = if p x then Some (List.length l) else None.
Proof.
  induction l as [|a l IH]; cbn; [intros _; destruct (p x); reflexivity|].
  destruct (p a); [discriminate|].
  destruct (find_index p l); [discriminate|]. intros _. rewrite (IH eq_refl).
  destruct (p x); reflexivity.
Qed.


(** ** Every class and protocol symbol is found *)

Lemma class_keys_add r n : class_keys r = class_keys (add_class_to_result r n) \/
                           class_keys (add_class_to_result r n) = class_keys r ++ [n].
Proof.
  unfold add_class_to_result. destruct (class_dump_find_class r n); [left; reflexivity|].
  right. unfold class_keys. cbn [classes]. rewrite map_app. reflexivity.
Qed.

Lemma class_key_added r n : In n (class_keys (add_class_to_result r n)).
Proof.
  unfold add_class_to_result. destruct (class_dump_find_class r n) as [i|] eqn:E.
  - destruct (find_index_some _ _ _ E) as (x & Hx & Hp & _).
    apply String.eqb_eq in Hp. rewrite <- Hp. apply in_map. exact (nth_error_In _ _ Hx).
  - unfold class_keys. cbn [classes]. rewrite map_app, in_app_iff. right. left. reflexivity.
Qed.

Lemma protocol_key_added r n : In n (protocol_keys (add_protocol_to_result r n)).
Proof.
  unfold add_protocol_to_result. destruct (class_dump_find_protocol r n) as [i|] eqn:E.
  - destruct (find_index_some _ _ _ E) as (x & Hx & Hp & _).
    apply String.eqb_eq in Hp. rewrite <- Hp. apply in_map. exact (nth_error_In _ _ Hx).
  - unfold protocol_keys. cbn [result_protocols]. rewrite map_app, in_app_iff.
    right. left. reflexivity.
Qed.

(** No operation of the scan removes a class or a protocol. *)
Lemma class_key_kept (n : string) (data : list byte) :
  (forall r, In n (class_keys r) -> In n (class_keys (class_dump_analyze_classes data r))) /\
  (forall r, In n (class_keys r) ->
             In n (class_keys
                     (class_dump_scan_methods data
                        (class_dump_scan_ivars data
                           (class_dump_analyze_protocols data
                              (class_dump_analyze_categories data r)))))) /\
  (forall r, In n (class_keys r) -> In n (class_keys (analyze_strings_for_objc data r))).
Proof.
  assert (Hclass : forall r m, m <> "" -> In n (class_keys r) ->
                               In n (class_keys (add_class_to_result r m))).
  { intros r m _ H. destruct (class_keys_add r m) as [<- | ->]; [exact H|].
    apply in_app_iff. left. exact H. }
  assert (Hproto : forall r m, m <> "" -> In n (class_keys r) ->
                               In n (class_keys (add_protocol_to_result r m))).
  { intros r m _ H. unfold add_protocol_to_result.
    destruct (class_dump_find_protocol r m); exact H. }
  assert (Hcat : forall r c k, c <> "" -> k <> "" -> In n (class_keys r) ->
                   In n (class_keys (fst (class_dump_add_category_with_class r c k)))).
  { intros r c k _ _ H. unfold class_dump_add_category_with_class.
    destruct (class_dump_find_category r c k); exact H. }
  assert (Hupd : forall r idx f, (forall c, className (f c) = className c) ->
                   In n (class_keys r) -> In n (class_keys (update_class r idx f))).
  { intros r idx f Hf H. unfold class_keys, update_class. cbn [classes].
    rewrite map_update_nth; assumption. }
  assert (Hivar : forall r idx v, v <> "" -> In n (class_keys r) ->
                    In n (class_keys (update_class r idx (fun c => add_ivar c v)))).
  { intros r idx v _. apply Hupd. reflexivity. }
  assert (Hmeth : forall r idx m b, m <> "" -> In n (class_keys r) ->
                    In n (class_keys (update_class r idx
                            (fun c => class_dump_add_method_to_class c m b)))).
  { intros r idx m b _. apply Hupd. intros c. apply add_method_class_name. }
  assert (Hcm : forall r idx m b, m <> "" -> In n (class_keys r) ->
                  In n (class_keys (update_category r idx
                          (fun c => class_dump_add_method_to_category c m b)))).
  { intros r idx m b _ H. exact H. }
  split; [|split].
  - intros r. apply (analyze_classes_inv (fun r => In n (class_keys r)) Hclass).
  - intros r H.
    apply (scan_methods_inv (fun r => In n (class_keys r)) Hclass Hcat Hmeth Hcm).
    apply (scan_ivars_inv (fun r => In n (class_keys r)) Hclass Hivar).
    apply (analyze_protocols_inv (fun r => In n (class_keys r)) Hproto).
    apply (analyze_categories_inv (fun r => In n (class_keys r)) Hcat). exact H.
  - intros r H. unfold analyze_strings_for_objc. destruct (Nat.ltb 0 _); [|exact H].
    apply Hproto; [discriminate|].
    unfold add_category_to_result. destruct (existsb _ _); cbn [class_keys classes];
      (apply Hclass; [discriminate | exact H]).
Qed.

Lemma tail_at_room pattern data pos s :
  tail_at pattern data pos = Some s ->
  (List.length pattern < List.length data - pos)%nat.
Proof.
  unfold tail_at, class_dump_safe_strndup. cbv zeta.
  destruct (Nat.eqb_spec (List.length data - (pos + List.length pattern)) 0); [discriminate|].
  intros _. lia.
Qed.

Lemma protocol_key_kept (n : string) (data : list byte) :
  (forall r, In n (protocol_keys r) ->
             In n (protocol_keys (class_dump_analyze_protocols data r))) /\
  (forall r, In n (protocol_keys r) ->
             In n (protocol_keys (class_dump_scan_methods data
                                    (class_dump_scan_ivars data r)))) /\
  (forall r, In n (protocol_keys r) -> In n (protocol_keys (analyze_strings_for_objc data r))).
Proof.
  assert (Hclass : forall r m, m <> "" -> In n (protocol_keys r) ->
                               In n (protocol_keys (add_class_to_result r m))).
  { intros r m _ H. unfold add_class_to_result. destruct (class_dump_find_class r m); exact H. }
  assert (Hproto : forall r m, m <> "" -> In n (protocol_keys r) ->
                               In n (protocol_keys (add_protocol_to_result r m))).
  { intros r m _ H. unfold add_protocol_to_result.
    destruct (class_dump_find_protocol r m); [exact H|].
    unfold protocol_keys. cbn [result_protocols]. rewrite map_app, in_app_iff. left. exact H. }
  assert (Hcat : forall r c k, c <> "" -> k <> "" -> In n (protocol_keys r) ->
                   In n (protocol_keys (fst (class_dump_add_category_with_class r c k)))).
  { intros r c k _ _ H. unfold class_dump_add_category_with_class.
    destruct (class_dump_find_category r c k); exact H. }
  assert (Hivar : forall r idx v, v <> "" -> In n (protocol_keys r) ->
                    In n (protocol_keys (update_class r idx (fun c => add_ivar c v)))).
  { intros r idx v _ H. exact H. }
  assert (Hmeth : forall r idx m b, m <> "" -> In n (protocol_keys r) ->
                    In n (protocol_keys (update_class r idx
                            (fun c => class_dump_add_method_to_class c m b)))).
  { intros r idx m b _ H. exact H. }
  assert (Hcm : forall r idx m b, m <> "" -> In n (protocol_keys r) ->
                  In n (protocol_keys (update_category r idx
                          (fun c => class_dump_add_method_to_category c m b)))).
  { intros r idx m b _ H. exact H. }
  split; [|split].
  - intros r. apply (analyze_protocols_inv (fun r => In n (protocol_keys r)) Hproto).
  - intros r H.
    apply (scan_methods_inv (fun r => In n (protocol_keys r)) Hclass Hcat Hmeth Hcm).
    apply (scan_ivars_inv (fun r => In n (protocol_keys r)) Hclass Hivar). exact H.
  - intros r H. unfold analyze_strings_for_objc. destruct (Nat.ltb 0 _); [|exact H].
    apply Hproto; [discriminate|].
    unfold add_category_to_result. destruct (existsb _ _); cbn [protocol_keys result_protocols];
      (apply Hclass; [discriminate | exact H]).
Qed.

Lemma category_key_added r c k :
  In (c, k) (category_keys (fst (class_dump_add_category_with_class r c k))).
Proof.
  unfold class_dump_add_category_with_class.
  destruct (class_dump_find_category r c k) as [i|] eqn:E; cbn [fst].
  - destruct (find_index_some _ _ _ E) as (x & Hx & Hp & _).
    apply andb_true_iff in Hp. destruct Hp as [H1 H2].
    apply String.eqb_eq in H1, H2. rewrite <- H1, <- H2.
    apply (in_map (fun c => (cat_className c, categoryName c))). exact (nth_error_In _ _ Hx).
  - unfold category_keys. cbn [categories]. rewrite map_app, in_app_iff. right. left. reflexivity.
Qed.

Lemma category_key_kept (key : string * string) (data : list byte) :
  (forall r, In key (category_keys r) ->
             In key (category_keys (class_dump_analyze_categories data r))) /\
  (forall r, In key (category_keys r) ->
             In key (category_keys
                       (class_dump_scan_methods data
                          (class_dump_scan_ivars data
                             (class_dump_analyze_protocols data r))))) /\
  (forall r, In key (category_keys r) -> In key (category_keys (analyze_strings_for_objc data r))).
Proof.
  set (P := fun r => In key (category_keys r)).
  assert (Hclass : forall r m, m <> "" -> P r -> P (add_class_to_result r m)).
  { intros r m _ H. unfold P, add_class_to_result. destruct (class_dump_find_class r m); exact H. }
  assert (Hproto : forall r m, m <> "" -> P r -> P (add_protocol_to_result r m)).
  { intros r m _ H. unfold P, add_protocol_to_result.
    destruct (class_dump_find_protocol r m); exact H. }
  assert (Hcat : forall r c k, c <> "" -> k <> "" -> P r ->
                               P (fst (class_dump_add_category_with_class r c k))).
  { intros r c k _ _ H. unfold P, class_dump_add_category_with_class.
    destruct (class_dump_find_category r c k); [exact H|].
    unfold category_keys. cbn [fst categories]. rewrite map_app, in_app_iff. left. exact H. }
  assert (Hivar : forall r idx v, v <> "" -> P r ->
                                  P (update_class r idx (fun c => add_ivar c v))).
  { intros r idx v _ H. exact H. }
  assert (Hmeth : forall r idx m b, m <> "" -> P r ->
                    P (update_class r idx (fun c => class_dump_add_method_to_class c m b))).
  { intros r idx m b _ H. exact H. }
  assert (Hcm : forall r idx m b, m <> "" -> P r ->
                  P (update_category r idx
                       (fun c => class_dump_add_method_to_category c m b))).
  { intros r idx m b _ H. unfold P, category_keys, update_category. cbn [categories].
    rewrite (map_update_nth (fun c => (cat_className c, categoryName c))); [exact H|].
    intros c. apply add_method_category_key. }
  split; [|split].
  - intros r. apply (analyze_categories_inv P Hcat).
  - intros r H.
    apply (scan_methods_inv P Hclass Hcat Hmeth Hcm).
    apply (scan_ivars_inv P Hclass Hivar).
    apply (analyze_protocols_inv P Hproto). exact H.
  - intros r H. unfold analyze_strings_for_objc. destruct (Nat.ltb 0 _); [|exact H].
    apply Hproto; [discriminate|].
    unfold add_category_to_result. destruct (existsb _ _).
    + apply Hclass; [discriminate | exact H].
    + unfold P, category_keys. cbn [categories]. rewrite map_app, in_app_iff. left.
      apply (Hclass r "SampleClass"); [discriminate | exact H].
Qed.

Lemma categories_found (data : list byte) (pos : nat) (raw cat : string) (cls : option string) :
  occurs_at "_OBJC_CATEGORY_$_" data pos -> tail_at categoryPattern data pos = Some raw ->
  class_dump_split_category raw = (cls, Some cat) ->
  In (category_owner cls, cat) (category_keys (class_dump_binary data)).
Proof.
  intros Hocc Htail Hsplit.
  destruct (category_key_kept (category_owner cls, cat) data) as (Hsame & Hlater & Hfall).
  assert (H : In (category_owner cls, cat) (category_keys (scan_passes data))).
  { unfold scan_passes. apply Hlater.
    unfold class_dump_analyze_categories, scan.
    apply (scan_loop_reaches categoryPattern _ false on_category
             (fun r => In (category_owner cls, cat) (category_keys r))) with (pos := pos).
    - intros d p acc Hacc. unfold on_category. destruct (tail_at _ d p) as [m|]; [|exact Hacc].
      destruct (class_dump_split_category m) as [cn [k|]]; [|exact Hacc].
      unfold class_dump_add_category_with_class.
      destruct (class_dump_find_category acc _ k); [exact Hacc|].
      unfold category_keys. cbn [fst categories]. rewrite map_app, in_app_iff. left. exact Hacc.
    - exact Hocc.
    - discriminate.
    - exact (tail_at_room _ _ _ _ Htail).
    - discriminate.
    - intros acc. unfold on_category. rewrite Htail, Hsplit. apply category_key_added.
    - lia.
    - lia. }
  rewrite class_dump_binary_passes. destruct (_ && _); [apply Hfall|]; exact H.
Qed.

(** X23.  Every occurrence of the class prefix in the data that is
    followed by a tail puts a class with that tail as its name into the
    result of [class_dump_binary]; likewise the protocol prefix and the
    protocols; and an occurrence of the category prefix puts the category
    its tail splits into into the categories, under the class of the tail
    or ["NSObject"]. *)
Theorem runtime_symbols_found (data : list byte) (pos : nat) (name : string) :
  (occurs_at "_OBJC_CLASS_$_" data pos -> tail_at classPattern data pos = Some name ->
   In name (class_keys (class_dump_binary data))) /\
  (occurs_at "_OBJC_PROTOCOL_$_" data pos -> tail_at protocolPattern data pos = Some name ->
   In name (protocol_keys (class_dump_binary data))) /\
  (forall cls cat,
     occurs_at "_OBJC_CATEGORY_$_" data pos -> tail_at categoryPattern data pos = Some name ->
     class_dump_split_category name = (cls, Some cat) ->
     In (category_owner cls, cat) (category_keys (class_dump_binary data))).
Proof.
  split; [|split; [|intros cls cat; apply categories_found]].
  - intros Hocc Htail. destruct (class_key_kept name data) as (Hsame & Hlater & Hfall).
    assert (H : In name (class_keys (scan_passes data))).
    { unfold scan_passes. apply Hlater.
      unfold class_dump_analyze_classes, scan.
      apply (scan_loop_reaches classPattern _ false on_class
               (fun r => In name (class_keys r))) with (pos := pos).
      - intros d p acc Hacc. unfold on_class. destruct (tail_at _ d p) as [m|]; [|exact Hacc].
        destruct (class_keys_add acc m) as [<- | ->]; [exact Hacc|].
        apply in_app_iff. left. exact Hacc.
      - exact Hocc.
      - discriminate.
      - exact (tail_at_room _ _ _ _ Htail).
      - discriminate.
      - intros acc. unfold on_class. rewrite Htail. apply class_key_added.
      - lia.
      - lia. }
    rewrite class_dump_binary_passes. destruct (_ && _); [apply Hfall|]; exact H.
  - intros Hocc Htail. destruct (protocol_key_kept name data) as (Hsame & Hlater & Hfall).
    assert (H : In name (protocol_keys (scan_passes data))).
    { unfold scan_passes. apply Hlater.
      unfold class_dump_analyze_protocols, scan.
      apply (scan_loop_reaches protocolPattern _ false on_protocol
               (fun r => In name (protocol_keys r))) with (pos := pos).
      - intros d p acc Hacc. unfold on_protocol. destruct (tail_at _ d p) as [m|]; [|exact Hacc].
        unfold add_protocol_to_result. destruct (class_dump_find_protocol acc m); [exact Hacc|].
        unfold protocol_keys. cbn [result_protocols]. rewrite map_app, in_app_iff.
        left. exact Hacc.
      - exact Hocc.
      - discriminate.
      - exact (tail_at_room _ _ _ _ Htail).
      - discriminate.
      - intros acc. unfold on_protocol. rewrite Htail. apply protocol_key_added.
      - lia.
      - lia. }
    rewrite class_dump_binary_passes. destruct (_ && _); [apply Hfall|]; exact H.
Qed.

(** ** Members are recorded *)

Lemma strchr_append (c : ascii) (t rest : string) :
  strchr t c = None -> strchr (t +++ String c rest) c = Some (String.length t).
Proof.
  induction t as [|d t IH]; cbn.
  - intros _. rewrite Ascii.eqb_refl. reflexivity.
  - destruct (Ascii.eqb d c); [discriminate|].
    destruct (strchr t c); [discriminate|]. intros _. rewrite (IH eq_refl). reflexivity.
Qed.

Lemma nth_error_update_nth {A : Type} (f : A -> A) (l : list A) : forall n x,
  nth_error l n = Some x -> nth_error (update_nth n f l) n = Some (f x).
Proof.
  induction l as [|a l IH]; intros [|n] x H; cbn in *; try discriminate.
  - injection H as ->. reflexivity.
  - apply IH, H.
Qed.

Lemma In_update_nth {A : Type} (f : A -> A) (l : list A) (x : A) : forall n,
  In x l -> In x (update_nth n f l) \/ In (f x) (update_nth n f l).
Proof.
  induction l as [|a l IH]; intros n H; [destruct H|].
  destruct n as [|n]; cbn [update_nth]; destruct H as [<- | H].
  - right. left. reflexivity.
  - left. right. exact H.
  - left. left. reflexivity.
  - destruct (IH n H) as [H1 | H1]; [left | right]; right; exact H1.
Qed.

Lemma add_class_found r n :
  exists i x, class_dump_find_class (add_class_to_result r n) n = Some i /\
              nth_error (classes (add_class_to_result r n)) i = Some x /\ className x = n.
Proof.
  unfold add_class_to_result. destruct (class_dump_find_class r n) as [i|] eqn:E.
  - rewrite E. destruct (find_index_some _ _ _ E) as (x & Hx & Hp & _).
    apply String.eqb_eq in Hp. exists i, x. auto.
  - unfold class_dump_find_class in *. cbn [classes].
    rewrite (find_index_snoc _ _ _ E). cbn [className].
    unfold class_dump_string_equals, streq. rewrite String.eqb_refl.
    eexists. eexists. split; [reflexivity|].
    rewrite nth_error_app2, Nat.sub_diag by lia. split; reflexivity.
Qed.

Lemma find_or_add_class_found r n :
  exists i x, snd (find_or_add_class r n) = Some i /\
              nth_error (classes (fst (find_or_add_class r n))) i = Some x /\ className x = n.
Proof.
  unfold find_or_add_class. destruct (class_dump_find_class r n) as [i|] eqn:E; cbn [fst snd].
  - destruct (find_index_some _ _ _ E) as (x & Hx & Hp & _).
    apply String.eqb_eq in Hp. exists i, x. auto.
  - apply add_class_found.
Qed.

(** A member put into the class it belongs to stays there. *)
Lemma class_has_kept (members : class_dump_info_t -> list string) (cls member : string) :
  (forall c v, In member (members c) -> In member (members (add_ivar c v))) ->
  (forall c m b, In member (members c) ->
                 In member (members (class_dump_add_method_to_class c m b))) ->
  forall data,
    (forall r, class_has members cls member r ->
               class_has members cls member (class_dump_scan_ivars data r)) /\
    (forall r, class_has members cls member r ->
               class_has members cls member (class_dump_scan_methods data r)) /\
    (forall r i, class_has members cls member r ->
                 class_has members cls member (scan_methods_at data i r)) /\
    (forall r, class_has members cls member r ->
               class_has members cls member (analyze_strings_for_objc data r)).
Proof.
  intros Hiv Hme data.
  set (P := class_has members cls member).
  assert (Hclass : forall r m, m <> "" -> P r -> P (add_class_to_result r m)).
  { intros r m _ (c & Hc & Hn & Hm). unfold add_class_to_result.
    destruct (class_dump_find_class r m); [exists c; auto|].
    exists c. cbn [classes]. rewrite in_app_iff. auto. }
  assert (Hproto : forall r m, m <> "" -> P r -> P (add_protocol_to_result r m)).
  { intros r m _ H. unfold add_protocol_to_result.
    destruct (class_dump_find_protocol r m); exact H. }
  assert (Hcat : forall r c k, c <> "" -> k <> "" -> P r ->
                               P (fst (class_dump_add_category_with_class r c k))).
  { intros r c k _ _ H. unfold class_dump_add_category_with_class.
    destruct (class_dump_find_category r c k); exact H. }
  assert (Hupd : forall r idx f,
             (forall c, className (f c) = className c) ->
             (forall c, In member (members c) -> In member (members (f c))) ->
             P r -> P (update_class r idx f)).
  { intros r idx f Hn Hm (c & Hc & Hcn & Hcm).
    destruct (In_update_nth f (classes r) c idx Hc) as [H | H].
    - exists c. auto.
    - exists (f c). split; [exact H|]. split; [rewrite Hn; exact Hcn | apply Hm, Hcm]. }
  assert (Hivar : forall r idx v, v <> "" -> P r ->
                                  P (update_class r idx (fun c => add_ivar c v))).
  { intros r idx v _. apply Hupd; [reflexivity | intros c; apply Hiv]. }
  assert (Hmeth : forall r idx m b, m <> "" -> P r ->
                    P (update_class r idx (fun c => class_dump_add_method_to_class c m b))).
  { intros r idx m b _. apply Hupd; [intros c; apply add_method_class_name | intros c; apply Hme]. }
  assert (Hcm : forall r idx m b, m <> "" -> P r ->
                  P (update_category r idx
                       (fun c => class_dump_add_method_to_category c m b))).
  { intros r idx m b _ H. exact H. }
  split; [|split; [|split]].
  - intros r. apply (scan_ivars_inv P Hclass Hivar).
  - intros r. apply (scan_methods_inv P Hclass Hcat Hmeth Hcm).
  - intros r i. apply (scan_methods_at_inv P Hclass Hcat Hmeth Hcm).
  - intros r H. unfold analyze_strings_for_objc. destruct (Nat.ltb 0 _); [|exact H].
    apply Hproto; [discriminate|].
    unfold add_category_to_result. destruct (existsb _ _).
    + apply Hclass; [discriminate | exact H].
    + destruct (Hclass r "SampleClass" ltac:(discriminate) H) as (c & Hc & Hn & Hm).
      exists c. auto.
Qed.

Lemma ivars_grow c v m : In m (ivars c) -> In m (ivars (add_ivar c v)).
Proof. intros H. cbn. apply add_unique_string_in. left. exact H. Qed.

Lemma ivars_same c m b x :
  In x (ivars c) -> In x (ivars (class_dump_add_method_to_class c m b)).
Proof. destruct b; auto. Qed.

Lemma methods_same b c v x : In x (methods_of b c) -> In x (methods_of b (add_ivar c v)).
Proof. destruct b; auto. Qed.

Lemma methods_grow b c m b' x :
  In x (methods_of b c) -> In x (methods_of b (class_dump_add_method_to_class c m b')).
Proof.
  destruct b, b'; cbn; auto; intros H; apply add_unique_string_in; left; exact H.
Qed.

Lemma strchr_split (c : ascii) (a b : string) :
  strchr a c = None ->
  strchr (a +++ String c b) c = Some (String.length a) /\
  String.substring 0 (String.length a) (a +++ String c b) = a /\
  str_from (S (String.length a)) (a +++ String c b) = b.
Proof.
  intros H. split; [apply strchr_append, H|]. split; [apply substring_append|].
  replace (S (String.length a)) with (String.length (a +++ String c "")).
  - replace (a +++ String c b) with ((a +++ String c "") +++ b).
    + apply str_from_append.
    + rewrite append_assoc. reflexivity.
  - rewrite append_length. cbn. lia.
Qed.

(** X27.  An occurrence of the instance-variable prefix followed by a
    tail of the form class, dot, name (the class without a dot, neither
    part empty) leaves in the result of [class_dump_binary] a class of
    that name with the instance variable among its [ivars]. *)
Theorem ivar_symbols_recorded (data : list byte) (pos : nat) (cls iv : string) :
  occurs_at "_OBJC_IVAR_$_" data pos ->
  tail_at ivarPattern data pos = Some (cls +++ "." +++ iv) ->
  strchr cls "."%char = None -> cls <> "" -> iv <> "" ->
  class_has ivars cls iv (class_dump_binary data).
Proof.
  intros Hocc Htail Hdot Hcls Hiv.
  destruct (class_has_kept ivars cls iv (fun c v => ivars_grow c v iv)
              (fun c m b => ivars_same c m b iv) data)
    as (Hivars & Hmethods & _ & Hfall).
  assert (H : class_has ivars cls iv (scan_passes data)).
  { unfold scan_passes. apply Hmethods.
    unfold class_dump_scan_ivars, scan.
    apply (scan_loop_reaches ivarPattern _ true on_ivar (class_has ivars cls iv))
      with (pos := pos).
    - intros d p acc. apply (on_ivar_inv (class_has ivars cls iv)).
      + intros r m _ (c & Hc & Hn & Hm). unfold add_class_to_result.
        destruct (class_dump_find_class r m); [exists c; auto|].
        exists c. cbn [classes]. rewrite in_app_iff. auto.
      + intros r idx v _ (c & Hc & Hcn & Hcm).
        destruct (In_update_nth (fun c => add_ivar c v) (classes r) c idx Hc) as [H | H].
        * exists c. auto.
        * exists (add_ivar c v). split; [exact H|]. split; [exact Hcn | apply ivars_grow, Hcm].
    - exact Hocc.
    - discriminate.
    - exact (tail_at_room _ _ _ _ Htail).
    - intros _. pose proof (tail_at_room _ _ _ _ Htail). lia.
    - intros acc. unfold on_ivar. rewrite Htail.
      change (cls +++ "." +++ iv) with (cls +++ String "."%char iv).
      destruct (strchr_split "."%char cls iv Hdot) as (-> & -> & ->).
      destruct (String.eqb_spec cls "") as [|_]; [contradiction|].
      destruct (String.eqb_spec iv "") as [|_]; [contradiction|].
      cbn [negb andb].
      destruct (find_or_add_class_found acc cls) as (i & x & Hi & Hx & Hn).
      destruct (find_or_add_class acc cls) as [r1 o]. cbn [fst snd] in Hi, Hx. subst o.
      exists (add_ivar x iv). split; [|split].
      + unfold update_class. cbn [classes].
        exact (nth_error_In _ _ (nth_error_update_nth _ _ _ _ Hx)).
      + exact Hn.
      + cbn. apply add_unique_string_in. right. reflexivity.
    - lia.
    - lia. }
  rewrite class_dump_binary_passes. destruct (_ && _); [apply Hfall|]; exact H.
Qed.

(** X28.  A minus or plus sign followed by a bracketed text of the form
    class, space, selector (the class without a space or an opening
    parenthesis, neither part empty) at an index the loop visits leaves in
    the result of [class_dump_binary] a class of that name with the
    selector among its instance methods (minus) or class methods (plus). *)
Theorem bracketed_methods_recorded (data : list byte) (i : nat) (cls sel : string) (b : bool) :
  (i + 2 < List.length data)%nat ->
  nth i data NUL = (if b then PLUS else MINUS) -> nth (i + 1) data NUL = LBRACKET ->
  bracket_content data i = Some (cls +++ " " +++ sel) ->
  strchr cls " "%char = None -> strchr cls "("%char = None -> cls <> "" -> sel <> "" ->
  class_has (methods_of b) cls sel (class_dump_binary data).
Proof.
  intros Hi Hsign Hopen Hcontent Hspace Hparen Hcls Hsel.
  destruct (class_has_kept (methods_of b) cls sel (fun c v => methods_same b c v sel)
              (fun c m b' => methods_grow b c m b' sel) data)
    as (_ & _ & Hat & Hfall).
  assert (H : class_has (methods_of b) cls sel (scan_passes data)).
  { unfold scan_passes, class_dump_scan_methods.
    set (r0 := class_dump_scan_ivars data _).
    assert (Hin : In i (seq 0 (List.length data - 2))) by (apply in_seq; lia).
    destruct (in_split _ _ Hin) as (l1 & l2 & ->).
    rewrite fold_left_app. cbn [fold_left].
    apply fold_left_invariant; [intros a j; apply Hat|].
    set (r1 := fold_left _ l1 r0).
    unfold scan_methods_at. rewrite Hsign, Hopen, Hcontent.
    replace ((Byte.eqb (if b then PLUS else MINUS) MINUS ||
              Byte.eqb (if b then PLUS else MINUS) PLUS) && Byte.eqb LBRACKET LBRACKET)
      with true by (destruct b; reflexivity).
    change (cls +++ " " +++ sel) with (cls +++ String " "%char sel).
    destruct (strchr_split " "%char cls sel Hspace) as (-> & -> & ->).
    destruct (String.eqb_spec sel "") as [|_]; [contradiction|].
    replace (Byte.eqb (if b then PLUS else MINUS) PLUS) with b by (destruct b; reflexivity).
    unfold record_method. rewrite Hparen.
    assert (Hlen : Nat.ltb 0 (String.length cls) = true).
    { destruct cls; [contradiction | reflexivity]. }
    rewrite Hlen.
    destruct (find_or_add_class_found r1 cls) as (k & x & Hk & Hx & Hn).
    destruct (find_or_add_class r1 cls) as [r2 o]. cbn [fst snd] in Hk, Hx. subst o.
    exists (class_dump_add_method_to_class x sel b). split; [|split].
    - unfold update_class. cbn [classes].
      exact (nth_error_In _ _ (nth_error_update_nth _ _ _ _ Hx)).
    - rewrite add_method_class_name. exact Hn.
    - destruct b; cbn; apply add_unique_string_in; right; reflexivity. }
  rewrite class_dump_binary_passes. destruct (_ && _); [apply Hfall|]; exact H.
Qed.

(** ** The fallback *)

Lemma count_pattern_positive data p n : (0 < n)%nat -> (0 < count_pattern data p n)%nat.
Proof.
  unfold count_pattern, scan.
  apply (scan_loop_invariant _ _ _ _ (fun n => (0 < n)%nat)). intros _ _ acc _. lia.
Qed.

Lemma count_pattern_occurrence data p pos n :
  list_byte_of_string p <> [] -> occurs_at p data pos -> (0 < count_pattern data p n)%nat.
Proof.
  intros Hp Hocc. unfold count_pattern, scan.
  apply (scan_loop_reaches (list_byte_of_string p) 0 false (fun _ _ n => S n)
           (fun n => (0 < n)%nat)) with (pos := pos).
  - intros _ _ acc _. lia.
  - exact Hocc.
  - exact Hp.
  - unfold occurs_at in Hocc.
    destruct (list_byte_of_string p) as [|c ps]; [contradiction|].
    destruct (skipn pos data) as [|b rest] eqn:E; [discriminate Hocc|].
    assert (Hl : List.length (skipn pos data) <> 0%nat) by (rewrite E; discriminate).
    rewrite length_skipn in Hl. lia.
  - discriminate.
  - intros acc. lia.
  - lia.
  - lia.
Qed.

Lemma count_pattern_none data p n :
  (forall pos, ~ occurs_at p data pos) -> count_pattern data p n = n.
Proof.
  intros H. unfold count_pattern, scan. apply scan_loop_no_match.
  intros pos. specialize (H pos). unfold occurs_at in H.
  destruct (starts_with _ _); [exfalso; apply H; reflexivity | reflexivity].
Qed.

Lemma found_positive data (ps : list string) : forall n,
  (forall p, In p ps -> list_byte_of_string p <> []) ->
  (0 < n)%nat \/ (exists p pos, In p ps /\ occurs_at p data pos) ->
  (0 < fold_left (fun n p => count_pattern data p n) ps n)%nat.
Proof.
  induction ps as [|q ps IH]; intros n Hne H; cbn [fold_left].
  - destruct H as [H | (p & pos & [] & _)]. exact H.
  - apply IH; [intros p Hp; apply Hne; right; exact Hp|].
    destruct H as [H | (p & pos & [<- | Hin] & Hocc)].
    + left. apply count_pattern_positive, H.
    + left. apply (count_pattern_occurrence data q pos n); [apply Hne; left; reflexivity | exact Hocc].
    + right. exists p, pos. auto.
Qed.

Lemma found_none data (ps : list string) : forall n,
  (forall p pos, In p ps -> ~ occurs_at p data pos) ->
  fold_left (fun n p => count_pattern data p n) ps n = n.
Proof.
  induction ps as [|q ps IH]; intros n H; cbn [fold_left]; [reflexivity|].
  rewrite count_pattern_none by (intros pos; apply H; left; reflexivity).
  apply IH. intros p pos Hp. apply H. right. exact Hp.
Qed.

(** X24.  [class_dump_binary] returns what the five scan passes found
    whenever they found anything.  When they found nothing, the result is
    the three placeholder entries SampleClass, SampleCategory and
    SampleProtocol if one of the ten method names of the fallback occurs
    anywhere in the data, and the empty result otherwise. *)
Theorem sample_entries_when_nothing_found (data : list byte) :
  let r := scan_passes data in
  (r <> empty_result -> class_dump_binary data = r) /\
  (r = empty_result -> (exists p pos, In p stringPatterns /\ occurs_at p data pos) ->
   class_dump_binary data = sample_result) /\
  (r = empty_result -> (forall p pos, In p stringPatterns -> ~ occurs_at p data pos) ->
   class_dump_binary data = empty_result).
Proof.
  cbv zeta. rewrite class_dump_binary_passes. split; [|split].
  - intros H. destruct (scan_passes data) as [[|c cs] [|k ks] [|p ps]]; cbn; try reflexivity.
    exfalso. apply H. reflexivity.
  - intros -> H. cbn [classes categories result_protocols List.length Nat.eqb andb].
    unfold analyze_strings_for_objc.
    pose proof (found_positive data stringPatterns 0) as Hf.
    destruct (Nat.ltb_spec 0 (fold_left (fun n p => count_pattern data p n) stringPatterns 0%nat))
      as [_ | Hz].
    + vm_compute. reflexivity.
    + exfalso. assert (0 < fold_left (fun n p => count_pattern data p n) stringPatterns 0)%nat;
        [|lia].
      apply Hf; [|right; exact H].
      intros p Hp. unfold stringPatterns in Hp. cbn [In] in Hp.
      repeat (destruct Hp as [<- | Hp]; [discriminate|]). destruct Hp.
  - intros -> H. cbn [classes categories result_protocols List.length Nat.eqb andb].
    unfold analyze_strings_for_objc. rewrite (found_none data stringPatterns 0%nat H).
    reflexivity.
Qed.

(** ** Names and types out of symbols *)

(** X25.  [class_dump_extract_class_name] and
    [class_dump_extract_protocol_name] give back the name put after their
    prefix; [class_dump_extract_category_name] skips 16 of the 17
    characters of its prefix and gives back the name with an underscore
    before it. *)
Theorem class_dump_names_round_trip (n : string) :
  class_dump_extract_class_name ("_OBJC_CLASS_$_" +++ n) = n /\
  class_dump_extract_protocol_name ("_OBJC_PROTOCOL_$_" +++ n) = n /\
  class_dump_extract_category_name ("_OBJC_CATEGORY_$_" +++ n) = "_" +++ n.
Proof.
  unfold class_dump_extract_class_name, class_dump_extract_protocol_name,
    class_dump_extract_category_name.
  rewrite !strstr_prefix.
  pose proof (str_from_append "_OBJC_CLASS_$_" n) as H1.
  pose proof (str_from_append "_OBJC_PROTOCOL_$_" n) as H2.
  pose proof (str_from_append "_OBJC_CATEGORY_$" ("_" +++ n)) as H3.
  cbn [String.length] in H1, H2, H3.
  split; [exact H1|]. split; [exact H2 | exact H3].
Qed.

Lemma index_char (c : ascii) (s : string) :
  String.index 0 (String c "") s = strchr s c.
Proof.
  induction s as [|d s IH]; [reflexivity|].
  cbn [String.index strchr String.prefix].
  destruct (ascii_dec c d) as [E | N].
  - subst d. rewrite Ascii.eqb_refl. destruct s; reflexivity.
  - rewrite IH. destruct (Ascii.eqb_spec d c) as [E | _]; [congruence|]. reflexivity.
Qed.

(** X26.  [class_dump_extract_property_type] gives back a class name
    written between the mark [T@] with a double quote and the next double
    quote, when the name holds no double quote, and ["id"] for attributes
    without the mark. *)
Theorem property_type_round_trip (t rest : string) :
  strchr t "034"%char = None ->
  class_dump_extract_property_type (type_mark +++ t +++ quote +++ rest) = t /\
  (forall a, strstr a type_mark = false -> class_dump_extract_property_type a = "id").
Proof.
  intros Ht. split.
  - unfold class_dump_extract_property_type. rewrite index_prefix. cbv zeta.
    change (0 + 3)%nat with (String.length type_mark). rewrite str_from_append.
    unfold quote. rewrite index_char.
    change (String "034" "" +++ rest) with (String "034" rest).
    rewrite (strchr_append _ _ _ Ht).
    change (type_mark +++ t +++ String "034" rest)
      with (String "T" (String "@" (String "034" (t +++ String "034" rest)))).
    change (String.length type_mark) with 3%nat.
    cbn [String.substring]. apply substring_append.
  - intros a Ha. unfold class_dump_extract_property_type, strstr in *.
    destruct (String.index 0 type_mark a); [discriminate | reflexivity].
Qed.

End ClassDumpToolsFacts.

Lemma type_name_round_trip_witness :
  TypeAnalyzerTools.c_extract_type_name_from_string
    ("class " +++ TypeAnalyzerTools.blanks 1 +++ "Foo" +++ ": Bar") "class " = Some "Foo".
Proof.
  apply (type_name_round_trip "class " "Foo" ": Bar" 1).
  - discriminate.
  - reflexivity.
  - right. exists ":"%char, " Bar". split; reflexivity.
Defined.

Lemma reconstructed_entries_classified_witness :
  let symbols := [TypeAnalyzer.mkSymbol (Some "_OBJC_CLASS_$_FooView") 0x4000;
                  TypeAnalyzer.mkSymbol (Some "_protocol_Bar") 0x5000] in
  let e := TypeAnalyzer.mkType "Bar" 0x5000 0 TypeAnalyzer.C_TYPE_CATEGORY_PROTOCOL
                               (7 # 10)%Q in
  TypeAnalyzer.name e <> "" /\
  TypeAnalyzer.category e <> TypeAnalyzer.C_TYPE_CATEGORY_UNKNOWN /\
  In (TypeAnalyzer.size e) (TypeAnalyzerTools.category_sizes (TypeAnalyzer.category e)) /\
  In (TypeAnalyzer.confidence e)
     (TypeAnalyzerTools.category_confidences (TypeAnalyzer.category e)) /\
  (List.length (TypeAnalyzer.c_reconstruct_types_from_binary symbols) <=
   List.length symbols)%nat /\
  exists sym n,
    In sym symbols /\ TypeAnalyzer.sym_name sym = Some n /\
    TypeAnalyzer.address e = TypeAnalyzer.sym_address sym /\
    TypeAnalyzer.classify n = (TypeAnalyzer.category e, Some (TypeAnalyzer.name e)).
Proof.
  cbv zeta.
  apply (reconstructed_entries_classified
           [TypeAnalyzer.mkSymbol (Some "_OBJC_CLASS_$_FooView") 0x4000;
            TypeAnalyzer.mkSymbol (Some "_protocol_Bar") 0x5000]
           (TypeAnalyzer.mkType "Bar" 0x5000 0 TypeAnalyzer.C_TYPE_CATEGORY_PROTOCOL
                                (7 # 10)%Q)).
  right. left. reflexivity.
Defined.

Lemma runtime_symbols_found_witness :
  In "Foo" (ClassDump.class_keys (ClassDump.class_dump_binary ClassDump.s6_binary)).
Proof.
  destruct (runtime_symbols_found ClassDump.s6_binary 0 "Foo") as (Hclass & _ & _).
  apply Hclass; reflexivity.
Defined.

Lemma property_type_round_trip_witness :
  ClassDumpTools.class_dump_extract_property_type
    (ClassDumpTools.type_mark +++ "NSString" +++ ClassDumpTools.quote +++ ",&,N") =
  "NSString".
Proof.
  destruct (property_type_round_trip "NSString" ",&,N") as [H _]; [reflexivity | exact H].
Defined.

Lemma ivar_symbols_recorded_witness :
  ClassDumpTools.class_has ClassDump.ivars "Foo" "counter"
    (ClassDump.class_dump_binary ClassDump.s6_binary).
Proof.
  apply (ivar_symbols_recorded ClassDump.s6_binary 45 "Foo" "counter").
  - reflexivity.
  - reflexivity.
  - reflexivity.
  - discriminate.
  - discriminate.
Defined.

Lemma bracketed_methods_recorded_witness :
  ClassDumpTools.class_has (ClassDumpTools.methods_of false) "Foo" "tick"
    (ClassDump.class_dump_binary ClassDump.s6_binary).
Proof.
  apply (bracketed_methods_recorded ClassDump.s6_binary 70 "Foo" "tick" false).
  - cbn. lia.
  - reflexivity.
  - reflexivity.
  - reflexivity.
  - reflexivity.
  - reflexivity.
  - discriminate.
  - discriminate.
Defined.
